(** * ResNet graph builder (resnet/resnet.py): a shallow embedding

    The module assembles a graph of framework layers.  Building a layer
    and calling it on tensors has two observable effects: a node is added
    to the layer graph, or an exception is raised.  Both are modelled by a
    small monad that threads the graph and keeps it when an exception is
    raised.  Tensors are symbolic: they carry the index of the node that
    produced them and their static shape ([_keras_shape]); no numerical
    value is computed when a model is built.

    The framework (Keras 1.x) is not part of the module.  Of it, the
    development models what decides whether and how the graph grows: the
    static shape of each layer's output, the fact that a layer with
    weights needs to know the size of the axis its weights range over and
    positive extents for them, the fact that the extents of a pooling
    window are known positive machine integers, and the fact that a sum
    is only accepted on equal shapes.  Sizes and counts are Python
    integers, so they are in [Z]; the statements that say that a function
    returns ask for positive ones, and for sizes below [2^63] where a
    size becomes a pooling window; the memory that weights take is not
    modelled.  [main] prints a summary of its model
    and returns nothing; the printing, like the plotting helper, is a
    parameter of the development. *)

From Stdlib Require Import ZArith String List Bool Lia.
Import ListNotations.

Local Open Scope string_scope.
Local Open Scope list_scope.
Local Open Scope Z_scope.

(** ** Python runtime *)

Inductive exn : Type :=
| Exception (msg : string)          (* [raise Exception(msg)] of the module itself *)
| TypeError                         (* arithmetic on [None] *)
| ZeroDivisionError                 (* [a // 0] *)
| IndexError                        (* tuple index out of range *)
| KerasShapeError (layer : string)  (* shape validation of the framework *)
| BackendError (layer : string).    (* weights or backend operation of a layer
                                       that cannot be created from its
                                       arguments; which Python exception
                                       this is depends on the argument and
                                       on the backend *)

Definition result (A : Type) : Type := (exn + A)%type.

(** A dimension of a static shape: [None] is a dimension that is not
    known when the graph is built (the batch dimension always is). *)
Definition dim : Type := option Z.
Definition shape : Type := list dim.

Definition dim_eqb (a b : dim) : bool :=
  match a, b with
  | Some x, Some y => x =? y
  | None, None => true
  | _, _ => false
  end.

Fixpoint shape_eqb (s t : shape) : bool :=
  match s, t with
  | [], [] => true
  | a :: s', b :: t' => dim_eqb a b && shape_eqb s' t'
  | _, _ => false
  end.

(** [a // b] on integers: floor division, [ZeroDivisionError] on [b = 0]. *)
Definition floordiv (a b : Z) : result Z :=
  if b =? 0 then inl ZeroDivisionError else inr (a / b).

(** [a // b] on shape entries: [None] is not a number. *)
Definition dim_floordiv (a b : dim) : result Z :=
  match a, b with
  | Some x, Some y => floordiv x y
  | _, _ => inl TypeError
  end.

(** [t[i]] on a tuple. *)
Definition getitem {A : Type} (t : list A) (i : nat) : result A :=
  match nth_error t i with
  | Some x => inr x
  | None => inl IndexError
  end.

(** [range(n)] and [enumerate(l)]. *)
Definition range (n : Z) : list Z := map Z.of_nat (seq 0 (Z.to_nat n)).

Definition enumerate {A : Type} (l : list A) : list (Z * A) :=
  combine (map Z.of_nat (seq 0 (length l))) l.

(** ** The layer graph *)

Inductive dim_ordering : Type := tf | th.

Inductive border : Type := same | valid.

(** The layers the module instantiates, with the arguments it passes. *)
Inductive layer : Type :=
| Input (input_shape : list dim)
| Convolution2D (nb_filter : dim) (nb_row nb_col : Z) (subsample : Z * Z)
                (init : string) (border_mode : border)
| BatchNormalization (mode : Z) (axis : nat)
| Activation (activation : string)
| MaxPooling2D (pool_size : Z * Z) (strides : Z * Z) (border_mode : border)
| AveragePooling2D (pool_size : dim * dim) (strides : Z * Z) (border_mode : border)
| Flatten
| Dense (output_dim : Z) (init : string) (activation : string)
| Merge (mode : string).

Record node : Type := mk_node {
  node_layer : layer;
  inbound : list nat;       (* indices of the nodes whose outputs are consumed *)
  output_shape : shape
}.

Definition graph : Type := list node.

Record tensor : Type := mk_tensor {
  _keras_history : nat;     (* index of the node that produced the tensor *)
  _keras_shape : shape
}.

(** ** Graph construction monad *)

Definition M (A : Type) : Type := graph -> result A * graph.

Definition ret {A : Type} (a : A) : M A := fun g => (inr a, g).

Definition raise {A : Type} (e : exn) : M A := fun g => (inl e, g).

Definition bind {A B : Type} (m : M A) (k : A -> M B) : M B :=
  fun g =>
    match m g with
    | (inl e, g') => (inl e, g')
    | (inr a, g') => k a g'
    end.

Definition lift {A : Type} (r : result A) : M A := fun g => (r, g).

Declare Scope graph_scope.
Delimit Scope graph_scope with graph.
Notation "x <- m ;; k" := (bind m (fun x => k))
  (at level 100, m at next level, right associativity) : graph_scope.
Notation "' p <- m ;; k" := (bind m (fun x => match x with p => k end))
  (at level 100, p pattern, m at next level, right associativity) : graph_scope.
Local Open Scope graph_scope.

(** [for x in xs: s = body(s, x)] with the loop-carried variables [s]. *)
Fixpoint for_ {S X : Type} (xs : list X) (s : S) (body : S -> X -> M S) : M S :=
  match xs with
  | [] => ret s
  | x :: xs' => s' <- body s x ;; for_ xs' s' body
  end.

(** ** Static shapes of the framework's layers (Keras 1.x) *)

Definition rbind {A B : Type} (r : result A) (k : A -> result B) : result B :=
  match r with
  | inl e => inl e
  | inr a => k a
  end.

(** Length of one spatial axis after a convolution or a pooling window. *)
Definition conv_output_length (input_length filter_size : dim)
    (border_mode : border) (stride : Z) : result dim :=
  match input_length with
  | None => inr None
  | Some l =>
      match filter_size with
      | None => inl TypeError
      | Some k =>
          let output_length :=
            match border_mode with
            | same => l
            | valid => l - k + 1
            end in
          rbind (floordiv (output_length + stride - 1) stride)
                (fun q => inr (Some q))
      end
  end.

(** A window (convolution kernel or pool) sliding over the two spatial
    axes of a 4D tensor; [channels] is the channel entry of the result. *)
Definition window_output_shape (o : dim_ordering) (who : string)
    (input_shape : shape) (channels : dim -> result dim) (size : dim * dim)
    (border_mode : border) (strides : Z * Z) : result shape :=
  match o, input_shape with
  | th, [n; c; r; w] =>
      rbind (channels c) (fun c' =>
      rbind (conv_output_length r (fst size) border_mode (fst strides)) (fun rows =>
      rbind (conv_output_length w (snd size) border_mode (snd strides)) (fun cols =>
      inr [n; c'; rows; cols])))
  | tf, [n; r; w; c] =>
      rbind (channels c) (fun c' =>
      rbind (conv_output_length r (fst size) border_mode (fst strides)) (fun rows =>
      rbind (conv_output_length w (snd size) border_mode (snd strides)) (fun cols =>
      inr [n; rows; cols; c'])))
  | _, _ => inl (KerasShapeError who)
  end.

(** A layer with weights needs the size of the axis the weights range over. *)
Definition defined (d : dim) : result Z :=
  match d with
  | Some z => inr z
  | None => inl TypeError
  end.

(** The weights of a layer are created when the layer is called, before
    its output shape is computed: every extent of a weight array has to
    be positive. *)
Definition weights (who : string) (extents : list Z) : result unit :=
  if forallb (fun z => 0 <? z) extents then inr tt else inl (BackendError who).

(** The extent of a pooling window is handed to the backend as a machine
    integer: it has to be known, positive and below [2^63]. *)
Definition pool_extent (who : string) (d : dim) : result Z :=
  match d with
  | None => inl TypeError
  | Some z =>
      if (0 <? z) && (z <? 2 ^ 63) then inr z else inl (BackendError who)
  end.

Definition fully_defined (s : shape) : bool :=
  forallb (fun d => match d with Some z => negb (z =? 0) | None => false end) s.

Definition prod (s : shape) : Z :=
  fold_right (fun d acc => match d with Some z => z * acc | None => acc end) 1 s.

Definition get_output_shape_for (o : dim_ordering) (l : layer)
    (input_shapes : list shape) : result shape :=
  match l, input_shapes with
  | Input s, [] => inr (None :: s)
  | Convolution2D nb_filter nb_row nb_col subsample _ border_mode, [s] =>
      window_output_shape o "Convolution2D" s
        (fun c => rbind (defined c) (fun stack_size =>
                  rbind (defined nb_filter) (fun k =>
                  rbind (weights "Convolution2D" [k; stack_size; nb_row; nb_col])
                        (fun _ => inr (Some k)))))
        (Some nb_row, Some nb_col) border_mode subsample
  | BatchNormalization _ axis, [s] =>
      rbind (getitem s axis) (fun d =>
      rbind (defined d) (fun k =>
      if k <? 0 then inl (BackendError "BatchNormalization") else inr s))
  | Activation _, [s] => inr s
  | MaxPooling2D pool_size strides border_mode, [s] =>
      window_output_shape o "MaxPooling2D" s (fun c => inr c)
        (Some (fst pool_size), Some (snd pool_size)) border_mode strides
  | AveragePooling2D pool_size strides border_mode, [s] =>
      window_output_shape o "AveragePooling2D" s
        (fun c => rbind (pool_extent "AveragePooling2D" (fst pool_size)) (fun _ =>
                  rbind (pool_extent "AveragePooling2D" (snd pool_size)) (fun _ =>
                  inr c)))
        pool_size border_mode strides
  | Flatten, [n :: s] =>
      if (2 <=? length s)%nat && fully_defined s
      then inr [n; Some (prod s)]
      else inl (KerasShapeError "Flatten")
  | Dense output_dim _ _, [[n; d]] =>
      rbind (defined d) (fun input_dim =>
      rbind (weights "Dense" [input_dim; output_dim]) (fun _ =>
      inr [n; Some output_dim]))
  | Merge _, s1 :: s2 :: rest =>
      if forallb (shape_eqb s1) (s2 :: rest)
      then inr s1
      else inl (KerasShapeError "Merge")
  | Input _, _ => inl (KerasShapeError "Input")
  | Convolution2D _ _ _ _ _ _, _ => inl (KerasShapeError "Convolution2D")
  | BatchNormalization _ _, _ => inl (KerasShapeError "BatchNormalization")
  | Activation _, _ => inl (KerasShapeError "Activation")
  | MaxPooling2D _ _ _, _ => inl (KerasShapeError "MaxPooling2D")
  | AveragePooling2D _ _ _, _ => inl (KerasShapeError "AveragePooling2D")
  | Flatten, _ => inl (KerasShapeError "Flatten")
  | Dense _ _ _, _ => inl (KerasShapeError "Dense")
  | Merge _, _ => inl (KerasShapeError "Merge")
  end.

(** [layer(...)(inputs)]: the layer becomes the next node of the graph and
    its output tensor is returned; when the shapes are rejected nothing is
    added. *)
Definition call (o : dim_ordering) (l : layer) (inputs : list tensor) : M tensor :=
  fun g =>
    match get_output_shape_for o l (map _keras_shape inputs) with
    | inl e => (inl e, g)
    | inr s =>
        (inr (mk_tensor (length g) s),
         g ++ [mk_node l (map _keras_history inputs) s])
    end.

(** [merge(inputs, mode=...)]. *)
Definition merge (o : dim_ordering) (inputs : list tensor) (mode : string) : M tensor :=
  call o (Merge mode) inputs.

(** The model object: [Model(input=..., output=...)] is not compiled;
    [compile] attaches a loss and an optimizer to it. *)
Record Model : Type := mk_Model {
  model_input : tensor;
  model_output : tensor;
  loss : option string;
  optimizer : option string
}.

Definition new_Model (input output : tensor) : Model :=
  mk_Model input output None None.

Definition compile (m : Model) (loss optimizer : string) : Model :=
  mk_Model (model_input m) (model_output m) (Some loss) (Some optimizer).

Definition is_compiled (m : Model) : bool :=
  match optimizer m with
  | Some _ => true
  | None => false
  end.

(** ** resnet.py *)

Section Resnet.

(** [K.image_dim_ordering()], which fixes the axis constants. *)
Variable image_dim_ordering : dim_ordering.

Definition INPUT_SHAPE : list dim :=
  match image_dim_ordering with
  | tf => [Some 224; Some 224; Some 3]
  | th => [Some 3; Some 224; Some 224]
  end.

Definition ROW_AXIS : nat :=
  match image_dim_ordering with tf => 1 | th => 2 end.
Definition COL_AXIS : nat :=
  match image_dim_ordering with tf => 2 | th => 3 end.
Definition CHANNEL_AXIS : nat :=
  match image_dim_ordering with tf => 3 | th => 1 end.

Local Abbreviation layer_call := (call image_dim_ordering).

(* Helper to build a conv -> BN -> relu block *)
Definition _conv_bn_relu (nb_filter nb_row nb_col : Z) (subsample : Z * Z)
    (input : tensor) : M tensor :=
  conv <- layer_call (Convolution2D (Some nb_filter) nb_row nb_col subsample
                        "he_normal" same) [input] ;;
  norm <- layer_call (BatchNormalization 0 CHANNEL_AXIS) [conv] ;;
  layer_call (Activation "relu") [norm].

(* Helper to build a BN -> relu -> conv block *)
Definition _bn_relu_conv (nb_filter nb_row nb_col : Z) (subsample : Z * Z)
    (input : tensor) : M tensor :=
  norm <- layer_call (BatchNormalization 0 CHANNEL_AXIS) [input] ;;
  activation <- layer_call (Activation "relu") [norm] ;;
  layer_call (Convolution2D (Some nb_filter) nb_row nb_col subsample
                "he_normal" same) [activation].

(* Adds a shortcut between input and residual block and merges them with "sum" *)
Definition _shortcut (input residual : tensor) : M tensor :=
  input_rows <- lift (getitem (_keras_shape input) ROW_AXIS) ;;
  residual_rows <- lift (getitem (_keras_shape residual) ROW_AXIS) ;;
  stride_width <- lift (dim_floordiv input_rows residual_rows) ;;
  input_cols <- lift (getitem (_keras_shape input) COL_AXIS) ;;
  residual_cols <- lift (getitem (_keras_shape residual) COL_AXIS) ;;
  stride_height <- lift (dim_floordiv input_cols residual_cols) ;;
  residual_channels <- lift (getitem (_keras_shape residual) CHANNEL_AXIS) ;;
  input_channels <- lift (getitem (_keras_shape input) CHANNEL_AXIS) ;;
  let equal_channels := dim_eqb residual_channels input_channels in
  shortcut <-
    (if (stride_width >? 1) || (stride_height >? 1) || negb equal_channels
     then layer_call (Convolution2D residual_channels 1 1
                        (stride_width, stride_height) "he_normal" valid) [input]
     else ret input) ;;
  merge image_dim_ordering [shortcut; residual] "sum".

Definition block_fn_type : Type := Z -> Z * Z -> tensor -> M tensor.

(* Builds a residual block with repeating bottleneck blocks. *)
Definition _residual_block (block_function : block_fn_type)
    (nb_filters repetitions : Z) (is_first_layer : bool) (input : tensor) : M tensor :=
  for_ (range repetitions) input (fun input i =>
    let init_subsample :=
      if (i =? 0) && negb is_first_layer then (2, 2) else (1, 1) in
    block_function nb_filters init_subsample input).

(* Basic 3 X 3 convolution blocks. *)
Definition basic_block : block_fn_type :=
  fun nb_filters init_subsample input =>
    conv1 <- _bn_relu_conv nb_filters 3 3 init_subsample input ;;
    residual <- _bn_relu_conv nb_filters 3 3 (1, 1) conv1 ;;
    _shortcut input residual.

(* Bottleneck architecture for > 34 layer resnet. *)
Definition bottleneck : block_fn_type :=
  fun nb_filters init_subsample input =>
    conv_1_1 <- _bn_relu_conv nb_filters 1 1 init_subsample input ;;
    conv_3_3 <- _bn_relu_conv nb_filters 3 3 (1, 1) conv_1_1 ;;
    residual <- _bn_relu_conv (nb_filters * 4) 1 1 (1, 1) conv_3_3 ;;
    _shortcut input residual.

(** The loop of [build] over [enumerate(repetitions)]; the loop-carried
    variables are [block] and [nb_filters]. *)
Definition build_stages (block_fn : block_fn_type) (repetitions : list Z)
    (pool1 : tensor) : M (tensor * Z) :=
  for_ (enumerate repetitions) (pool1, 64) (fun '(block, nb_filters) '(i, r) =>
    block' <- _residual_block block_fn nb_filters r (i =? 0) block ;;
    ret (block', nb_filters * 2)).

(** [ResNetBuilder.build]; callers that leave [mode] out pass its default,
    ["categorical"]. *)
Definition build (input_shape : list dim) (num_outputs : Z)
    (block_fn : block_fn_type) (repetitions : list Z) (mode : string) : M Model :=
  if negb (length input_shape =? 3)%nat
  then raise (Exception "Input shape should be a tuple (nb_channels, nb_rows, nb_cols)")
  else
    input <- layer_call (Input input_shape) [] ;;
    conv1 <- _conv_bn_relu 64 7 7 (2, 2) input ;;
    pool1 <- layer_call (MaxPooling2D (3, 3) (2, 2) same) [conv1] ;;
    '(block, _) <- build_stages block_fn repetitions pool1 ;;
    rows <- lift (getitem (_keras_shape block) ROW_AXIS) ;;
    cols <- lift (getitem (_keras_shape block) COL_AXIS) ;;
    pool2 <- layer_call (AveragePooling2D (rows, cols) (1, 1) valid) [block] ;;
    flatten1 <- layer_call Flatten [pool2] ;;
    dense <-
      (if (mode =? "categorical")%string
       then layer_call (Dense num_outputs "he_normal" "softmax") [flatten1]
       else if (mode =? "binary")%string
       then layer_call (Dense 1 "he_normal" "sigmoid") [flatten1]
       else raise (Exception "mode should either be categorical or binary")) ;;
    ret (new_Model input dense).

(** [plot_model_cwd] (common_convnet.utils.utils) and [visual_path] are
    not part of this module: the plotting helper is a parameter that may
    raise and does not touch the layer graph. *)
Variable plot_model_cwd : Model -> string -> string -> result unit.
Variable visual_path : string.

Definition build_resnet_18 (input_shape : list dim) (num_outputs : Z) : M Model :=
  model <- build input_shape num_outputs basic_block [2; 2; 2; 2] "categorical" ;;
  _ <- lift (plot_model_cwd model visual_path "resnet_18.png") ;;
  ret model.

Definition build_resnet_34 (input_shape : list dim) (num_outputs : Z) : M Model :=
  model <- build input_shape num_outputs basic_block [3; 4; 6; 3] "categorical" ;;
  _ <- lift (plot_model_cwd model visual_path "resnet_34.png") ;;
  ret model.

Definition build_resnet_34_binary (input_shape : list dim) : M Model :=
  model <- build input_shape 1 basic_block [3; 4; 6; 3] "binary" ;;
  _ <- lift (plot_model_cwd model visual_path "resnet_34_binary.png") ;;
  ret model.

Definition build_resnet_50 (input_shape : list dim) (num_outputs : Z) : M Model :=
  model <- build input_shape num_outputs bottleneck [3; 4; 6; 3] "categorical" ;;
  _ <- lift (plot_model_cwd model visual_path "resnet_50.png") ;;
  ret model.

Definition build_resnet_101 (input_shape : list dim) (num_outputs : Z) : M Model :=
  model <- build input_shape num_outputs bottleneck [3; 4; 23; 3] "categorical" ;;
  _ <- lift (plot_model_cwd model visual_path "resnet_101.png") ;;
  ret model.

Definition build_resnet_152 (input_shape : list dim) (num_outputs : Z) : M Model :=
  model <- build input_shape num_outputs bottleneck [3; 8; 36; 3] "categorical" ;;
  _ <- lift (plot_model_cwd model visual_path "resnet_152.png") ;;
  ret model.

(** [model.summary()] is a method of the framework that prints the
    layers of the model: it may raise, does not touch the layer graph and
    returns nothing. *)
Variable summary : Model -> result unit.

(** [main] compiles the model it gets from the builder, prints its
    summary and returns nothing ([None]). *)
Definition main : M unit :=
  model <- build_resnet_18 [Some 3; Some 224; Some 224] 1000 ;;
  let model := compile model "categorical_crossentropy" "sgd" in
  _ <- lift (summary model) ;;
  ret tt.

End Resnet.

(** ** Vocabulary of the statements *)

(** A 4D shape written by meaning: batch, channels, rows, columns. *)
Definition shape4 (o : dim_ordering) (n c r w : dim) : shape :=
  match o with
  | th => [n; c; r; w]
  | tf => [n; r; w; c]
  end.

(** An [input_shape] argument written by meaning. *)
Definition shape3 (o : dim_ordering) (c r w : dim) : list dim :=
  match o with
  | th => [c; r; w]
  | tf => [r; w; c]
  end.

(** The three nodes a BN -> relu -> conv chain adds when the graph has
    [at_] nodes. *)
Definition bn_relu_conv_nodes (o : dim_ordering) (at_ : nat) (input : tensor)
    (nb_filter nb_row nb_col : Z) (subsample : Z * Z) (out_shape : shape) : list node :=
  [ mk_node (BatchNormalization 0 (CHANNEL_AXIS o)) [_keras_history input]
      (_keras_shape input);
    mk_node (Activation "relu") [at_] (_keras_shape input);
    mk_node (Convolution2D (Some nb_filter) nb_row nb_col subsample "he_normal" same)
      [S at_] out_shape ].

(** The test of [_shortcut] that decides whether [input] is projected. *)
Definition projection_needed (stride_width stride_height : Z)
    (residual_channels input_channels : dim) : bool :=
  (stride_width >? 1) || (stride_height >? 1)
  || negb (dim_eqb residual_channels input_channels).

(** What [build] relies on in a block function: with a positive filter
    count, on a fully known 4D input with a positive channel count whose
    spatial sizes the strides divide, it returns a tensor with
    [nb_filters * expansion] channels and the divided spatial sizes. *)
Definition well_shaped_block (o : dim_ordering) (block_fn : block_fn_type)
    (expansion : Z) : Prop :=
  forall nb_filters s1 s2 input g n c r w,
    _keras_shape input = shape4 o n (Some c) (Some r) (Some w) ->
    0 < nb_filters -> 0 < c ->
    0 < r -> 0 < w -> 0 < s1 -> 0 < s2 -> (s1 | r) -> (s2 | w) ->
    exists out g',
      block_fn nb_filters (s1, s2) input g = (inr out, g') /\
      _keras_shape out =
        shape4 o n (Some (nb_filters * expansion)) (Some (r / s1)) (Some (w / s2)).

(** Length of a spatial axis after the stem: a stride-2 convolution and a
    stride-2 pooling, both with "same" borders. *)
Definition stem_size (d : Z) : Z := ((d + 2 - 1) / 2 + 2 - 1) / 2.

(** The two parts of the body of [build] after the check of
    [input_shape]: the graph up to [flatten1], and the classifier head.
    [build_split] below shows that [build] is the first followed by the
    second. *)
Definition build_until_flatten (o : dim_ordering) (input_shape : list dim)
    (block_fn : block_fn_type) (repetitions : list Z) : M (tensor * tensor) :=
  input <- call o (Input input_shape) [] ;;
  conv1 <- _conv_bn_relu o 64 7 7 (2, 2) input ;;
  pool1 <- call o (MaxPooling2D (3, 3) (2, 2) same) [conv1] ;;
  '(block, _) <- build_stages block_fn repetitions pool1 ;;
  rows <- lift (getitem (_keras_shape block) (ROW_AXIS o)) ;;
  cols <- lift (getitem (_keras_shape block) (COL_AXIS o)) ;;
  pool2 <- call o (AveragePooling2D (rows, cols) (1, 1) valid) [block] ;;
  flatten1 <- call o Flatten [pool2] ;;
  ret (input, flatten1).

Definition classifier_head (o : dim_ordering) (mode : string) (num_outputs : Z)
    (flatten1 : tensor) : M tensor :=
  if (mode =? "categorical")%string
  then call o (Dense num_outputs "he_normal" "softmax") [flatten1]
  else if (mode =? "binary")%string
  then call o (Dense 1 "he_normal" "sigmoid") [flatten1]
  else raise (Exception "mode should either be categorical or binary").

(** The five nodes of the stem, added when the graph has [at_] nodes. *)
Definition stem_nodes (o : dim_ordering) (at_ : nat) (input_shape : list dim)
    (conv_shape pool_shape : shape) : list node :=
  [ mk_node (Input input_shape) [] (None :: input_shape);
    mk_node (Convolution2D (Some 64) 7 7 (2, 2) "he_normal" same) [at_] conv_shape;
    mk_node (BatchNormalization 0 (CHANNEL_AXIS o)) [S at_] conv_shape;
    mk_node (Activation "relu") [S (S at_)] conv_shape;
    mk_node (MaxPooling2D (3, 3) (2, 2) same) [S (S (S at_))] pool_shape ].

(** The three nodes that follow the last stage, added when the graph has
    [at_] nodes: pooling over [rows] x [cols], flatten, dense. *)
Definition head_nodes (at_ : nat) (block : tensor) (rows cols : dim)
    (pool_shape flat_shape : shape) (dense : layer) (dense_shape : shape) : list node :=
  [ mk_node (AveragePooling2D (rows, cols) (1, 1) valid) [_keras_history block]
      pool_shape;
    mk_node Flatten [at_] flat_shape;
    mk_node dense [S at_] dense_shape ].

(** The calls [block_fn(nb_filters=f, init_subsample=s)] of stage [i], as
    the architecture describes them: [r] blocks with [64 * 2^i] filters,
    of which only the first block of a stage other than the first strides
    by 2.  [stage_calls_eq] below compares them with the loops of the
    code. *)
Definition stage_calls (i : nat) (r : Z) : list (Z * (Z * Z)) :=
  match Z.to_nat r with
  | O => []
  | S k =>
      (64 * 2 ^ Z.of_nat i, match i with O => (1, 1) | _ => (2, 2) end)
      :: repeat (64 * 2 ^ Z.of_nat i, (1, 1)) k
  end.

Fixpoint network_calls (i : nat) (repetitions : list Z) : list (list (Z * (Z * Z))) :=
  match repetitions with
  | [] => []
  | r :: rest => stage_calls i r :: network_calls (S i) rest
  end.

(** Calling the block function on each argument pair in turn. *)
Definition run_calls (block_fn : block_fn_type) (calls : list (Z * (Z * Z)))
    (x : tensor) : M tensor :=
  for_ calls x (fun x '(nb_filters, init_subsample) =>
    block_fn nb_filters init_subsample x).

(** The stacked residual stages, as the architecture describes them: one
    stage per entry of [repetitions], in the order of the list, stage [i]
    being the calls of [stage_calls i] run on the output of the stage
    before it.  [stacked_stages_eq] below compares them with the loop of
    [build]. *)
Fixpoint stacked_stages (block_fn : block_fn_type) (i : nat)
    (repetitions : list Z) (x : tensor) : M tensor :=
  match repetitions with
  | [] => ret x
  | r :: rest =>
      y <- run_calls block_fn (stage_calls i r) x ;;
      stacked_stages block_fn (S i) rest y
  end.

(** The residual path of a basic block: two 3x3 chains, the first of
    which carries the stride. *)
Definition basic_block_path (o : dim_ordering) (at_ : nat) (input : tensor)
    (nb_filters : Z) (init_subsample : Z * Z) (s1 s2 : shape) : list node :=
  bn_relu_conv_nodes o at_ input nb_filters 3 3 init_subsample s1 ++
  bn_relu_conv_nodes o (at_ + 3) (mk_tensor (at_ + 2) s1) nb_filters 3 3 (1, 1) s2.

(** The residual path of a bottleneck block: a 1x1 chain that carries the
    stride, a 3x3 chain, and a 1x1 chain with four times the filters. *)
Definition bottleneck_path (o : dim_ordering) (at_ : nat) (input : tensor)
    (nb_filters : Z) (init_subsample : Z * Z) (s1 s2 s3 : shape) : list node :=
  bn_relu_conv_nodes o at_ input nb_filters 1 1 init_subsample s1 ++
  bn_relu_conv_nodes o (at_ + 3) (mk_tensor (at_ + 2) s1) nb_filters 3 3 (1, 1) s2 ++
  bn_relu_conv_nodes o (at_ + 6) (mk_tensor (at_ + 5) s2) (nb_filters * 4) 1 1
    (1, 1) s3.

(** The nodes that add [input] to [residual] when the graph has [at_]
    nodes: the sum alone, or a projection of [input] followed by the sum. *)
Definition sum_nodes (at_ : nat) (input residual : tensor)
    (projection : option layer) : list node :=
  match projection with
  | None =>
      [ mk_node (Merge "sum") [_keras_history input; _keras_history residual]
          (_keras_shape residual) ]
  | Some conv =>
      [ mk_node conv [_keras_history input] (_keras_shape residual);
        mk_node (Merge "sum") [at_; _keras_history residual]
          (_keras_shape residual) ]
  end.

Definition is_projection_1x1 (l : layer) : Prop :=
  exists nb_filter subsample,
    l = Convolution2D nb_filter 1 1 subsample "he_normal" valid.

(** A variant constructor delegates to [build]: it builds the same graph,
    raises what [build] raises, and otherwise hands the model to the
    plotting helper under the given file name before returning it. *)
Definition delegates (plot_model_cwd : Model -> string -> string -> result unit)
    (visual_path file : string) (variant build_run : result Model * graph) : Prop :=
  snd variant = snd build_run /\
  fst variant =
    rbind (fst build_run) (fun model =>
    rbind (plot_model_cwd model visual_path file) (fun _ => inr model)).


(** The exceptions the module raises itself, as opposed to those of the
    Python runtime and of the framework. *)
Definition is_own (e : exn) : bool :=
  match e with
  | Exception _ => true
  | _ => false
  end.

(** Computations that raise no exception of the module's own. *)
Definition framework_only {A : Type} (m : M A) : Prop :=
  forall g e g', m g = (inl e, g') -> is_own e = false.

(** ** Vocabulary of the further properties *)

(** A tensor belongs to a graph when the node that produced it is there
    and has the tensor's shape. *)
Definition tensor_in (g : graph) (t : tensor) : Prop :=
  exists nd,
    nth_error g (_keras_history t) = Some nd /\
    output_shape nd = _keras_shape t.

(** A graph is in creation order when every node consumes outputs of
    earlier nodes only; such a graph has no cycle. *)
Definition wf_graph (g : graph) : Prop :=
  forall i nd,
    nth_error g i = Some nd -> Forall (fun j => (j < i)%nat) (inbound nd).

(** A computation that uses the tensors [ts] keeps the graph in creation
    order, only adds nodes at its end, and returns tensors of the graph,
    whether it returns or raises. *)
Definition sound {A : Type} (ts : list tensor) (m : M A)
    (outs : A -> list tensor) : Prop :=
  forall g r g',
    wf_graph g -> Forall (tensor_in g) ts -> m g = (r, g') ->
    (exists new, g' = g ++ new) /\ wf_graph g' /\
    forall a, r = inr a -> Forall (tensor_in g') (outs a).

(** Kinds of nodes: the convolutions of the main path are padded
    ("same"), the projections of the shortcuts are not ("valid"). *)
Definition is_main_path_conv (nd : node) : bool :=
  match node_layer nd with
  | Convolution2D _ _ _ _ _ same => true
  | _ => false
  end.

Definition is_projection (nd : node) : bool :=
  match node_layer nd with
  | Convolution2D _ _ _ _ _ valid => true
  | _ => false
  end.

Definition is_dense (nd : node) : bool :=
  match node_layer nd with
  | Dense _ _ _ => true
  | _ => false
  end.

Definition is_sum (nd : node) : bool :=
  match node_layer nd with
  | Merge _ => true
  | _ => false
  end.

Definition count (p : node -> bool) (g : graph) : nat := length (filter p g).

(** The layers that give a ResNet its number: the convolutions of the
    main path and the dense layer. *)
Definition weighted_layers (g : graph) : nat :=
  (count is_main_path_conv g + count is_dense g)%nat.

(** The number of blocks a repetitions list asks for. *)
Definition total_blocks (repetitions : list Z) : nat :=
  fold_right (fun r acc => (Z.to_nat r + acc)%nat) 0%nat repetitions.

(** What a block that strides by 2 makes of a spatial size, the size
    after [k] such blocks, and the sizes on which [k] such blocks in a
    row can be built: 1 or even at every step. *)
Definition half_up (s : Z) : Z := (s + 2 - 1) / 2.

Fixpoint halvings (k : nat) (s : Z) : Z :=
  match k with
  | O => s
  | S k' => halvings k' (half_up s)
  end.

Fixpoint halvable (k : nat) (s : Z) : bool :=
  match k with
  | O => true
  | S k' => ((s =? 1) || Z.even s) && halvable k' (half_up s)
  end.

(** * Properties *)

(** ** The monad and the framework's layers *)

Lemma bind_inr {A B : Type} (m : M A) (k : A -> M B) g b g' :
  bind m k g = (inr b, g') ->
  exists a g1, m g = (inr a, g1) /\ k a g1 = (inr b, g').
Proof.
  unfold bind. destruct (m g) as [[e | a] g1]; intros H.
  - discriminate.
  - now exists a, g1.
Qed.

Lemma bind_step {A B : Type} (m : M A) (k : A -> M B) g a g1 :
  m g = (inr a, g1) -> bind m k g = k a g1.
Proof. unfold bind. now intros ->. Qed.

Lemma bind_fail {A B : Type} (m : M A) (k : A -> M B) g e g1 :
  m g = (inl e, g1) -> bind m k g = (inl e, g1).
Proof. unfold bind. now intros ->. Qed.

Lemma lift_inr {A : Type} (r : result A) g a g' :
  lift r g = (inr a, g') -> r = inr a /\ g' = g.
Proof. unfold lift. intros H. inversion H. auto. Qed.

Lemma rbind_inr {A B : Type} (r : result A) (k : A -> result B) b :
  rbind r k = inr b -> exists a, r = inr a /\ k a = inr b.
Proof. destruct r as [e | a]; simpl; intros H; [discriminate | now exists a]. Qed.

Lemma call_inr o l ins g t g' :
  call o l ins g = (inr t, g') ->
  exists s,
    get_output_shape_for o l (map _keras_shape ins) = inr s /\
    t = mk_tensor (length g) s /\
    g' = g ++ [mk_node l (map _keras_history ins) s].
Proof.
  unfold call.
  destruct (get_output_shape_for o l (map _keras_shape ins)) as [e | s]; intros H.
  - discriminate.
  - inversion H. now exists s.
Qed.

Lemma call_ok o l ins g s :
  get_output_shape_for o l (map _keras_shape ins) = inr s ->
  call o l ins g =
    (inr (mk_tensor (length g) s), g ++ [mk_node l (map _keras_history ins) s]).
Proof. unfold call. now intros ->. Qed.

Lemma weights_inr who extents u :
  weights who extents = inr u -> Forall (fun z => 0 < z) extents.
Proof.
  unfold weights. destruct (forallb _ extents) eqn:E; [| discriminate].
  intros _. apply Forall_forall. intros z Hz.
  rewrite forallb_forall in E. apply Z.ltb_lt. now apply E.
Qed.

Lemma weights_ok who extents :
  Forall (fun z => 0 < z) extents -> weights who extents = inr tt.
Proof.
  intros H. unfold weights.
  replace (forallb (fun z => 0 <? z) extents) with true; [reflexivity |].
  symmetry. apply forallb_forall. intros z Hz. apply Z.ltb_lt.
  rewrite Forall_forall in H. now apply H.
Qed.

Lemma pool_extent_inr who d z :
  pool_extent who d = inr z -> d = Some z /\ 0 < z < 2 ^ 63.
Proof.
  destruct d as [x |]; [| discriminate]. unfold pool_extent.
  destruct (0 <? x) eqn:E1; [| discriminate].
  destruct (x <? 2 ^ 63) eqn:E2; [| discriminate].
  cbn [andb]. intros [= <-]. apply Z.ltb_lt in E1. apply Z.ltb_lt in E2. auto.
Qed.

Lemma pool_extent_ok who z :
  0 < z < 2 ^ 63 -> pool_extent who (Some z) = inr z.
Proof.
  intros [H1 H2]. unfold pool_extent.
  apply Z.ltb_lt in H1. apply Z.ltb_lt in H2. now rewrite H1, H2.
Qed.

(** Inversion of successful results of the error monad. *)
Ltac rinv :=
  repeat match goal with
  | H : rbind _ _ = inr _ |- _ =>
      apply rbind_inr in H; destruct H as [? [? H]]
  | H : inr _ = inr _ |- _ => inversion H; clear H; subst
  | H : inl _ = inr _ |- _ => discriminate H
  | H : defined ?d = inr _ |- _ =>
      destruct d; simpl in H; [inversion H; clear H; subst | discriminate H]
  | H : (if ?b then inl _ else _) = inr _ |- _ =>
      destruct b eqn:?; [discriminate H |]
  | H : weights _ _ = inr _ |- _ => apply weights_inr in H
  | H : pool_extent _ _ = inr _ |- _ =>
      apply pool_extent_inr in H; destruct H as [? ?]; subst
  end.

Lemma floordiv_ok a b : b <> 0 -> floordiv a b = inr (a / b).
Proof. unfold floordiv. intros H. apply Z.eqb_neq in H. now rewrite H. Qed.

Lemma dim_eqb_eq a b : dim_eqb a b = true -> a = b.
Proof.
  destruct a, b; simpl; try discriminate; auto.
  intros H. apply Z.eqb_eq in H. now subst.
Qed.

Lemma dim_eqb_refl a : dim_eqb a a = true.
Proof. destruct a; simpl; auto. apply Z.eqb_refl. Qed.

Lemma shape_eqb_eq s : forall t, shape_eqb s t = true -> s = t.
Proof.
  induction s as [| a s IH]; intros [| b t]; simpl; try discriminate; auto.
  intros H. apply andb_true_iff in H. destruct H as [H1 H2].
  apply dim_eqb_eq in H1. apply IH in H2. now subst.
Qed.

Lemma shape_eqb_refl s : shape_eqb s s = true.
Proof. induction s; simpl; auto. now rewrite dim_eqb_refl. Qed.

Section Shapes.

Variable o : dim_ordering.

Lemma getitem_row n c r w : getitem (shape4 o n c r w) (ROW_AXIS o) = inr r.
Proof. now destruct o. Qed.

Lemma getitem_col n c r w : getitem (shape4 o n c r w) (COL_AXIS o) = inr w.
Proof. now destruct o. Qed.

Lemma getitem_channel n c r w : getitem (shape4 o n c r w) (CHANNEL_AXIS o) = inr c.
Proof. now destruct o. Qed.

(** The channel entry of a convolution's output is its filter count. *)
Lemma conv_shape_channel f kr kc sub init b s out :
  get_output_shape_for o (Convolution2D f kr kc sub init b) [s] = inr out ->
  exists k, f = Some k /\ getitem out (CHANNEL_AXIS o) = inr (Some k).
Proof.
  unfold get_output_shape_for, window_output_shape.
  destruct o; destruct s as [| n [| a [| b' [| c [| ? ?]]]]]; try discriminate;
    intros H; rinv; eauto.
Qed.

Lemma bn_shape m axis s out :
  get_output_shape_for o (BatchNormalization m axis) [s] = inr out -> out = s.
Proof.
  unfold get_output_shape_for. intros H. now rinv.
Qed.

Lemma merge_shape md s1 s2 out :
  get_output_shape_for o (Merge md) [s1; s2] = inr out -> out = s1 /\ s2 = s1.
Proof.
  unfold get_output_shape_for, forallb.
  destruct (shape_eqb s1 s2) eqn:E; simpl; intros H; inversion H.
  apply shape_eqb_eq in E. now subst.
Qed.

End Shapes.

Lemma ret_inr {A : Type} (a : A) g b g' :
  ret a g = (inr b, g') -> b = a /\ g' = g.
Proof. unfold ret. intros H. inversion H. auto. Qed.

Lemma length_snoc {A : Type} (l : list A) (x : A) : length (l ++ [x]) = S (length l).
Proof. rewrite length_app. simpl. apply Nat.add_1_r. Qed.

(** Inversion of successful runs of the graph monad. *)
Ltac minv :=
  repeat match goal with
  | H : bind _ _ _ = (inr _, _) |- _ =>
      apply bind_inr in H; destruct H as [? [? [? H]]]; cbv beta in H
  | H : call _ _ _ _ = (inr _, _) |- _ =>
      apply call_inr in H; destruct H as [? [H [? ?]]]; subst
  | H : merge _ _ _ _ = (inr _, _) |- _ => unfold merge in H
  | H : lift _ _ = (inr _, _) |- _ =>
      apply lift_inr in H; destruct H as [H ?]; subst
  | H : ret _ _ = (inr _, _) |- _ =>
      apply ret_inr in H; destruct H as [? ?]; subst
  end.

Ltac norm_graph :=
  repeat rewrite length_snoc; repeat rewrite <- app_assoc;
  cbn [app map _keras_history _keras_shape].

Section Blocks.

Variable o : dim_ordering.

Lemma activation_shape a s out :
  get_output_shape_for o (Activation a) [s] = inr out -> out = s.
Proof. simpl. intros H. now inversion H. Qed.

(** What a BN -> relu -> conv chain adds to the graph when it returns. *)
Lemma _bn_relu_conv_inv f kr kc sub input g out g' :
  _bn_relu_conv o f kr kc sub input g = (inr out, g') ->
  exists out_shape,
    g' = g ++ bn_relu_conv_nodes o (length g) input f kr kc sub out_shape /\
    out = mk_tensor (S (S (length g))) out_shape /\
    getitem out_shape (CHANNEL_AXIS o) = inr (Some f).
Proof.
  unfold _bn_relu_conv. intros H. minv. cbn [map _keras_shape] in *.
  match goal with
  | H : get_output_shape_for _ (BatchNormalization _ _) _ = _ |- _ =>
      apply bn_shape in H; subst
  end.
  match goal with
  | H : get_output_shape_for _ (Activation _) _ = _ |- _ =>
      apply activation_shape in H; subst
  end.
  match goal with
  | H : get_output_shape_for _ (Convolution2D _ _ _ _ _ _) _ = inr ?s |- _ =>
      exists s; apply conv_shape_channel in H; destruct H as [k [Hk Hc]];
      inversion Hk; subst
  end.
  norm_graph. unfold bn_relu_conv_nodes. auto.
Qed.

(** What [_shortcut] does when it returns: the strides are the floor
    ratios of the spatial sizes, and the projection is decided by
    [projection_needed]. *)
Lemma _shortcut_inv input residual g out g' :
  _shortcut o input residual g = (inr out, g') ->
  exists in_r res_r in_c res_c res_ch in_ch,
    getitem (_keras_shape input) (ROW_AXIS o) = inr (Some in_r) /\
    getitem (_keras_shape residual) (ROW_AXIS o) = inr (Some res_r) /\
    getitem (_keras_shape input) (COL_AXIS o) = inr (Some in_c) /\
    getitem (_keras_shape residual) (COL_AXIS o) = inr (Some res_c) /\
    getitem (_keras_shape residual) (CHANNEL_AXIS o) = inr res_ch /\
    getitem (_keras_shape input) (CHANNEL_AXIS o) = inr in_ch /\
    res_r <> 0 /\ res_c <> 0 /\
    if projection_needed (in_r / res_r) (in_c / res_c) res_ch in_ch
    then
      g' = g ++ [ mk_node (Convolution2D res_ch 1 1 (in_r / res_r, in_c / res_c)
                             "he_normal" valid)
                    [_keras_history input] (_keras_shape residual);
                  mk_node (Merge "sum") [length g; _keras_history residual]
                    (_keras_shape residual) ] /\
      out = mk_tensor (S (length g)) (_keras_shape residual)
    else
      g' = g ++ [ mk_node (Merge "sum")
                    [_keras_history input; _keras_history residual]
                    (_keras_shape residual) ] /\
      out = mk_tensor (length g) (_keras_shape residual) /\
      _keras_shape input = _keras_shape residual.
Proof.
  unfold _shortcut. intros H. minv.
  repeat match goal with
  | H : dim_floordiv ?a ?b = inr _ |- _ =>
      destruct a as [?|]; [| discriminate H];
      destruct b as [?|]; [| discriminate H];
      unfold dim_floordiv, floordiv in H;
      let E := fresh "E" in
      destruct (_ =? 0) eqn:E in H; [discriminate H |];
      apply Z.eqb_neq in E; inversion H; clear H; subst
  end.
  do 6 eexists. do 8 (split; [eassumption |]).
  unfold projection_needed.
  destruct (_ || _ || _); minv; cbn [map _keras_shape _keras_history] in *;
    match goal with
    | H : get_output_shape_for _ (Merge _) _ = _ |- _ =>
        apply merge_shape in H; destruct H as [? Hs]; subst
    end; norm_graph.
  - auto.
  - rewrite Hs. auto.
Qed.

End Blocks.

(** ** Shapes on which the blocks return *)

Lemma ceil_div_exact r s : 0 < s -> (s | r) -> (r + s - 1) / s = r / s.
Proof.
  intros Hs [q ->].
  replace (q * s + s - 1) with (q * s + (s - 1)) by lia.
  rewrite Z.div_add_l by lia. rewrite Z.div_small by lia.
  rewrite Z.div_mul by lia. lia.
Qed.

Lemma bind_lift {A B : Type} (a : A) (k : A -> M B) g :
  bind (lift (inr a)) k g = k a g.
Proof. reflexivity. Qed.

Section BlocksReturn.

Variable o : dim_ordering.

Lemma conv_same_shape4 f kr kc s1 s2 init n c r w :
  s1 <> 0 -> s2 <> 0 -> 0 < f -> 0 < c -> 0 < kr -> 0 < kc ->
  get_output_shape_for o (Convolution2D (Some f) kr kc (s1, s2) init same)
    [shape4 o n (Some c) (Some r) (Some w)] =
  inr (shape4 o n (Some f) (Some ((r + s1 - 1) / s1)) (Some ((w + s2 - 1) / s2))).
Proof.
  intros H1 H2 Hf Hc Hkr Hkc.
  destruct o; cbn [get_output_shape_for window_output_shape shape4 rbind defined
                   fst snd conv_output_length];
    rewrite weights_ok by (repeat constructor; assumption); cbn [rbind];
    rewrite !floordiv_ok by assumption; reflexivity.
Qed.

Lemma conv_valid_1x1_shape4 f s1 s2 init n c r w :
  s1 <> 0 -> s2 <> 0 -> 0 < f -> 0 < c ->
  get_output_shape_for o (Convolution2D (Some f) 1 1 (s1, s2) init valid)
    [shape4 o n (Some c) (Some r) (Some w)] =
  inr (shape4 o n (Some f) (Some ((r + s1 - 1) / s1)) (Some ((w + s2 - 1) / s2))).
Proof.
  intros H1 H2 Hf Hc.
  destruct o; cbn [get_output_shape_for window_output_shape shape4 rbind defined
                   fst snd conv_output_length];
    rewrite weights_ok by (repeat constructor; assumption || lia); cbn [rbind];
    rewrite !floordiv_ok by assumption; cbn [rbind];
    replace (r - 1 + 1) with r by lia; replace (w - 1 + 1) with w by lia;
    reflexivity.
Qed.

Lemma bn_shape4 m n c r w :
  0 <= c ->
  get_output_shape_for o (BatchNormalization m (CHANNEL_AXIS o))
    [shape4 o n (Some c) r w] = inr (shape4 o n (Some c) r w).
Proof.
  intros Hc. apply Z.ltb_ge in Hc.
  destruct o; cbn [get_output_shape_for shape4 CHANNEL_AXIS getitem nth_error
                   rbind defined]; now rewrite Hc.
Qed.

Lemma max_pool_shape4 p1 p2 s1 s2 n c r w :
  s1 <> 0 -> s2 <> 0 ->
  get_output_shape_for o (MaxPooling2D (p1, p2) (s1, s2) same)
    [shape4 o n c (Some r) (Some w)] =
  inr (shape4 o n c (Some ((r + s1 - 1) / s1)) (Some ((w + s2 - 1) / s2))).
Proof.
  intros H1 H2.
  destruct o; cbn [get_output_shape_for window_output_shape shape4 rbind
                   fst snd conv_output_length];
    rewrite !floordiv_ok by assumption; reflexivity.
Qed.

(** Pooling over the whole spatial extent leaves one row and one column. *)
Lemma global_pool_shape4 n c r w :
  0 < r < 2 ^ 63 -> 0 < w < 2 ^ 63 ->
  get_output_shape_for o (AveragePooling2D (Some r, Some w) (1, 1) valid)
    [shape4 o n c (Some r) (Some w)] =
  inr (shape4 o n c (Some 1) (Some 1)).
Proof.
  intros Hr Hw.
  destruct o; cbn [get_output_shape_for window_output_shape shape4 rbind
                   fst snd conv_output_length];
    rewrite !pool_extent_ok by assumption; cbn [rbind];
    rewrite !floordiv_ok by lia; cbn [rbind];
    replace (r - r + 1 + 1 - 1) with 1 by lia;
    replace (w - w + 1 + 1 - 1) with 1 by lia; reflexivity.
Qed.

Lemma _bn_relu_conv_ok f kr kc s1 s2 input g n c r w :
  _keras_shape input = shape4 o n (Some c) (Some r) (Some w) ->
  s1 <> 0 -> s2 <> 0 -> 0 < f -> 0 < c -> 0 < kr -> 0 < kc ->
  exists out g',
    _bn_relu_conv o f kr kc (s1, s2) input g = (inr out, g') /\
    _keras_shape out =
      shape4 o n (Some f) (Some ((r + s1 - 1) / s1)) (Some ((w + s2 - 1) / s2)).
Proof.
  intros Hin H1 H2 Hf Hc Hkr Hkc. unfold _bn_relu_conv.
  erewrite bind_step
    by (apply call_ok; cbn [map]; rewrite Hin; apply bn_shape4; lia).
  erewrite bind_step by (apply call_ok; reflexivity).
  do 2 eexists. split.
  - apply call_ok. cbn [map _keras_shape]. now apply conv_same_shape4.
  - reflexivity.
Qed.

Lemma _shortcut_ok input residual g n c r w c' r' w' sr sc :
  _keras_shape input = shape4 o n (Some c) (Some r) (Some w) ->
  _keras_shape residual = shape4 o n (Some c') (Some r') (Some w') ->
  r = sr * r' -> w = sc * w' -> 0 < sr -> 0 < sc -> 0 < r' -> 0 < w' ->
  0 < c -> 0 < c' ->
  exists out g',
    _shortcut o input residual g = (inr out, g') /\
    _keras_shape out = _keras_shape residual.
Proof.
  intros Hin Hres Hr Hw Hsr Hsc Hr' Hw' Hc Hc'. unfold _shortcut.
  rewrite Hin, Hres.
  rewrite !getitem_row, !getitem_col, !getitem_channel.
  repeat (first [rewrite bind_lift | rewrite floordiv_ok by lia];
          cbv beta; cbn [dim_floordiv]).
  assert (Esr : r / r' = sr) by (subst r; apply Z.div_mul; lia).
  assert (Esc : w / w' = sc) by (subst w; apply Z.div_mul; lia).
  rewrite Esr, Esc.
  assert (Dr : (sr | r)) by (exists r'; lia).
  assert (Dw : (sc | w)) by (exists w'; lia).
  destruct ((sr >? 1) || (sc >? 1) || negb (dim_eqb (Some c') (Some c))) eqn:E.
  - erewrite bind_step.
    2:{ apply call_ok. cbn [map]. rewrite Hin.
        apply conv_valid_1x1_shape4; lia. }
    unfold merge. do 2 eexists. split.
    + apply call_ok. cbn [map _keras_shape]. rewrite Hres.
      rewrite !ceil_div_exact by assumption.
      rewrite Hr, Hw.
      replace (sr * r' / sr) with r' by (rewrite Z.mul_comm, Z.div_mul; lia).
      replace (sc * w' / sc) with w' by (rewrite Z.mul_comm, Z.div_mul; lia).
      cbn [get_output_shape_for forallb]. rewrite shape_eqb_refl. reflexivity.
    + reflexivity.
  - apply orb_false_iff in E. destruct E as [E Ec].
    apply orb_false_iff in E. destruct E as [E1 E2].
    apply negb_false_iff in Ec. apply dim_eqb_eq in Ec. inversion Ec; subst c'.
    assert (sr = 1) by lia. assert (sc = 1) by lia. subst sr sc.
    assert (r' = r) by lia. assert (w' = w) by lia. subst r' w'.
    unfold bind at 1, ret at 1. unfold merge. do 2 eexists. split.
    + apply call_ok. cbn [map]. rewrite Hin, Hres.
      cbn [get_output_shape_for forallb]. rewrite shape_eqb_refl. reflexivity.
    + cbn [_keras_shape]. reflexivity.
Qed.

End BlocksReturn.

Lemma ceil_div_1 x : (x + 1 - 1) / 1 = x.
Proof. rewrite Z.div_1_r. lia. Qed.

Lemma div_exact_pos r s : 0 < s -> 0 < r -> (s | r) -> r = s * (r / s) /\ 0 < r / s.
Proof.
  intros Hs Hr [q ->]. rewrite Z.div_mul by lia. split; [lia | nia].
Qed.

Section BlockFunctions.

Variable o : dim_ordering.

Lemma basic_block_well_shaped : well_shaped_block o (basic_block o) 1.
Proof.
  intros f s1 s2 input g n c r w Hin Hf Hc Hr Hw Hs1 Hs2 D1 D2.
  unfold basic_block.
  destruct (_bn_relu_conv_ok o f 3 3 s1 s2 input g n c r w Hin)
    as (conv1 & g1 & E1 & S1); try lia.
  rewrite (bind_step _ _ _ _ _ E1).
  rewrite !ceil_div_exact in S1 by assumption.
  destruct (_bn_relu_conv_ok o f 3 3 1 1 conv1 g1 _ _ _ _ S1)
    as (residual & g2 & E2 & S2); try lia.
  rewrite (bind_step _ _ _ _ _ E2). rewrite !ceil_div_1 in S2.
  destruct (div_exact_pos r s1 Hs1 Hr D1) as [Er Pr].
  destruct (div_exact_pos w s2 Hs2 Hw D2) as [Ew Pw].
  destruct (_shortcut_ok o input residual g2 _ _ _ _ _ _ _ s1 s2 Hin S2)
    as (out & g3 & E3 & S3); try lia.
  exists out, g3. split; [exact E3 |].
  rewrite S3, S2. now rewrite Z.mul_1_r.
Qed.

Lemma bottleneck_well_shaped : well_shaped_block o (bottleneck o) 4.
Proof.
  intros f s1 s2 input g n c r w Hin Hf Hc Hr Hw Hs1 Hs2 D1 D2.
  unfold bottleneck.
  destruct (_bn_relu_conv_ok o f 1 1 s1 s2 input g n c r w Hin)
    as (conv_1_1 & g1 & E1 & S1); try lia.
  rewrite (bind_step _ _ _ _ _ E1).
  rewrite !ceil_div_exact in S1 by assumption.
  destruct (_bn_relu_conv_ok o f 3 3 1 1 conv_1_1 g1 _ _ _ _ S1)
    as (conv_3_3 & g2 & E2 & S2); try lia.
  rewrite (bind_step _ _ _ _ _ E2). rewrite !ceil_div_1 in S2.
  destruct (_bn_relu_conv_ok o (f * 4) 1 1 1 1 conv_3_3 g2 _ _ _ _ S2)
    as (residual & g3 & E3 & S3); try lia.
  rewrite (bind_step _ _ _ _ _ E3). rewrite !ceil_div_1 in S3.
  destruct (div_exact_pos r s1 Hs1 Hr D1) as [Er Pr].
  destruct (div_exact_pos w s2 Hs2 Hw D2) as [Ew Pw].
  destruct (_shortcut_ok o input residual g3 _ _ _ _ _ _ _ s1 s2 Hin S3)
    as (out & g4 & E4 & S4); try lia.
  exists out, g4. split; [exact E4 |].
  now rewrite S4, S3.
Qed.

End BlockFunctions.

(** ** The stages return on well-shaped blocks *)

Section StagesReturn.

Variable o : dim_ordering.
Variable block_fn : block_fn_type.
Variable expansion : Z.
Hypothesis expansion_pos : 0 < expansion.
Hypothesis block_ok : well_shaped_block o block_fn expansion.

(** Blocks called with unit strides keep the spatial sizes. *)
Lemma unit_stride_blocks_ok nb_filters is_first_layer n r w :
  0 < nb_filters -> 0 < r -> 0 < w ->
  forall js : list Z,
    (forall j, In j js -> (j =? 0) && negb is_first_layer = false) ->
    forall input g c,
      _keras_shape input = shape4 o n (Some c) (Some r) (Some w) -> 0 < c ->
      exists out g' c',
        for_ js input (fun input i =>
          let init_subsample :=
            if (i =? 0) && negb is_first_layer then (2, 2) else (1, 1) in
          block_fn nb_filters init_subsample input) g = (inr out, g') /\
        _keras_shape out = shape4 o n (Some c') (Some r) (Some w) /\ 0 < c'.
Proof.
  intros Hf Hr Hw. induction js as [| j js IH]; intros Hjs input g c Hin Hc.
  - exists input, g, c. now repeat split.
  - cbn [for_]. cbv zeta. rewrite (Hjs j) by now left.
    destruct (block_ok nb_filters 1 1 input g n c r w Hin)
      as (out & g1 & E & Sh); try lia; try apply Z.divide_1_l.
    rewrite (bind_step _ _ _ _ _ E). rewrite !Z.div_1_r in Sh.
    apply (IH (fun j' Hj' => Hjs j' (or_intror Hj')) out g1 _ Sh). nia.
Qed.

Lemma _residual_block_ok nb_filters repetitions is_first_layer input g n c r w :
  0 < nb_filters ->
  _keras_shape input = shape4 o n (Some c) (Some r) (Some w) ->
  0 < c -> 0 < r -> 0 < w ->
  (is_first_layer = false -> (2 | r) /\ (2 | w)) ->
  exists out g' c' r' w',
    _residual_block block_fn nb_filters repetitions is_first_layer input g
      = (inr out, g') /\
    _keras_shape out = shape4 o n (Some c') (Some r') (Some w') /\
    0 < c' /\
    (r' = r \/ is_first_layer = false /\ r' = r / 2) /\
    (w' = w \/ is_first_layer = false /\ w' = w / 2).
Proof.
  intros Hf Hin Hc Hr Hw Heven. unfold _residual_block, range.
  destruct (Z.to_nat repetitions) as [| k].
  - exists input, g, c, r, w. cbn. auto 10.
  - cbn [seq map for_]. cbv zeta. change (Z.of_nat 0 =? 0) with true.
    assert (Hrest : forall j, In j (map Z.of_nat (seq 1 k)) ->
                              (j =? 0) && negb is_first_layer = false).
    { intros j Hj. apply in_map_iff in Hj. destruct Hj as (i & <- & Hi).
      apply in_seq in Hi. replace (Z.of_nat i =? 0) with false; [reflexivity |].
      symmetry. apply Z.eqb_neq. lia. }
    destruct is_first_layer; cbn [negb andb].
    + destruct (block_ok nb_filters 1 1 input g n c r w Hin)
        as (out & g1 & E & Sh); try lia; try apply Z.divide_1_l.
      rewrite (bind_step _ _ _ _ _ E). rewrite !Z.div_1_r in Sh.
      destruct (unit_stride_blocks_ok nb_filters true n r w Hf Hr Hw _ Hrest
                  out g1 _ Sh) as (out' & g' & c' & E' & Sh' & Hc'); [nia |].
      exists out', g', c', r, w. auto 10.
    + destruct (Heven eq_refl) as [D1 D2].
      destruct (block_ok nb_filters 2 2 input g n c r w Hin)
        as (out & g1 & E & Sh); try lia; try assumption.
      rewrite (bind_step _ _ _ _ _ E).
      destruct (div_exact_pos r 2 ltac:(lia) Hr D1) as [_ Pr].
      destruct (div_exact_pos w 2 ltac:(lia) Hw D2) as [_ Pw].
      destruct (unit_stride_blocks_ok nb_filters false n _ _ Hf Pr Pw _ Hrest
                  out g1 _ Sh) as (out' & g' & c' & E' & Sh' & Hc'); [nia |].
      exists out', g', c', (r / 2), (w / 2). auto 10.
Qed.

Lemma stage_step nb_filters rep is_first_layer block g out g1 :
  _residual_block block_fn nb_filters rep is_first_layer block g = (inr out, g1) ->
  (block' <- _residual_block block_fn nb_filters rep is_first_layer block ;;
   ret (block', nb_filters * 2)) g = (inr (out, nb_filters * 2), g1).
Proof. intros E. now rewrite (bind_step _ _ _ _ _ E). Qed.

Lemma pow2_step k d : 0 < d -> (2 ^ Z.of_nat (S k) | d) ->
  (2 | d) /\ (2 ^ Z.of_nat k | d) /\ (2 ^ Z.of_nat k | d / 2) /\ 0 < d / 2.
Proof.
  intros Hd [q Hq].
  rewrite Nat2Z.inj_succ, Z.pow_succ_r in Hq by lia.
  assert (Hp : 0 < 2 ^ Z.of_nat k) by (apply Z.pow_pos_nonneg; lia).
  assert (E : d / 2 = q * 2 ^ Z.of_nat k).
  { subst d. replace (q * (2 * 2 ^ Z.of_nat k)) with (q * 2 ^ Z.of_nat k * 2) by lia.
    apply Z.div_mul. lia. }
  repeat split.
  - exists (q * 2 ^ Z.of_nat k). lia.
  - exists (q * 2). lia.
  - exists q. exact E.
  - rewrite E. nia.
Qed.

(** The stages after the first: each may halve the spatial sizes once. *)
Lemma later_stages_ok n (repetitions : list Z) :
  forall (i0 : nat) block nb_filters g c r w,
    (1 <= i0)%nat -> 0 < nb_filters ->
    _keras_shape block = shape4 o n (Some c) (Some r) (Some w) ->
    0 < c -> 0 < r -> 0 < w ->
    (2 ^ Z.of_nat (length repetitions) | r) ->
    (2 ^ Z.of_nat (length repetitions) | w) ->
    exists out nf g' c' r' w',
      for_ (combine (map Z.of_nat (seq i0 (length repetitions))) repetitions)
        (block, nb_filters)
        (fun '(block, nb_filters) '(i, r) =>
           block' <- _residual_block block_fn nb_filters r (i =? 0) block ;;
           ret (block', nb_filters * 2)) g = (inr (out, nf), g') /\
      _keras_shape out = shape4 o n (Some c') (Some r') (Some w') /\
      0 < c' /\ 0 < r' <= r /\ 0 < w' <= w.
Proof.
  induction repetitions as [| rep reps IH];
    intros i0 block nb_filters g c r w Hi Hf Hin Hc Hr Hw Dr Dw.
  - exists block, nb_filters, g, c, r, w. cbn. repeat split; auto; lia.
  - cbn [length seq map combine for_]. cbv beta iota.
    destruct (pow2_step _ _ Hr Dr) as (Er & Dr1 & Dr2 & Pr).
    destruct (pow2_step _ _ Hw Dw) as (Ew & Dw1 & Dw2 & Pw).
    destruct (_residual_block_ok nb_filters rep (Z.of_nat i0 =? 0) block g
                n c r w Hf Hin Hc Hr Hw (fun _ => conj Er Ew))
      as (out & g1 & c1 & r1 & w1 & E & Sh & Hc1 & Hr1 & Hw1).
    rewrite (bind_step _ _ _ _ _ (stage_step _ _ _ _ _ _ _ E)).
    assert (Hfirst : (Z.of_nat i0 =? 0) = false) by (apply Z.eqb_neq; lia).
    assert (Br : 0 < r1 <= r).
    { destruct Hr1 as [-> | [_ ->]]; [lia |].
      split; [exact Pr | apply Z.div_le_upper_bound; lia]. }
    assert (Bw : 0 < w1 <= w).
    { destruct Hw1 as [-> | [_ ->]]; [lia |].
      split; [exact Pw | apply Z.div_le_upper_bound; lia]. }
    destruct (IH (S i0) out (nb_filters * 2) g1 c1 r1 w1)
      as (out' & nf' & g' & c' & r' & w' & E' & Sh' & Hc' & Hr' & Hw');
      try lia; try assumption.
    + destruct Hr1 as [-> | [_ ->]]; assumption.
    + destruct Hw1 as [-> | [_ ->]]; assumption.
    + exists out', nf', g', c', r', w'. repeat split; try assumption; lia.
Qed.

Lemma build_stages_ok (repetitions : list Z) pool1 g n c r w :
  _keras_shape pool1 = shape4 o n (Some c) (Some r) (Some w) ->
  0 < c -> 0 < r -> 0 < w ->
  (2 ^ Z.of_nat (length repetitions - 1) | r) ->
  (2 ^ Z.of_nat (length repetitions - 1) | w) ->
  exists out nf g' c' r' w',
    build_stages block_fn repetitions pool1 g = (inr (out, nf), g') /\
    _keras_shape out = shape4 o n (Some c') (Some r') (Some w') /\
    0 < c' /\ 0 < r' <= r /\ 0 < w' <= w.
Proof.
  intros Hin Hc Hr Hw Dr Dw. unfold build_stages, enumerate.
  destruct repetitions as [| rep reps].
  - exists pool1, 64, g, c, r, w. cbn. repeat split; auto; lia.
  - cbn [length seq map combine for_]. cbv beta iota.
    change (Z.of_nat 0 =? 0) with true.
    cbn [length Nat.sub] in Dr, Dw. rewrite Nat.sub_0_r in Dr, Dw.
    destruct (_residual_block_ok 64 rep true pool1 g n c r w
                ltac:(lia) Hin Hc Hr Hw)
      as (out & g1 & c1 & r1 & w1 & E & Sh & Hc1 & Hr1 & Hw1); [discriminate |].
    rewrite (bind_step _ _ _ _ _ (stage_step _ _ _ _ _ _ _ E)).
    destruct Hr1 as [-> | [? _]]; [| discriminate].
    destruct Hw1 as [-> | [? _]]; [| discriminate].
    apply (later_stages_ok n reps 1 out (64 * 2) g1 c1 r w); try lia; assumption.
Qed.

End StagesReturn.

(** ** [build] returns *)

Section BuildReturns.

Variable o : dim_ordering.

Lemma input_shape4 c r w : None :: shape3 o c r w = shape4 o None c r w.
Proof. now destruct o. Qed.

Lemma length_shape3 c r w : length (shape3 o c r w) = 3%nat.
Proof. now destruct o. Qed.

Lemma _conv_bn_relu_ok f kr kc s1 s2 input g n c r w :
  _keras_shape input = shape4 o n (Some c) (Some r) (Some w) ->
  s1 <> 0 -> s2 <> 0 -> 0 < f -> 0 < c -> 0 < kr -> 0 < kc ->
  exists out g',
    _conv_bn_relu o f kr kc (s1, s2) input g = (inr out, g') /\
    _keras_shape out =
      shape4 o n (Some f) (Some ((r + s1 - 1) / s1)) (Some ((w + s2 - 1) / s2)).
Proof.
  intros Hin H1 H2 Hf Hc Hkr Hkc. unfold _conv_bn_relu.
  erewrite bind_step
    by (apply call_ok; cbn [map]; rewrite Hin; now apply conv_same_shape4).
  erewrite bind_step
    by (apply call_ok; cbn [map _keras_shape]; apply bn_shape4; lia).
  do 2 eexists. split; [apply call_ok |]; reflexivity.
Qed.

(** Flattening a 1 x 1 map leaves its channels. *)
Lemma flatten_shape4 n c :
  c <> 0 ->
  get_output_shape_for o Flatten [shape4 o n (Some c) (Some 1) (Some 1)] =
  inr [n; Some c].
Proof.
  intros Hc. apply Z.eqb_neq in Hc.
  destruct o; cbn [get_output_shape_for shape4 length Nat.leb andb
                   fully_defined forallb]; rewrite Hc;
    cbn [negb andb Z.eqb]; unfold prod; cbn [fold_right];
    do 4 f_equal; lia.
Qed.

Lemma dense_shape l n k units init act :
  l = Dense units init act -> 0 < k -> 0 < units ->
  get_output_shape_for o l [[n; Some k]] = inr [n; Some units].
Proof.
  intros -> Hk Hu. cbn [get_output_shape_for defined rbind].
  now rewrite weights_ok by (repeat constructor; assumption).
Qed.

Lemma stem_step_pos d : 0 < d -> 0 < (d + 2 - 1) / 2.
Proof. intros H. apply Z.div_str_pos. lia. Qed.

Lemma stem_size_le d : 0 < d -> 0 < stem_size d <= d.
Proof.
  intros H. unfold stem_size.
  pose proof (stem_step_pos d H) as H1.
  pose proof (stem_step_pos _ H1) as H2.
  split; [exact H2 |].
  apply Z.div_le_upper_bound; [lia |].
  assert ((d + 2 - 1) / 2 <= d) by (apply Z.div_le_upper_bound; lia).
  lia.
Qed.

(** On fully known input sizes whose stem output can be halved once per
    later stage and is below the largest pooling window, [build] returns
    a model: its input is the input layer, its output has the width of
    the classifier head, and no loss or optimizer is attached to it. *)
Lemma build_returns block_fn expansion c r w num_outputs repetitions mode g :
  0 < expansion -> well_shaped_block o block_fn expansion ->
  0 < c -> 0 < r -> 0 < w ->
  stem_size r < 2 ^ 63 -> stem_size w < 2 ^ 63 ->
  (2 ^ Z.of_nat (length repetitions - 1) | stem_size r) ->
  (2 ^ Z.of_nat (length repetitions - 1) | stem_size w) ->
  mode = "categorical" /\ 0 < num_outputs \/ mode = "binary" ->
  exists m g',
    build o (shape3 o (Some c) (Some r) (Some w)) num_outputs block_fn
      repetitions mode g = (inr m, g') /\
    m = new_Model
          (mk_tensor (length g) (None :: shape3 o (Some c) (Some r) (Some w)))
          (mk_tensor (length g' - 1)
             [None; Some (if (mode =? "binary")%string then 1 else num_outputs)]).
Proof.
  intros Hexp Hblock Hc Hr Hw Br Bw Dr Dw Hmode. unfold build.
  rewrite length_shape3. cbn [Nat.eqb negb].
  erewrite bind_step by (apply call_ok; reflexivity).
  rewrite input_shape4.
  destruct (_conv_bn_relu_ok 64 7 7 2 2
              (mk_tensor (length g) (shape4 o None (Some c) (Some r) (Some w)))
              (g ++ [mk_node (Input (shape3 o (Some c) (Some r) (Some w)))
                       (map _keras_history [])
                       (shape4 o None (Some c) (Some r) (Some w))])
              None c r w eq_refl)
    as (conv1 & g1 & E1 & S1); try lia.
  rewrite (bind_step _ _ _ _ _ E1).
  erewrite bind_step
    by (apply call_ok; cbn [map]; rewrite S1; apply max_pool_shape4; lia).
  cbv beta.
  pose proof (stem_step_pos r Hr) as Pr1. pose proof (stem_step_pos w Hw) as Pw1.
  pose proof (stem_step_pos _ Pr1) as Pr2. pose proof (stem_step_pos _ Pw1) as Pw2.
  fold (stem_size r). fold (stem_size w).
  fold (stem_size r) in Pr2. fold (stem_size w) in Pw2.
  match goal with
  | |- context [bind (build_stages _ _ ?p) _ ?g2] =>
      destruct (build_stages_ok o block_fn expansion Hexp Hblock repetitions
                  p g2 None 64 (stem_size r) (stem_size w) eq_refl)
        as (block & nf & g3 & c' & r' & w' & E3 & S3 & Hc' & Hr' & Hw');
        try assumption; try lia
  end.
  rewrite (bind_step _ _ _ _ _ E3). cbv beta iota.
  rewrite S3, getitem_row, getitem_col. rewrite !bind_lift.
  erewrite bind_step
    by (apply call_ok; cbn [map]; rewrite S3; apply global_pool_shape4; lia).
  erewrite bind_step
    by (apply call_ok; cbn [map _keras_shape]; apply flatten_shape4; lia).
  destruct Hmode as [[-> Hout] | ->].
  - change ("categorical" =? "categorical")%string with true.
    change ("categorical" =? "binary")%string with false. cbv iota.
    erewrite bind_step
      by (apply call_ok; cbn [map _keras_shape];
          now apply (dense_shape _ _ _ _ _ _ eq_refl)).
    do 2 eexists. split; [reflexivity |].
    unfold new_Model. repeat f_equal. rewrite !length_snoc. cbn. lia.
  - change ("binary" =? "categorical")%string with false.
    change ("binary" =? "binary")%string with true. cbv iota.
    erewrite bind_step
      by (apply call_ok; cbn [map _keras_shape];
          apply (dense_shape _ _ _ _ _ _ eq_refl); lia).
    do 2 eexists. split; [reflexivity |].
    unfold new_Model. repeat f_equal. rewrite !length_snoc. cbn. lia.
Qed.

End BuildReturns.

(** ** The structure of [build] *)

Lemma bind_assoc {A B C : Type} (m : M A) (k : A -> M B) (h : B -> M C) g :
  bind (bind m k) h g = bind m (fun a => bind (k a) h) g.
Proof. unfold bind. now destruct (m g) as [[e | a] g1]. Qed.

Lemma bind_cong {A B : Type} (m : M A) (k k' : A -> M B) g :
  (forall a g1, k a g1 = k' a g1) -> bind m k g = bind m k' g.
Proof. intros H. unfold bind. destruct (m g) as [[e | a] g1]; auto. Qed.

Section BuildStructure.

Variable o : dim_ordering.

Lemma build_split input_shape num_outputs block_fn repetitions mode g :
  length input_shape = 3%nat ->
  build o input_shape num_outputs block_fn repetitions mode g =
  (p <- build_until_flatten o input_shape block_fn repetitions ;;
   dense <- classifier_head o mode num_outputs (snd p) ;;
   ret (new_Model (fst p) dense)) g.
Proof.
  intros Hlen. unfold build, build_until_flatten. rewrite Hlen. cbn [Nat.eqb negb].
  repeat (rewrite bind_assoc; apply bind_cong; intros).
  match goal with
  | x : (tensor * Z)%type |- _ => destruct x as [block nf]
  end.
  repeat (rewrite bind_assoc; apply bind_cong; intros).
  reflexivity.
Qed.

Lemma build_bad_shape input_shape num_outputs block_fn repetitions mode g :
  length input_shape <> 3%nat ->
  build o input_shape num_outputs block_fn repetitions mode g =
  (inl (Exception "Input shape should be a tuple (nb_channels, nb_rows, nb_cols)"), g).
Proof.
  intros Hlen. unfold build. apply Nat.eqb_neq in Hlen. now rewrite Hlen.
Qed.

End BuildStructure.

Section BuildInversion.

Variable o : dim_ordering.

Lemma conv_output_length_global d out :
  conv_output_length d d valid 1 = inr out ->
  out = match d with Some _ => Some 1 | None => None end.
Proof.
  destruct d as [z |]; cbn [conv_output_length].
  - rewrite floordiv_ok by lia. cbn [rbind]. intros H. inversion H.
    f_equal. rewrite Z.div_1_r. lia.
  - intros H. now inversion H.
Qed.

(** A pool as large as the spatial extent that feeds a flatten layer
    leaves one row and one column. *)
Lemma global_pooling s rows cols pool_shape flat_shape :
  getitem s (ROW_AXIS o) = inr rows ->
  getitem s (COL_AXIS o) = inr cols ->
  get_output_shape_for o (AveragePooling2D (rows, cols) (1, 1) valid) [s]
    = inr pool_shape ->
  get_output_shape_for o Flatten [pool_shape] = inr flat_shape ->
  getitem pool_shape (ROW_AXIS o) = inr (Some 1) /\
  getitem pool_shape (COL_AXIS o) = inr (Some 1).
Proof.
  unfold get_output_shape_for, window_output_shape.
  destruct o; destruct s as [| n [| a [| b [| c [| ? ?]]]]]; try discriminate;
    cbn [getitem nth_error ROW_AXIS COL_AXIS fst snd];
    intros Hr Hc Hp Hf; inversion Hr; inversion Hc; subst; rinv;
    repeat match goal with
    | H : conv_output_length _ _ _ _ = inr _ |- _ =>
        apply conv_output_length_global in H; subst
    end;
    repeat match goal with
    | d : dim |- _ => destruct d as [? |]
    end;
    cbn in Hf |- *; rewrite ?andb_false_r in Hf; try discriminate; auto.
Qed.

Lemma build_until_flatten_inv input_shape block_fn repetitions g input flatten1 g_flat :
  build_until_flatten o input_shape block_fn repetitions g
    = (inr (input, flatten1), g_flat) ->
  exists conv_shape pool_shape block nf g_stages rows cols pool2_shape flat_shape,
    input = mk_tensor (length g) (None :: input_shape) /\
    build_stages block_fn repetitions
      (mk_tensor (length g + 4) pool_shape)
      (g ++ stem_nodes o (length g) input_shape conv_shape pool_shape)
      = (inr (block, nf), g_stages) /\
    getitem (_keras_shape block) (ROW_AXIS o) = inr rows /\
    getitem (_keras_shape block) (COL_AXIS o) = inr cols /\
    getitem pool2_shape (ROW_AXIS o) = inr (Some 1) /\
    getitem pool2_shape (COL_AXIS o) = inr (Some 1) /\
    g_flat = g_stages ++
      [ mk_node (AveragePooling2D (rows, cols) (1, 1) valid)
          [_keras_history block] pool2_shape;
        mk_node Flatten [length g_stages] flat_shape ] /\
    flatten1 = mk_tensor (S (length g_stages)) flat_shape /\
    exists n k, flat_shape = [n; Some k].
Proof.
  unfold build_until_flatten, _conv_bn_relu. intros H. minv.
  match goal with
  | x : (tensor * Z)%type |- _ => destruct x as [block nf]
  end.
  minv. cbn [map _keras_shape _keras_history] in *.
  repeat match goal with
  | H : get_output_shape_for _ (BatchNormalization _ _) _ = _ |- _ =>
      apply bn_shape in H; subst
  | H : get_output_shape_for _ (Activation _) _ = _ |- _ =>
      apply activation_shape in H; subst
  | H : get_output_shape_for _ (Input _) [] = _ |- _ =>
      cbn in H; inversion H; clear H; subst
  end.
  match goal with
  | Hp : get_output_shape_for _ (AveragePooling2D _ _ _) _ = inr ?ps,
    Hf : get_output_shape_for _ Flatten _ = inr ?fs,
    Hr : getitem _ (ROW_AXIS o) = _, Hc : getitem _ (COL_AXIS o) = _ |- _ =>
      destruct (global_pooling _ _ _ _ _ Hr Hc Hp Hf) as [G1 G2];
      assert (Hlen : exists n k, fs = [n; Some k])
        by (cbn in Hf; destruct ps as [| ? ?]; [discriminate |];
            destruct (_ && _); inversion Hf; eauto)
  end.
  repeat match goal with
  | H : (_, _) = (_, _) |- _ => inversion H; clear H; subst
  end.
  repeat rewrite length_snoc in *.
  match goal with
  | H : build_stages _ _ _ _ = _ |- _ =>
      repeat rewrite <- app_assoc in H; cbn [app] in H
  end.
  do 9 eexists. split; [reflexivity |].
  split.
  { unfold stem_nodes. replace (length g + 4)%nat with (S (S (S (S (length g)))))
      by lia. eassumption. }
  repeat (split; [eassumption |]).
  norm_graph. auto.
Qed.

Lemma classifier_head_inv mode num_outputs flatten1 g dense g' :
  classifier_head o mode num_outputs flatten1 g = (inr dense, g') ->
  exists l units,
    (mode = "categorical" /\ l = Dense num_outputs "he_normal" "softmax" /\
     units = num_outputs \/
     mode = "binary" /\ l = Dense 1 "he_normal" "sigmoid" /\ units = 1) /\
    (forall n k, _keras_shape flatten1 = [n; Some k] ->
                 _keras_shape dense = [n; Some units]) /\
    g' = g ++ [mk_node l [_keras_history flatten1] (_keras_shape dense)] /\
    _keras_history dense = length g.
Proof.
  unfold classifier_head.
  destruct (mode =? "categorical")%string eqn:Ec;
    [| destruct (mode =? "binary")%string eqn:Eb].
  - apply String.eqb_eq in Ec. intros H. minv.
    exists (Dense num_outputs "he_normal" "softmax"), num_outputs.
    cbn [map _keras_shape _keras_history] in *. repeat split; auto.
    intros n k E. rewrite E in H.
    cbn [get_output_shape_for defined rbind] in H. rinv. reflexivity.
  - apply String.eqb_eq in Eb. intros H. minv.
    exists (Dense 1 "he_normal" "sigmoid"), 1.
    cbn [map _keras_shape _keras_history] in *. repeat split; auto.
    intros n k E. rewrite E in H.
    cbn [get_output_shape_for defined rbind] in H. rinv. reflexivity.
  - discriminate.
Qed.

(** Every run of [build] that returns a model has wired the stem, the
    stages and the classifier head in this order. *)
Lemma build_inv input_shape num_outputs block_fn repetitions mode g m g' :
  build o input_shape num_outputs block_fn repetitions mode g = (inr m, g') ->
  exists conv_shape pool_shape block nf g_stages rows cols pool2_shape
         flat_shape dense units n,
    length input_shape = 3%nat /\
    build_stages block_fn repetitions
      (mk_tensor (length g + 4) pool_shape)
      (g ++ stem_nodes o (length g) input_shape conv_shape pool_shape)
      = (inr (block, nf), g_stages) /\
    getitem (_keras_shape block) (ROW_AXIS o) = inr rows /\
    getitem (_keras_shape block) (COL_AXIS o) = inr cols /\
    getitem pool2_shape (ROW_AXIS o) = inr (Some 1) /\
    getitem pool2_shape (COL_AXIS o) = inr (Some 1) /\
    (mode = "categorical" /\ dense = Dense num_outputs "he_normal" "softmax" /\
     units = num_outputs \/
     mode = "binary" /\ dense = Dense 1 "he_normal" "sigmoid" /\ units = 1) /\
    g' = g_stages ++
         head_nodes (length g_stages) block rows cols pool2_shape flat_shape
           dense [n; Some units] /\
    m = new_Model (mk_tensor (length g) (None :: input_shape))
                  (mk_tensor (length g_stages + 2) [n; Some units]).
Proof.
  intros H.
  destruct (Nat.eq_dec (length input_shape) 3) as [Hlen | Hlen];
    [| rewrite build_bad_shape in H by assumption; discriminate].
  rewrite build_split in H by assumption. minv.
  match goal with
  | p : (tensor * tensor)%type |- _ => destruct p as [input flatten1]
  end.
  cbn [fst snd] in *.
  match goal with
  | H : build_until_flatten _ _ _ _ _ = _ |- _ =>
      apply build_until_flatten_inv in H;
      destruct H as (conv_shape & pool_shape & block & nf & g_stages & rows &
                     cols & pool2_shape & flat_shape & -> & Hst & Hr & Hc &
                     G1 & G2 & -> & -> & n & k & ->)
  end.
  match goal with
  | H : classifier_head _ _ _ _ _ = _ |- _ =>
      apply classifier_head_inv in H;
      destruct H as (l & units & Hmode & Hshape & -> & Hhist)
  end.
  specialize (Hshape n k eq_refl).
  exists conv_shape, pool_shape, block, nf, g_stages, rows, cols, pool2_shape,
    [n; Some k], l, units, n.
  repeat (split; [assumption |]).
  cbn [_keras_history] in *. rewrite <- Hshape. split.
  - unfold head_nodes. now rewrite <- app_assoc.
  - f_equal.
    match goal with
    | d : tensor |- ?d' = _ => constr_eq d d'; destruct d as [h sh]
    end.
    cbn [_keras_history _keras_shape] in *.
    subst h. f_equal. rewrite !length_app. cbn. lia.
Qed.

End BuildInversion.

(** ** The calls of the stage loops *)

Lemma for__app {S X : Type} (a b : list X) (body : S -> X -> M S) :
  forall s g,
    for_ (a ++ b) s body g = bind (for_ a s body) (fun s' => for_ b s' body) g.
Proof.
  induction a as [| x a IH]; intros s g; cbn [app for_].
  - reflexivity.
  - rewrite bind_assoc. apply bind_cong. intros s' g1. apply IH.
Qed.

Lemma bind_ext_l {A B : Type} (m m' : M A) (k : A -> M B) g :
  m g = m' g -> bind m k g = bind m' k g.
Proof. unfold bind. now intros ->. Qed.

Section StageCalls.

Variable block_fn : block_fn_type.

Lemma run_calls_app a b x g :
  run_calls block_fn (a ++ b) x g =
  bind (run_calls block_fn a x) (run_calls block_fn b) g.
Proof. unfold run_calls. apply for__app. Qed.

Lemma unit_stride_calls nb_filters is_first_layer k :
  forall j0 x g, (1 <= j0)%nat ->
    for_ (map Z.of_nat (seq j0 k)) x (fun input i =>
      let init_subsample :=
        if (i =? 0) && negb is_first_layer then (2, 2) else (1, 1) in
      block_fn nb_filters init_subsample input) g =
    run_calls block_fn (repeat (nb_filters, (1, 1)) k) x g.
Proof.
  unfold run_calls. induction k as [| k IH]; intros j0 x g Hj.
  - reflexivity.
  - cbn [seq map repeat for_]. cbv zeta.
    replace (Z.of_nat j0 =? 0) with false by (symmetry; apply Z.eqb_neq; lia).
    cbn [andb]. apply bind_cong. intros x' g1. apply IH. lia.
Qed.

(** The loop of [_residual_block] makes the calls of [stage_calls]. *)
Lemma stage_calls_eq (i : nat) r x g :
  _residual_block block_fn (64 * 2 ^ Z.of_nat i) r (Z.of_nat i =? 0) x g =
  run_calls block_fn (stage_calls i r) x g.
Proof.
  unfold _residual_block, range, stage_calls.
  destruct (Z.to_nat r) as [| k]; [reflexivity |].
  cbn [seq map]. unfold run_calls at 1. cbn [for_]. cbv zeta.
  change (Z.of_nat 0 =? 0) with true.
  replace (if true && negb (Z.of_nat i =? 0) then (2, 2) else (1, 1))
    with (match i with O => (1, 1) | _ => (2, 2) end : Z * Z)
    by (destruct i; reflexivity).
  apply bind_cong. intros x' g1. apply unit_stride_calls. lia.
Qed.

Lemma stage_loop_calls (repetitions : list Z) :
  forall (i0 : nat) x g,
    for_ (combine (map Z.of_nat (seq i0 (length repetitions))) repetitions)
      (x, 64 * 2 ^ Z.of_nat i0)
      (fun '(block, nb_filters) '(i, r) =>
         block' <- _residual_block block_fn nb_filters r (i =? 0) block ;;
         ret (block', nb_filters * 2)) g =
    (block <- run_calls block_fn (concat (network_calls i0 repetitions)) x ;;
     ret (block, 64 * 2 ^ Z.of_nat (i0 + length repetitions))) g.
Proof.
  induction repetitions as [| r reps IH]; intros i0 x g.
  - cbn [length seq map combine for_ network_calls concat].
    rewrite Nat.add_0_r. reflexivity.
  - cbn [length seq map combine for_ network_calls concat]. cbv beta iota.
    rewrite (bind_ext_l _ _ _ _ (run_calls_app _ _ _ _)).
    rewrite !bind_assoc.
    rewrite (bind_ext_l _ _ _ _ (stage_calls_eq _ _ _ _)).
    apply bind_cong. intros x' g1.
    change (for_ (combine (map Z.of_nat (seq (S i0) (length reps))) reps)
              (x', 64 * 2 ^ Z.of_nat i0 * 2)
              (fun '(block, nb_filters) '(i, r) =>
                 block' <- _residual_block block_fn nb_filters r (i =? 0) block ;;
                 ret (block', nb_filters * 2)) g1 =
            (block <- run_calls block_fn (concat (network_calls (S i0) reps)) x' ;;
             ret (block, 64 * 2 ^ Z.of_nat (i0 + S (length reps)))) g1).
    replace (64 * 2 ^ Z.of_nat i0 * 2) with (64 * 2 ^ Z.of_nat (S i0))
      by (rewrite Nat2Z.inj_succ, Z.pow_succ_r; lia).
    rewrite IH. replace (S i0 + length reps)%nat with (i0 + S (length reps))%nat
      by lia. reflexivity.
Qed.

(** The stage loop of [build] calls the block function on the argument
    pairs of [network_calls], stage after stage. *)
Lemma build_stages_calls repetitions pool1 g :
  build_stages block_fn repetitions pool1 g =
  (block <- run_calls block_fn (concat (network_calls 0 repetitions)) pool1 ;;
   ret (block, 64 * 2 ^ Z.of_nat (length repetitions))) g.
Proof.
  unfold build_stages, enumerate. apply (stage_loop_calls repetitions 0).
Qed.

Lemma stacked_stages_calls repetitions :
  forall i x g,
    stacked_stages block_fn i repetitions x g =
    run_calls block_fn (concat (network_calls i repetitions)) x g.
Proof.
  induction repetitions as [| r reps IH]; intros i x g;
    cbn [stacked_stages network_calls concat].
  - reflexivity.
  - rewrite run_calls_app. apply bind_cong. intros y g1. apply IH.
Qed.

(** The loop of [build] over the repetitions is the stack of stages. *)
Lemma stacked_stages_eq repetitions pool1 g :
  build_stages block_fn repetitions pool1 g =
  (block <- stacked_stages block_fn 0 repetitions pool1 ;;
   ret (block, 64 * 2 ^ Z.of_nat (length repetitions))) g.
Proof.
  rewrite build_stages_calls. apply bind_ext_l.
  symmetry. apply stacked_stages_calls.
Qed.

End StageCalls.

Lemma length_network_calls repetitions :
  forall i0, length (network_calls i0 repetitions) = length repetitions.
Proof.
  induction repetitions as [| r reps IH]; intros i0; cbn; [| rewrite IH]; auto.
Qed.

Lemma nth_network_calls repetitions :
  forall i0 i r, nth_error repetitions i = Some r ->
    nth_error (network_calls i0 repetitions) i = Some (stage_calls (i0 + i) r).
Proof.
  induction repetitions as [| r0 reps IH]; intros i0 [| i] r H; cbn in *;
    try discriminate.
  - inversion H. now rewrite Nat.add_0_r.
  - rewrite (IH (S i0) i r H). f_equal. f_equal. lia.
Qed.

Lemma length_stage_calls i r : Z.of_nat (length (stage_calls i r)) = Z.max 0 r.
Proof.
  unfold stage_calls. destruct (Z.to_nat r) as [| k] eqn:E.
  - cbn. lia.
  - cbn [length]. rewrite repeat_length. lia.
Qed.

Lemma filters_stage_calls i r :
  Forall (fun call => fst call = 64 * 2 ^ Z.of_nat i) (stage_calls i r).
Proof.
  unfold stage_calls. destruct (Z.to_nat r) as [| k]; constructor; [reflexivity |].
  apply Forall_forall. intros c Hc. apply repeat_spec in Hc. now subst.
Qed.

Lemma subsample_stage_calls i r j call :
  nth_error (stage_calls i r) j = Some call ->
  snd call = if negb (i =? 0)%nat && (j =? 0)%nat then (2, 2) else (1, 1).
Proof.
  unfold stage_calls. destruct (Z.to_nat r) as [| k].
  - destruct j; discriminate.
  - destruct j as [| j]; cbn [nth_error].
    + intros H. inversion H. now destruct i.
    + intros H. apply nth_error_In, repeat_spec in H. subst.
      rewrite andb_false_r. reflexivity.
Qed.

(** ** What the block functions add to the graph *)

Section BlockInversion.

Variable o : dim_ordering.

Lemma _shortcut_sum input residual g out g' :
  _shortcut o input residual g = (inr out, g') ->
  exists projection,
    g' = g ++ sum_nodes (length g) input residual projection /\
    (projection = None \/ exists l, projection = Some l /\ is_projection_1x1 l) /\
    out = mk_tensor (length g' - 1) (_keras_shape residual).
Proof.
  intros H. apply _shortcut_inv in H.
  destruct H as (in_r & res_r & in_c & res_c & res_ch & in_ch & _ & _ & _ & _ &
                 _ & _ & _ & _ & H).
  destruct (projection_needed _ _ _ _).
  - destruct H as [-> ->]. eexists (Some _). split; [reflexivity |]. split.
    + right. eexists. split; [reflexivity |]. now do 2 eexists.
    + f_equal. rewrite length_app. cbn. lia.
  - destruct H as (-> & -> & _). exists None. split; [reflexivity |]. split.
    + now left.
    + f_equal. rewrite length_app. cbn. lia.
Qed.

Lemma basic_block_inv nb_filters init_subsample input g out g' :
  basic_block o nb_filters init_subsample input g = (inr out, g') ->
  exists s1 s2 projection,
    g' = g ++ basic_block_path o (length g) input nb_filters init_subsample s1 s2
           ++ sum_nodes (length g + 6) input (mk_tensor (length g + 5) s2)
                projection /\
    (projection = None \/ exists l, projection = Some l /\ is_projection_1x1 l) /\
    out = mk_tensor (length g' - 1) s2 /\
    getitem s2 (CHANNEL_AXIS o) = inr (Some nb_filters).
Proof.
  unfold basic_block. intros H. minv.
  repeat match goal with
  | H : _bn_relu_conv _ _ _ _ _ _ _ = _ |- _ =>
      apply _bn_relu_conv_inv in H; destruct H as (? & ? & ? & ?); subst
  end.
  apply _shortcut_sum in H. destruct H as (projection & -> & Hp & ->).
  do 2 eexists. exists projection.
  unfold basic_block_path. rewrite !length_app. cbn [length bn_relu_conv_nodes].
  replace (length g + 3 + 3)%nat with (length g + 6)%nat by lia.
  replace (S (S (length g + 3))) with (length g + 5)%nat by lia.
  replace (S (S (length g))) with (length g + 2)%nat by lia.
  cbn [_keras_shape]. rewrite <- !app_assoc.
  split; [reflexivity |]. split; [exact Hp |]. split; [| assumption].
  reflexivity.
Qed.

Lemma bottleneck_inv nb_filters init_subsample input g out g' :
  bottleneck o nb_filters init_subsample input g = (inr out, g') ->
  exists s1 s2 s3 projection,
    g' = g ++ bottleneck_path o (length g) input nb_filters init_subsample s1 s2 s3
           ++ sum_nodes (length g + 9) input (mk_tensor (length g + 8) s3)
                projection /\
    (projection = None \/ exists l, projection = Some l /\ is_projection_1x1 l) /\
    out = mk_tensor (length g' - 1) s3 /\
    getitem s1 (CHANNEL_AXIS o) = inr (Some nb_filters) /\
    getitem s2 (CHANNEL_AXIS o) = inr (Some nb_filters) /\
    getitem s3 (CHANNEL_AXIS o) = inr (Some (nb_filters * 4)).
Proof.
  unfold bottleneck. intros H. minv.
  repeat match goal with
  | H : _bn_relu_conv _ _ _ _ _ _ _ = _ |- _ =>
      apply _bn_relu_conv_inv in H; destruct H as (? & ? & ? & ?); subst
  end.
  apply _shortcut_sum in H. destruct H as (projection & -> & Hp & ->).
  do 3 eexists. exists projection.
  unfold bottleneck_path. rewrite !length_app. cbn [length bn_relu_conv_nodes].
  replace (length g + 3 + 3 + 3)%nat with (length g + 9)%nat by lia.
  replace (S (S (length g + 3 + 3))) with (length g + 8)%nat by lia.
  replace (length g + 3 + 3)%nat with (length g + 6)%nat by lia.
  replace (S (S (length g + 3))) with (length g + 5)%nat by lia.
  replace (S (S (length g))) with (length g + 2)%nat by lia.
  cbn [_keras_shape]. rewrite <- !app_assoc.
  split; [reflexivity |]. split; [exact Hp |].
  split; [reflexivity |]. auto.
Qed.

End BlockInversion.

(** ** A stage halves the resolution once *)

Section StageHalves.

Variable o : dim_ordering.
Variable block_fn : block_fn_type.
Variable expansion : Z.
Hypothesis expansion_pos : 0 < expansion.
Hypothesis block_ok : well_shaped_block o block_fn expansion.

Lemma _residual_block_halves nb_filters repetitions is_first_layer input g n c r w :
  0 < nb_filters -> 1 <= repetitions ->
  _keras_shape input = shape4 o n (Some c) (Some r) (Some w) ->
  0 < c -> 0 < r -> 0 < w ->
  (is_first_layer = false -> (2 | r) /\ (2 | w)) ->
  exists out g' c',
    _residual_block block_fn nb_filters repetitions is_first_layer input g
      = (inr out, g') /\
    _keras_shape out =
      shape4 o n (Some c')
        (Some (if is_first_layer then r else r / 2))
        (Some (if is_first_layer then w else w / 2)).
Proof.
  intros Hf Hrep Hin Hc Hr Hw Heven. unfold _residual_block, range.
  destruct (Z.to_nat repetitions) as [| k] eqn:Ek; [lia |].
  cbn [seq map for_]. cbv zeta. change (Z.of_nat 0 =? 0) with true.
  assert (Hrest : forall j, In j (map Z.of_nat (seq 1 k)) ->
                            (j =? 0) && negb is_first_layer = false).
  { intros j Hj. apply in_map_iff in Hj. destruct Hj as (i & <- & Hi).
    apply in_seq in Hi. replace (Z.of_nat i =? 0) with false; [reflexivity |].
    symmetry. apply Z.eqb_neq. lia. }
  destruct is_first_layer; cbn [negb andb].
  - destruct (block_ok nb_filters 1 1 input g n c r w Hin)
      as (out & g1 & E & Sh); try lia; try apply Z.divide_1_l.
    rewrite (bind_step _ _ _ _ _ E). rewrite !Z.div_1_r in Sh.
    destruct (unit_stride_blocks_ok o block_fn expansion expansion_pos block_ok nb_filters
                true n r w Hf Hr Hw _ Hrest out g1 _ Sh)
      as (out' & g' & c' & E' & Sh' & _); [nia |].
    now exists out', g', c'.
  - destruct (Heven eq_refl) as [D1 D2].
    destruct (block_ok nb_filters 2 2 input g n c r w Hin)
      as (out & g1 & E & Sh); try lia; try assumption.
    rewrite (bind_step _ _ _ _ _ E).
    destruct (div_exact_pos r 2 ltac:(lia) Hr D1) as [_ Pr].
    destruct (div_exact_pos w 2 ltac:(lia) Hw D2) as [_ Pw].
    destruct (unit_stride_blocks_ok o block_fn expansion expansion_pos block_ok nb_filters
                false n _ _ Hf Pr Pw _ Hrest out g1 _ Sh)
      as (out' & g' & c' & E' & Sh' & _); [nia |].
    now exists out', g', c'.
Qed.

End StageHalves.

(** ** The projection test *)


(** ** Which exceptions are raised *)

Lemma bind_inl {A B : Type} (m : M A) (k : A -> M B) g e g' :
  bind m k g = (inl e, g') ->
  m g = (inl e, g') \/ exists a g1, m g = (inr a, g1) /\ k a g1 = (inl e, g').
Proof.
  unfold bind. destruct (m g) as [[e1 | a] g1]; intros H.
  - left. inversion H. reflexivity.
  - right. now exists a, g1.
Qed.

Lemma framework_only_bind {A B : Type} (m : M A) (k : A -> M B) :
  framework_only m -> (forall a, framework_only (k a)) ->
  framework_only (bind m k).
Proof.
  intros Hm Hk g e g' H. apply bind_inl in H.
  destruct H as [H | (a & g1 & _ & H)]; [exact (Hm _ _ _ H) | exact (Hk _ _ _ _ H)].
Qed.

Lemma framework_only_ret {A : Type} (a : A) : framework_only (ret a).
Proof. intros g e g' H. discriminate H. Qed.

Lemma framework_only_lift {A : Type} (r : result A) :
  (forall e, r = inl e -> is_own e = false) -> framework_only (lift r).
Proof. intros Hr g e g' H. inversion H. now apply Hr. Qed.

Lemma framework_only_for {S X : Type} (xs : list X) (body : S -> X -> M S) :
  (forall s x, framework_only (body s x)) ->
  forall s, framework_only (for_ xs s body).
Proof.
  intros Hbody. induction xs as [| x xs IH]; intros s; cbn [for_].
  - apply framework_only_ret.
  - apply framework_only_bind; [apply Hbody | exact IH].
Qed.

Lemma getitem_not_own {A : Type} (t : list A) i e :
  getitem t i = inl e -> is_own e = false.
Proof. unfold getitem. destruct (nth_error t i); intros H; now inversion H. Qed.

Lemma defined_not_own d e : defined d = inl e -> is_own e = false.
Proof. destruct d; intros H; now inversion H. Qed.

Lemma floordiv_not_own a b e : floordiv a b = inl e -> is_own e = false.
Proof. unfold floordiv. destruct (b =? 0); intros H; now inversion H. Qed.

Lemma dim_floordiv_not_own a b e : dim_floordiv a b = inl e -> is_own e = false.
Proof.
  destruct a, b; cbn [dim_floordiv]; try (intros H; now inversion H).
  apply floordiv_not_own.
Qed.

Lemma rbind_not_own {A B : Type} (r : result A) (k : A -> result B) :
  (forall e', r = inl e' -> is_own e' = false) ->
  (forall a e', k a = inl e' -> is_own e' = false) ->
  forall e, rbind r k = inl e -> is_own e = false.
Proof.
  intros Hr Hk e. destruct r as [e1 | a]; cbn [rbind]; intros H.
  - inversion H; subst. now apply Hr.
  - now apply (Hk a).
Qed.

Lemma weights_not_own who extents e :
  weights who extents = inl e -> is_own e = false.
Proof. unfold weights. destruct (forallb _ _); intros H; now inversion H. Qed.

Lemma pool_extent_not_own who d e :
  pool_extent who d = inl e -> is_own e = false.
Proof.
  destruct d as [z |]; cbn [pool_extent]; [| intros H; now inversion H].
  destruct (_ && _); intros H; now inversion H.
Qed.

Lemma conv_output_length_not_own l k b s e :
  conv_output_length l k b s = inl e -> is_own e = false.
Proof.
  destruct l as [l |], k as [k |]; cbn [conv_output_length];
    try (intros H; now inversion H).
  apply rbind_not_own; [apply floordiv_not_own | discriminate].
Qed.

Lemma window_output_shape_not_own o who s channels size b strides e :
  (forall c e', channels c = inl e' -> is_own e' = false) ->
  window_output_shape o who s channels size b strides = inl e ->
  is_own e = false.
Proof.
  intros Hch. unfold window_output_shape.
  destruct o; destruct s as [| n [| a [| b' [| c [| ? ?]]]]];
    try (intros H; now inversion H);
    (apply rbind_not_own; [apply Hch | intros c'];
     apply rbind_not_own; [apply conv_output_length_not_own | intros rows];
     apply rbind_not_own; [apply conv_output_length_not_own | discriminate]).
Qed.

Lemma get_output_shape_for_not_own o l ss e :
  get_output_shape_for o l ss = inl e -> is_own e = false.
Proof.
  destruct l; cbn [get_output_shape_for].
  - destruct ss; intros H; now inversion H.
  - destruct ss as [| s [| ? ?]]; try (intros H; now inversion H).
    apply window_output_shape_not_own. intros c.
    apply rbind_not_own; [apply defined_not_own | intros stack_size].
    apply rbind_not_own; [apply defined_not_own | intros k].
    apply rbind_not_own; [apply weights_not_own | discriminate].
  - destruct ss as [| s [| ? ?]]; try (intros H; now inversion H).
    apply rbind_not_own; [apply getitem_not_own | intros d].
    apply rbind_not_own; [apply defined_not_own | intros k].
    destruct (k <? 0); intros e' H; now inversion H.
  - destruct ss as [| s [| ? ?]]; intros H; now inversion H.
  - destruct ss as [| s [| ? ?]]; try (intros H; now inversion H).
    apply window_output_shape_not_own. discriminate.
  - destruct ss as [| s [| ? ?]]; try (intros H; now inversion H).
    apply window_output_shape_not_own. intros c.
    apply rbind_not_own; [apply pool_extent_not_own | intros p1].
    apply rbind_not_own; [apply pool_extent_not_own | discriminate].
  - destruct ss as [| [| n s] [| ? ?]]; try (intros H; now inversion H).
    destruct (_ && _); intros H; now inversion H.
  - destruct ss as [| [| n [| d [| ? ?]]] [| ? ?]]; try (intros H; now inversion H).
    apply rbind_not_own; [apply defined_not_own | intros input_dim].
    apply rbind_not_own; [apply weights_not_own | discriminate].
  - destruct ss as [| s1 [| s2 rest]]; try (intros H; now inversion H).
    destruct (forallb _ _); intros H; now inversion H.
Qed.

Lemma framework_only_call o l ins : framework_only (call o l ins).
Proof.
  intros g e g'. unfold call.
  destruct (get_output_shape_for o l (map _keras_shape ins)) as [e1 | s] eqn:E;
    intros H; inversion H; subst. exact (get_output_shape_for_not_own _ _ _ _ E).
Qed.

Section FrameworkOnly.

Variable o : dim_ordering.

Ltac fw :=
  repeat first
    [ apply framework_only_call
    | apply framework_only_ret
    | apply framework_only_lift; first [apply getitem_not_own | apply dim_floordiv_not_own]
    | apply framework_only_bind; [| intros ?] ].

Lemma framework_only_bn_relu_conv f kr kc sub x :
  framework_only (_bn_relu_conv o f kr kc sub x).
Proof. unfold _bn_relu_conv. fw. Qed.

Lemma framework_only_conv_bn_relu f kr kc sub x :
  framework_only (_conv_bn_relu o f kr kc sub x).
Proof. unfold _conv_bn_relu. fw. Qed.

Lemma framework_only_shortcut x residual : framework_only (_shortcut o x residual).
Proof.
  unfold _shortcut, merge. fw. destruct (_ || _ || _); fw.
Qed.

Lemma framework_only_basic_block f sub x : framework_only (basic_block o f sub x).
Proof.
  unfold basic_block.
  apply framework_only_bind; [apply framework_only_bn_relu_conv | intros conv1].
  apply framework_only_bind; [apply framework_only_bn_relu_conv | intros residual].
  apply framework_only_shortcut.
Qed.

Lemma framework_only_bottleneck f sub x : framework_only (bottleneck o f sub x).
Proof.
  unfold bottleneck.
  apply framework_only_bind; [apply framework_only_bn_relu_conv | intros c1].
  apply framework_only_bind; [apply framework_only_bn_relu_conv | intros c3].
  apply framework_only_bind; [apply framework_only_bn_relu_conv | intros residual].
  apply framework_only_shortcut.
Qed.

Lemma framework_only_until_flatten input_shape block_fn repetitions :
  (forall f sub x, framework_only (block_fn f sub x)) ->
  framework_only (build_until_flatten o input_shape block_fn repetitions).
Proof.
  intros Hblock. unfold build_until_flatten.
  apply framework_only_bind; [apply framework_only_call | intros input].
  apply framework_only_bind; [apply framework_only_conv_bn_relu | intros conv1].
  apply framework_only_bind; [apply framework_only_call | intros pool1].
  apply framework_only_bind.
  - unfold build_stages. apply framework_only_for. intros [block nf] [i r].
    apply framework_only_bind; [| intros; apply framework_only_ret].
    unfold _residual_block. apply framework_only_for. intros x j. apply Hblock.
  - intros [block nf]. fw.
Qed.

End FrameworkOnly.

Lemma classifier_head_invalid o mode num_outputs flatten1 g :
  mode <> "categorical" -> mode <> "binary" ->
  classifier_head o mode num_outputs flatten1 g =
  (inl (Exception "mode should either be categorical or binary"), g).
Proof.
  intros H1 H2. unfold classifier_head.
  apply String.eqb_neq in H1. apply String.eqb_neq in H2.
  now rewrite H1, H2.
Qed.

(** * The claims *)

(** C1. On a fully known input shape with positive sizes below [2^63]
    whose rows and columns, after the stem, can be halved once per later
    stage, with [basic_block] or [bottleneck], a positive number of
    outputs and a valid mode, [build] returns a model.  Every run of
    [build] that returns a model has wired, in this order: the input
    layer; the stem, a 7x7 convolution with 64 filters and stride (2, 2),
    batch normalization and relu; a 3x3 max pooling with stride (2, 2);
    the stacked stages, one per entry of [repetitions], run in the order
    of the list on the pooled tensor; an average pooling whose pool size
    is the row and column size of the last stage's output, which leaves
    one row and one column; a flatten layer; the dense classifier.  The
    model's input is the input layer and its output is the dense layer. *)
Theorem build_wiring_order o input_shape num_outputs block_fn repetitions mode g :
  (forall c r w,
     input_shape = shape3 o (Some c) (Some r) (Some w) ->
     block_fn = basic_block o \/ block_fn = bottleneck o ->
     0 < c -> 0 < r < 2 ^ 63 -> 0 < w < 2 ^ 63 -> 0 < num_outputs ->
     (2 ^ Z.of_nat (length repetitions - 1) | stem_size r) ->
     (2 ^ Z.of_nat (length repetitions - 1) | stem_size w) ->
     mode = "categorical" \/ mode = "binary" ->
     exists m g',
       build o input_shape num_outputs block_fn repetitions mode g = (inr m, g')) /\
  (forall m g',
     build o input_shape num_outputs block_fn repetitions mode g = (inr m, g') ->
     exists conv_shape pool_shape block g_stages rows cols pool2_shape
            flat_shape dense units n,
       length input_shape = 3%nat /\
       stacked_stages block_fn 0 repetitions
         (mk_tensor (length g + 4) pool_shape)
         (g ++ stem_nodes o (length g) input_shape conv_shape pool_shape)
         = (inr block, g_stages) /\
       getitem (_keras_shape block) (ROW_AXIS o) = inr rows /\
       getitem (_keras_shape block) (COL_AXIS o) = inr cols /\
       getitem pool2_shape (ROW_AXIS o) = inr (Some 1) /\
       getitem pool2_shape (COL_AXIS o) = inr (Some 1) /\
       (mode = "categorical" /\ dense = Dense num_outputs "he_normal" "softmax" /\
        units = num_outputs \/
        mode = "binary" /\ dense = Dense 1 "he_normal" "sigmoid" /\ units = 1) /\
       g' = g_stages ++
            head_nodes (length g_stages) block rows cols pool2_shape flat_shape
              dense [n; Some units] /\
       m = new_Model (mk_tensor (length g) (None :: input_shape))
                     (mk_tensor (length g_stages + 2) [n; Some units])).
Proof.
  split.
  - intros c r w -> Hblock Hc Hr Hw Hout Dr Dw Hmode.
    assert (H : exists expansion,
               0 < expansion /\ well_shaped_block o block_fn expansion).
    { destruct Hblock as [-> | ->].
      - exists 1. split; [lia | apply basic_block_well_shaped].
      - exists 4. split; [lia | apply bottleneck_well_shaped]. }
    destruct H as (expansion & Hexp & Hws).
    pose proof (stem_size_le r ltac:(lia)) as Br.
    pose proof (stem_size_le w ltac:(lia)) as Bw.
    destruct (build_returns o block_fn expansion c r w num_outputs repetitions
                mode g Hexp Hws Hc ltac:(lia) ltac:(lia) ltac:(lia) ltac:(lia)
                Dr Dw) as (m & g' & E & _).
    + destruct Hmode as [-> | ->]; auto.
    + now exists m, g'.
  - intros m g' H. apply build_inv in H.
    destruct H as (conv_shape & pool_shape & block & nf & g_stages & rows &
                   cols & pool2_shape & flat_shape & dense & units & n & Hlen &
                   Hst & Hrest).
    rewrite stacked_stages_eq in Hst.
    apply bind_inr in Hst. destruct Hst as (block' & g1 & Hst & Hret).
    apply ret_inr in Hret. destruct Hret as [Hret <-].
    injection Hret as Hb _. subst block'.
    exists conv_shape, pool_shape, block, g_stages, rows, cols, pool2_shape,
      flat_shape, dense, units, n.
    split; [exact Hlen |]. split; [exact Hst | exact Hrest].
Qed.

Lemma build_wiring_order_witness :
  (0 < 3 /\ 0 < 224 < 2 ^ 63 /\ 0 < 1000 /\
   (2 ^ Z.of_nat (length [2; 2; 2; 2] - 1) | stem_size 224)) /\
  exists m g',
    build th [Some 3; Some 224; Some 224] 1000 (basic_block th) [2; 2; 2; 2]
      "categorical" [] = (inr m, g') /\
    length g' = 67%nat /\
    exists conv_shape pool_shape block g_stages rows cols pool2_shape
           flat_shape dense units n,
      length [Some 3; Some 224; Some 224] = 3%nat /\
      stacked_stages (basic_block th) 0 [2; 2; 2; 2]
        (mk_tensor (length (@nil node) + 4) pool_shape)
        ([] ++ stem_nodes th (length (@nil node)) [Some 3; Some 224; Some 224]
                 conv_shape pool_shape)
        = (inr block, g_stages) /\
      getitem (_keras_shape block) (ROW_AXIS th) = inr rows /\
      getitem (_keras_shape block) (COL_AXIS th) = inr cols /\
      getitem pool2_shape (ROW_AXIS th) = inr (Some 1) /\
      getitem pool2_shape (COL_AXIS th) = inr (Some 1) /\
      ("categorical" = "categorical" /\
       dense = Dense 1000 "he_normal" "softmax" /\ units = 1000 \/
       "categorical" = "binary" /\ dense = Dense 1 "he_normal" "sigmoid" /\
       units = 1) /\
      g' = g_stages ++
           head_nodes (length g_stages) block rows cols pool2_shape flat_shape
             dense [n; Some units] /\
      m = new_Model (mk_tensor (length (@nil node))
                       (None :: [Some 3; Some 224; Some 224]))
                    (mk_tensor (length g_stages + 2) [n; Some units]).
Proof.
  assert (D : (2 ^ Z.of_nat (length [2; 2; 2; 2] - 1) | stem_size 224))
    by (exists 7; reflexivity).
  assert (B : 0 < 224 < 2 ^ 63) by (split; reflexivity).
  pose proof (build_wiring_order th [Some 3; Some 224; Some 224] 1000
                (basic_block th) [2; 2; 2; 2] "categorical" [])
    as [Hreturns Horder].
  split; [repeat split; try lia; try exact D; reflexivity |].
  destruct (Hreturns 3 224 224 eq_refl (or_introl eq_refl) ltac:(lia)
              B B ltac:(lia) D D (or_introl eq_refl))
    as (m & g' & E).
  exists m, g'. split; [exact E |]. split; [| exact (Horder m g' E)].
  assert (L : length (snd (build th [Some 3; Some 224; Some 224] 1000
                             (basic_block th) [2; 2; 2; 2] "categorical" []))
              = 67%nat) by (vm_compute; reflexivity).
  rewrite E in L. exact L.
Defined.




(** C3. Each named constructor delegates to [build] with its fixed block
    function, repetition table and mode, and plots under its own file
    name: ResNet-18 is basic blocks [2, 2, 2, 2]; ResNet-34 and its binary
    variant are basic blocks [3, 4, 6, 3]; ResNet-50, 101 and 152 are
    bottlenecks [3, 4, 6, 3], [3, 4, 23, 3] and [3, 8, 36, 3]; only the
    binary variant passes mode "binary" (and 1 as the number of outputs),
    the others pass "categorical". *)
Theorem variant_tables o plot_model_cwd visual_path input_shape num_outputs g :
  delegates plot_model_cwd visual_path "resnet_18.png"
    (build_resnet_18 o plot_model_cwd visual_path input_shape num_outputs g)
    (build o input_shape num_outputs (basic_block o) [2; 2; 2; 2]
       "categorical" g) /\
  delegates plot_model_cwd visual_path "resnet_34.png"
    (build_resnet_34 o plot_model_cwd visual_path input_shape num_outputs g)
    (build o input_shape num_outputs (basic_block o) [3; 4; 6; 3]
       "categorical" g) /\
  delegates plot_model_cwd visual_path "resnet_34_binary.png"
    (build_resnet_34_binary o plot_model_cwd visual_path input_shape g)
    (build o input_shape 1 (basic_block o) [3; 4; 6; 3] "binary" g) /\
  delegates plot_model_cwd visual_path "resnet_50.png"
    (build_resnet_50 o plot_model_cwd visual_path input_shape num_outputs g)
    (build o input_shape num_outputs (bottleneck o) [3; 4; 6; 3]
       "categorical" g) /\
  delegates plot_model_cwd visual_path "resnet_101.png"
    (build_resnet_101 o plot_model_cwd visual_path input_shape num_outputs g)
    (build o input_shape num_outputs (bottleneck o) [3; 4; 23; 3]
       "categorical" g) /\
  delegates plot_model_cwd visual_path "resnet_152.png"
    (build_resnet_152 o plot_model_cwd visual_path input_shape num_outputs g)
    (build o input_shape num_outputs (bottleneck o) [3; 8; 36; 3]
       "categorical" g).
Proof.
  unfold delegates, build_resnet_18, build_resnet_34, build_resnet_34_binary,
    build_resnet_50, build_resnet_101, build_resnet_152.
  repeat split;
    match goal with
    | |- context [bind ?b _ g] =>
        unfold bind at 1; destruct (b g) as [[e | m] g1]; cbn [fst snd rbind];
        try reflexivity;
        unfold bind, lift, ret;
        destruct (plot_model_cwd m visual_path _) as [e | []]; reflexivity
    end.
Qed.

(** C4. For every repetitions list, the stage loop of [build] calls the
    block function stage after stage on the argument pairs of
    [network_calls]; stage [i] makes exactly [r_i] calls (none when [r_i]
    is not positive), each with [64 * 2^i] filters, so the filter count
    starts at 64 and doubles from each stage to the next.  In every run
    of [build] that returns a model, these calls, made on the output of
    the stem, have built the graph that the classifier head is added
    to. *)
Theorem stage_repetitions_and_filters block_fn repetitions :
  (forall pool1 g,
     build_stages block_fn repetitions pool1 g =
     (block <- run_calls block_fn (concat (network_calls 0 repetitions)) pool1 ;;
      ret (block, 64 * 2 ^ Z.of_nat (length repetitions))) g) /\
  length (network_calls 0 repetitions) = length repetitions /\
  (forall i r,
     nth_error repetitions i = Some r ->
     exists calls,
       nth_error (network_calls 0 repetitions) i = Some calls /\
       Z.of_nat (length calls) = Z.max 0 r /\
       Forall (fun call => fst call = 64 * 2 ^ Z.of_nat i) calls) /\
  (forall o input_shape num_outputs mode g m g',
     build o input_shape num_outputs block_fn repetitions mode g = (inr m, g') ->
     exists conv_shape pool_shape block g_stages head,
       run_calls block_fn (concat (network_calls 0 repetitions))
         (mk_tensor (length g + 4) pool_shape)
         (g ++ stem_nodes o (length g) input_shape conv_shape pool_shape)
         = (inr block, g_stages) /\
       g' = g_stages ++ head /\ length head = 3%nat).
Proof.
  split; [intros; apply build_stages_calls |].
  split; [apply length_network_calls |]. split.
  - intros i r H. exists (stage_calls i r). split.
    + now rewrite (nth_network_calls repetitions 0 i r H).
    + split; [apply length_stage_calls | apply filters_stage_calls].
  - intros o input_shape num_outputs mode g m g' H. apply build_inv in H.
    destruct H as (conv_shape & pool_shape & block & nf & g_stages & rows &
                   cols & pool2_shape & flat_shape & dense & units & n & _ &
                   Hst & _ & _ & _ & _ & _ & -> & _).
    rewrite build_stages_calls in Hst. minv.
    match goal with
    | H : (_, _) = (_, _) |- _ => inversion H; clear H; subst
    end.
    exists conv_shape, pool_shape. do 3 eexists.
    split; [eassumption |]. split; reflexivity.
Qed.

Lemma stage_repetitions_and_filters_witness :
  (nth_error [3; 4; 6; 3] 2 = Some 6 /\
   exists calls,
     nth_error (network_calls 0 [3; 4; 6; 3]) 2 = Some calls /\
     Z.of_nat (length calls) = Z.max 0 6 /\
     Forall (fun call => fst call = 64 * 2 ^ Z.of_nat 2) calls) /\
  exists m g',
    build th [Some 3; Some 224; Some 224] 1000 (bottleneck th) [3; 4; 6; 3]
      "categorical" [] = (inr m, g') /\
    exists conv_shape pool_shape block g_stages head,
      run_calls (bottleneck th) (concat (network_calls 0 [3; 4; 6; 3]))
        (mk_tensor (length (@nil node) + 4) pool_shape)
        ([] ++ stem_nodes th (length (@nil node)) [Some 3; Some 224; Some 224]
                 conv_shape pool_shape)
        = (inr block, g_stages) /\
      g' = g_stages ++ head /\ length head = 3%nat.
Proof.
  pose proof (stage_repetitions_and_filters (bottleneck th) [3; 4; 6; 3])
    as (_ & _ & Hcalls & Hbuild).
  split.
  - split; [reflexivity |]. exact (Hcalls 2%nat 6 eq_refl).
  - destruct (build th [Some 3; Some 224; Some 224] 1000 (bottleneck th)
                [3; 4; 6; 3] "categorical" []) as [[e | m] g'] eqn:E.
    + vm_compute in E. discriminate E.
    + exists m, g'. split; [reflexivity |].
      exact (Hbuild th [Some 3; Some 224; Some 224] 1000 "categorical" [] m g' E).
Defined.

(** C5. In the calls of the stage loop, the block at position [j] of
    stage [i] is invoked with init_subsample (2, 2) when it is the first
    block of a stage other than the first, and with (1, 1) otherwise.
    With [basic_block] or [bottleneck], a stage of at least one block
    on a fully known input with even row and column sizes returns a tensor
    with exactly half the rows and columns when it is not the first
    stage, and with the same rows and columns when it is. *)
Theorem stage_subsampling o block_fn repetitions pool1 g :
  build_stages block_fn repetitions pool1 g =
    (block <- run_calls block_fn (concat (network_calls 0 repetitions)) pool1 ;;
     ret (block, 64 * 2 ^ Z.of_nat (length repetitions))) g /\
  (forall i r,
     nth_error repetitions i = Some r ->
     exists calls,
       nth_error (network_calls 0 repetitions) i = Some calls /\
       forall j call,
         nth_error calls j = Some call ->
         snd call = if negb (i =? 0)%nat && (j =? 0)%nat then (2, 2) else (1, 1)) /\
  (block_fn = basic_block o \/ block_fn = bottleneck o ->
   forall nb_filters r is_first_layer input n c rows cols,
     0 < nb_filters -> 1 <= r ->
     _keras_shape input = shape4 o n (Some c) (Some rows) (Some cols) ->
     0 < c -> 0 < rows -> 0 < cols -> (2 | rows) -> (2 | cols) ->
     exists out g' c',
       _residual_block block_fn nb_filters r is_first_layer input g = (inr out, g') /\
       _keras_shape out =
         shape4 o n (Some c')
           (Some (if is_first_layer then rows else rows / 2))
           (Some (if is_first_layer then cols else cols / 2))).
Proof.
  split; [apply build_stages_calls |]. split.
  - intros i r H. exists (stage_calls i r). split.
    + now rewrite (nth_network_calls repetitions 0 i r H).
    + intros j call. apply subsample_stage_calls.
  - intros Hblock nb_filters r is_first_layer input n c rows cols Hf Hr Hin Hc
      Hrows Hcols Er Ec.
    destruct Hblock as [-> | ->].
    + apply (_residual_block_halves o (basic_block o) 1 ltac:(lia)
               (basic_block_well_shaped o) nb_filters r is_first_layer input g
               n c rows cols); auto.
    + apply (_residual_block_halves o (bottleneck o) 4 ltac:(lia)
               (bottleneck_well_shaped o) nb_filters r is_first_layer input g
               n c rows cols); auto.
Qed.

Lemma stage_subsampling_witness :
  let input := mk_tensor 4 (shape4 th None (Some 64) (Some 56) (Some 56)) in
  (nth_error [2; 2; 2; 2] 1 = Some 2 /\
   exists calls,
     nth_error (network_calls 0 [2; 2; 2; 2]) 1 = Some calls /\
     forall j call,
       nth_error calls j = Some call ->
       snd call = if negb (1 =? 0)%nat && (j =? 0)%nat then (2, 2) else (1, 1)) /\
  ((0 < 128 /\ 1 <= 2 /\ 0 < 64 /\ 0 < 56 /\ (2 | 56)) /\
   exists out g' c',
     _residual_block (basic_block th) 128 2 false input [] = (inr out, g') /\
     _keras_shape out =
       shape4 th None (Some c') (Some (56 / 2)) (Some (56 / 2))).
Proof.
  intros input.
  pose proof (stage_subsampling th (basic_block th) [2; 2; 2; 2] input [])
    as (_ & Hcalls & Hhalf).
  assert (D : (2 | 56)) by (exists 28; reflexivity).
  split.
  - split; [reflexivity |]. exact (Hcalls 1%nat 2 eq_refl).
  - split; [repeat split; try lia; exact D |].
    exact (Hhalf (or_introl eq_refl) 128 2 false input None 64 56 56
             ltac:(lia) ltac:(lia) eq_refl ltac:(lia) ltac:(lia) ltac:(lia) D D).
Defined.

(** C6, as amended.  Every model object that [build] returns is not
    compiled: it carries no loss and no optimizer; its input is the input
    layer and its output is the last node of the graph, the dense layer.
    With [basic_block] or [bottleneck], a positive number of outputs, a
    valid mode and a fully known input shape with positive sizes below
    [2^63] whose rows and columns, after the stem, can be halved once per
    later stage, [build] does return a model. *)
Theorem build_returns_uncompiled_model o block_fn num_outputs repetitions
    mode g :
  (forall input_shape m g',
     build o input_shape num_outputs block_fn repetitions mode g = (inr m, g') ->
     is_compiled m = false /\ loss m = None /\ optimizer m = None /\
     model_input m = mk_tensor (length g) (None :: input_shape) /\
     exists n units,
       model_output m = mk_tensor (length g' - 1) [n; Some units] /\
       nth_error g' (length g' - 1) =
         Some (mk_node (if (mode =? "binary")%string
                        then Dense 1 "he_normal" "sigmoid"
                        else Dense num_outputs "he_normal" "softmax")
                 [(length g' - 2)%nat] [n; Some units])) /\
  (forall c r w,
     block_fn = basic_block o \/ block_fn = bottleneck o ->
     0 < c -> 0 < r < 2 ^ 63 -> 0 < w < 2 ^ 63 -> 0 < num_outputs ->
     (2 ^ Z.of_nat (length repetitions - 1) | stem_size r) ->
     (2 ^ Z.of_nat (length repetitions - 1) | stem_size w) ->
     mode = "categorical" \/ mode = "binary" ->
     exists m g',
       build o (shape3 o (Some c) (Some r) (Some w)) num_outputs block_fn
         repetitions mode g = (inr m, g')).
Proof.
  split.
  - intros input_shape m g' H. apply build_inv in H.
    destruct H as (conv_shape & pool_shape & block & nf & g_stages & rows &
                   cols & pool2_shape & flat_shape & dense & units & n & _ & _ &
                   _ & _ & _ & _ & Hmode & -> & ->).
    repeat (split; [reflexivity |]).
    exists n, units. unfold head_nodes.
    rewrite length_app. cbn [length model_output new_Model].
    replace (length g_stages + 3 - 1)%nat with (length g_stages + 2)%nat by lia.
    split; [reflexivity |].
    rewrite nth_error_app2 by lia.
    replace (length g_stages + 2 - length g_stages)%nat with 2%nat by lia.
    cbn [nth_error].
    replace (length g_stages + 3 - 2)%nat with (S (length g_stages)) by lia.
    destruct Hmode as [(-> & -> & ->) | (-> & -> & ->)]; reflexivity.
  - intros c r w Hblock Hc Hr Hw Hout Dr Dw Hmode.
    assert (H : exists expansion,
               0 < expansion /\ well_shaped_block o block_fn expansion).
    { destruct Hblock as [-> | ->].
      - exists 1. split; [lia | apply basic_block_well_shaped].
      - exists 4. split; [lia | apply bottleneck_well_shaped]. }
    destruct H as (expansion & Hexp & Hws).
    pose proof (stem_size_le r ltac:(lia)) as Br.
    pose proof (stem_size_le w ltac:(lia)) as Bw.
    destruct (build_returns o block_fn expansion c r w num_outputs repetitions
                mode g Hexp Hws Hc ltac:(lia) ltac:(lia) ltac:(lia) ltac:(lia)
                Dr Dw) as (m & g' & E & _).
    + destruct Hmode as [-> | ->]; auto.
    + now exists m, g'.
Qed.

Lemma build_returns_uncompiled_model_witness :
  (0 < 3 /\ 0 < 224 < 2 ^ 63 /\ 0 < 1000 /\
   (2 ^ Z.of_nat (length [3; 4; 6; 3] - 1) | stem_size 224)) /\
  exists m g',
    build th (shape3 th (Some 3) (Some 224) (Some 224)) 1000 (bottleneck th)
      [3; 4; 6; 3] "categorical" [] = (inr m, g') /\
    is_compiled m = false /\ loss m = None /\ optimizer m = None /\
    model_input m =
      mk_tensor (length (@nil node))
        (None :: shape3 th (Some 3) (Some 224) (Some 224)).
Proof.
  assert (D : (2 ^ Z.of_nat (length [3; 4; 6; 3] - 1) | stem_size 224))
    by (exists 7; reflexivity).
  assert (B : 0 < 224 < 2 ^ 63) by (split; reflexivity).
  pose proof (build_returns_uncompiled_model th (bottleneck th) 1000
                [3; 4; 6; 3] "categorical" []) as [Hmodel Hreturns].
  split; [repeat split; try lia; try exact D; reflexivity |].
  destruct (Hreturns 3 224 224 (or_intror eq_refl) ltac:(lia) B B ltac:(lia)
              D D (or_introl eq_refl)) as (m & g' & E).
  exists m, g'. split; [exact E |].
  destruct (Hmodel _ m g' E) as (H1 & H2 & H3 & H4 & _). auto.
Defined.

(** C6 as stated fails: the model [build] returns for ResNet-18 on a
    3 x 224 x 224 input is not compiled. *)
Lemma build_result_not_compiled_counterexample :
  exists m g',
    build th [Some 3; Some 224; Some 224] 1000 (basic_block th) [2; 2; 2; 2]
      "categorical" [] = (inr m, g') /\
    is_compiled m = false.
Proof.
  destruct (build th [Some 3; Some 224; Some 224] 1000 (basic_block th)
              [2; 2; 2; 2] "categorical" []) as [[e | m] g'] eqn:E.
  - vm_compute in E. discriminate E.
  - exists m, g'. split; [reflexivity |].
    apply build_inv in E.
    destruct E as (? & ? & ? & ? & ? & ? & ? & ? & ? & ? & ? & ? & E).
    destruct E as (_ & _ & _ & _ & _ & _ & _ & _ & ->). reflexivity.
Qed.

(** The caller compiles: [main] hands the model of the builder to
    [summary] with a loss and an optimizer, which the builder had not
    attached. *)
Lemma main_compiles o plot_model_cwd visual_path summary g m g1 :
  build_resnet_18 o plot_model_cwd visual_path [Some 3; Some 224; Some 224]
    1000 g = (inr m, g1) ->
  is_compiled m = false /\
  is_compiled (compile m "categorical_crossentropy" "sgd") = true /\
  main o plot_model_cwd visual_path summary g =
    (rbind (summary (compile m "categorical_crossentropy" "sgd"))
       (fun _ => inr tt), g1).
Proof.
  intros H. split; [| split; [reflexivity |]].
  - unfold build_resnet_18 in H.
    apply bind_inr in H. destruct H as (m' & g2 & Hb & H).
    apply bind_inr in H. destruct H as (u & g3 & _ & H).
    apply ret_inr in H. destruct H as [-> _].
    apply build_inv in Hb.
    destruct Hb as (? & ? & ? & ? & ? & ? & ? & ? & ? & ? & ? & ? & Hb).
    destruct Hb as (_ & _ & _ & _ & _ & _ & _ & _ & ->). reflexivity.
  - unfold main. rewrite (bind_step _ _ _ _ _ H). cbv zeta.
    unfold bind, lift, ret.
    destruct (summary _) as [e | []]; reflexivity.
Qed.

(** C7. On a fully known 4D input whose row and column sizes the
    strides divide, [basic_block] and [bottleneck] return.  Whenever one
    of them returns, the graph has grown by the block's residual path,
    built from the block's input, followed by the sum of the input with
    the end of that path, where the input enters the sum either as it is
    or through a 1x1 projection convolution; the block's output is that
    sum. *)
Theorem block_output_is_sum o nb_filters init_subsample input g :
  (forall n c r w s1 s2,
     init_subsample = (s1, s2) ->
     _keras_shape input = shape4 o n (Some c) (Some r) (Some w) ->
     0 < nb_filters -> 0 < c -> 0 < r -> 0 < w -> 0 < s1 -> 0 < s2 ->
     (s1 | r) -> (s2 | w) ->
     (exists out g',
        basic_block o nb_filters init_subsample input g = (inr out, g')) /\
     (exists out g',
        bottleneck o nb_filters init_subsample input g = (inr out, g'))) /\
  (forall out g',
     basic_block o nb_filters init_subsample input g = (inr out, g') ->
     exists s1 s2 projection,
       g' = g ++ basic_block_path o (length g) input nb_filters init_subsample
                   s1 s2
              ++ sum_nodes (length g + 6) input (mk_tensor (length g + 5) s2)
                   projection /\
       (projection = None \/
        exists l, projection = Some l /\ is_projection_1x1 l) /\
       out = mk_tensor (length g' - 1) s2) /\
  (forall out g',
     bottleneck o nb_filters init_subsample input g = (inr out, g') ->
     exists s1 s2 s3 projection,
       g' = g ++ bottleneck_path o (length g) input nb_filters init_subsample
                   s1 s2 s3
              ++ sum_nodes (length g + 9) input (mk_tensor (length g + 8) s3)
                   projection /\
       (projection = None \/
        exists l, projection = Some l /\ is_projection_1x1 l) /\
       out = mk_tensor (length g' - 1) s3).
Proof.
  split; [| split].
  - intros n c r w s1 s2 -> Hin Hf Hc Hr Hw Hs1 Hs2 D1 D2. split.
    + destruct (basic_block_well_shaped o nb_filters s1 s2 input g n c r w Hin
                  Hf Hc Hr Hw Hs1 Hs2 D1 D2) as (out & g' & E & _).
      now exists out, g'.
    + destruct (bottleneck_well_shaped o nb_filters s1 s2 input g n c r w Hin
                  Hf Hc Hr Hw Hs1 Hs2 D1 D2) as (out & g' & E & _).
      now exists out, g'.
  - intros out g' H. apply basic_block_inv in H.
    destruct H as (s1 & s2 & p & H1 & H2 & H3 & _). now exists s1, s2, p.
  - intros out g' H. apply bottleneck_inv in H.
    destruct H as (s1 & s2 & s3 & p & H1 & H2 & H3 & _). now exists s1, s2, s3, p.
Qed.

Lemma block_output_is_sum_witness :
  let input := mk_tensor 4 (shape4 th None (Some 64) (Some 56) (Some 56)) in
  (0 < 128 /\ 0 < 64 /\ 0 < 56 /\ 0 < 2 /\ (2 | 56)) /\
  exists out g',
    basic_block th 128 (2, 2) input [] = (inr out, g') /\
    exists s1 s2 projection,
      g' = [] ++ basic_block_path th (length (@nil node)) input 128 (2, 2) s1 s2
              ++ sum_nodes (length (@nil node) + 6) input
                   (mk_tensor (length (@nil node) + 5) s2) projection /\
      (projection = None \/ exists l, projection = Some l /\ is_projection_1x1 l) /\
      out = mk_tensor (length g' - 1) s2.
Proof.
  intros input.
  assert (D : (2 | 56)) by (exists 28; reflexivity).
  pose proof (block_output_is_sum th 128 (2, 2) input []) as (Hreturns & Hsum & _).
  split; [repeat split; try lia; exact D |].
  destruct (Hreturns None 64 56 56 2 2 eq_refl eq_refl ltac:(lia) ltac:(lia)
              ltac:(lia) ltac:(lia) ltac:(lia) ltac:(lia) D D)
    as [(out & g' & E) _].
  exists out, g'. split; [exact E |]. exact (Hsum out g' E).
Defined.

(** C8. Whenever [bottleneck] returns, its residual path is, in order, a
    1x1 convolution with [nb_filters] filters that carries the stride, a
    3x3 convolution with [nb_filters] filters and a 1x1 convolution with
    [nb_filters * 4] filters, each preceded by batch normalization and
    relu; their outputs have [nb_filters], [nb_filters] and
    [nb_filters * 4] channels. *)
Theorem bottleneck_residual_path o nb_filters init_subsample input g out g' :
  bottleneck o nb_filters init_subsample input g = (inr out, g') ->
  exists s1 s2 s3 rest,
    g' = g ++ bottleneck_path o (length g) input nb_filters init_subsample
                s1 s2 s3 ++ rest /\
    map node_layer
      (bottleneck_path o (length g) input nb_filters init_subsample s1 s2 s3) =
      [ BatchNormalization 0 (CHANNEL_AXIS o); Activation "relu";
        Convolution2D (Some nb_filters) 1 1 init_subsample "he_normal" same;
        BatchNormalization 0 (CHANNEL_AXIS o); Activation "relu";
        Convolution2D (Some nb_filters) 3 3 (1, 1) "he_normal" same;
        BatchNormalization 0 (CHANNEL_AXIS o); Activation "relu";
        Convolution2D (Some (nb_filters * 4)) 1 1 (1, 1) "he_normal" same ] /\
    getitem s1 (CHANNEL_AXIS o) = inr (Some nb_filters) /\
    getitem s2 (CHANNEL_AXIS o) = inr (Some nb_filters) /\
    getitem s3 (CHANNEL_AXIS o) = inr (Some (nb_filters * 4)) /\
    _keras_shape out = s3.
Proof.
  intros H. apply bottleneck_inv in H.
  destruct H as (s1 & s2 & s3 & p & H1 & _ & H3 & C1 & C2 & C3).
  exists s1, s2, s3, (sum_nodes (length g + 9) input (mk_tensor (length g + 8) s3) p).
  split; [exact H1 |]. split; [reflexivity |]. subst out. auto.
Qed.

Lemma bottleneck_residual_path_witness :
  let input := mk_tensor 0 [None; Some 64; Some 56; Some 56] in
  let g := [mk_node (Input [Some 64; Some 56; Some 56]) [] (_keras_shape input)] in
  exists out g',
    bottleneck th 64 (1, 1) input g = (inr out, g') /\
    exists s1 s2 s3 rest,
      g' = g ++ bottleneck_path th (length g) input 64 (1, 1) s1 s2 s3 ++ rest /\
      map node_layer (bottleneck_path th (length g) input 64 (1, 1) s1 s2 s3) =
        [ BatchNormalization 0 (CHANNEL_AXIS th); Activation "relu";
          Convolution2D (Some 64) 1 1 (1, 1) "he_normal" same;
          BatchNormalization 0 (CHANNEL_AXIS th); Activation "relu";
          Convolution2D (Some 64) 3 3 (1, 1) "he_normal" same;
          BatchNormalization 0 (CHANNEL_AXIS th); Activation "relu";
          Convolution2D (Some (64 * 4)) 1 1 (1, 1) "he_normal" same ] /\
      getitem s1 (CHANNEL_AXIS th) = inr (Some 64) /\
      getitem s2 (CHANNEL_AXIS th) = inr (Some 64) /\
      getitem s3 (CHANNEL_AXIS th) = inr (Some (64 * 4)) /\
      _keras_shape out = s3.
Proof.
  intros input g.
  destruct (bottleneck th 64 (1, 1) input g) as [[e | out] g'] eqn:E.
  - vm_compute in E. discriminate E.
  - exists out, g'. split; [reflexivity |].
    exact (bottleneck_residual_path th 64 (1, 1) input g out g' E).
Defined.

(** C9, as amended.  [build] raises when [input_shape] does not have three
    entries, and it raises when the mode is neither "categorical" nor
    "binary".  The shape is checked first: the exception is raised with
    the graph untouched.  The mode is checked last: with three entries and
    an invalid mode, whatever the construction of the graph up to the
    flatten layer raises is raised, with the graph it leaves, and when
    that construction succeeds the invalid mode is rejected with the
    graph built up to the flatten node and no dense node.  That
    construction is what a run with a valid mode does before it adds its
    dense layer.  With [basic_block] or [bottleneck], an exception of the
    module itself is raised only in these two cases; the other exceptions
    of a run come from the layers of the framework. *)
Theorem build_raises o input_shape num_outputs block_fn repetitions mode g :
  (length input_shape <> 3%nat ->
   build o input_shape num_outputs block_fn repetitions mode g =
   (inl (Exception "Input shape should be a tuple (nb_channels, nb_rows, nb_cols)"),
    g)) /\
  (length input_shape = 3%nat -> mode <> "categorical" -> mode <> "binary" ->
   (exists e g_err,
      build o input_shape num_outputs block_fn repetitions mode g = (inl e, g_err)) /\
   match build_until_flatten o input_shape block_fn repetitions g with
   | (inr _, g_flat) =>
       build o input_shape num_outputs block_fn repetitions mode g =
       (inl (Exception "mode should either be categorical or binary"), g_flat) /\
       exists g_stages pool2 flatten1,
         g_flat = g_stages ++ [pool2; flatten1] /\
         node_layer flatten1 = Flatten
   | (inl e, g_err) =>
       build o input_shape num_outputs block_fn repetitions mode g = (inl e, g_err)
   end /\
   forall valid_mode,
     valid_mode = "categorical" \/ valid_mode = "binary" ->
     build o input_shape num_outputs block_fn repetitions valid_mode g =
     (p <- build_until_flatten o input_shape block_fn repetitions ;;
      dense <- call o (if (valid_mode =? "binary")%string
                       then Dense 1 "he_normal" "sigmoid"
                       else Dense num_outputs "he_normal" "softmax") [snd p] ;;
      ret (new_Model (fst p) dense)) g) /\
  (block_fn = basic_block o \/ block_fn = bottleneck o ->
   forall msg g',
     build o input_shape num_outputs block_fn repetitions mode g
       = (inl (Exception msg), g') ->
     length input_shape <> 3%nat /\ g' = g /\
     msg = "Input shape should be a tuple (nb_channels, nb_rows, nb_cols)" \/
     length input_shape = 3%nat /\ mode <> "categorical" /\ mode <> "binary" /\
     msg = "mode should either be categorical or binary" /\
     exists g_stages pool2 flatten1,
       g' = g_stages ++ [pool2; flatten1] /\ node_layer flatten1 = Flatten).
Proof.
  split; [apply build_bad_shape |]. split.
  - intros Hlen H1 H2.
    assert (Hvalid : forall valid_mode,
      valid_mode = "categorical" \/ valid_mode = "binary" ->
      build o input_shape num_outputs block_fn repetitions valid_mode g =
      (p <- build_until_flatten o input_shape block_fn repetitions ;;
       dense <- call o (if (valid_mode =? "binary")%string
                        then Dense 1 "he_normal" "sigmoid"
                        else Dense num_outputs "he_normal" "softmax") [snd p] ;;
       ret (new_Model (fst p) dense)) g).
    { intros valid_mode Hm. rewrite build_split by assumption.
      unfold classifier_head. destruct Hm as [-> | ->]; reflexivity. }
    rewrite build_split by assumption.
    destruct (build_until_flatten o input_shape block_fn repetitions g)
      as [[e | [input flatten1]] g_flat] eqn:P.
    + rewrite (bind_fail _ _ _ _ _ P).
      split; [now exists e, g_flat |]. split; [reflexivity | exact Hvalid].
    + rewrite (bind_step _ _ _ _ _ P). cbn [fst snd].
      rewrite (bind_fail _ _ _ _ _
                 (classifier_head_invalid o mode num_outputs flatten1 g_flat H1 H2)).
      split; [now do 2 eexists |]. split; [| exact Hvalid].
      split; [reflexivity |].
      apply build_until_flatten_inv in P.
      destruct P as (conv_shape & pool_shape & block & nf & g_stages & rows &
                     cols & pool2_shape & flat_shape & _ & _ & _ & _ & _ & _ &
                     -> & _).
      do 3 eexists. split; reflexivity.
  - intros Hblock msg g' H.
    assert (Hfw : forall f sub x, framework_only (block_fn f sub x)).
    { destruct Hblock as [-> | ->]; intros f sub x;
        [apply framework_only_basic_block | apply framework_only_bottleneck]. }
    destruct (Nat.eq_dec (length input_shape) 3) as [Hlen | Hlen].
    + right. rewrite build_split in H by assumption.
      apply bind_inl in H. destruct H as [H | ([input flatten1] & g1 & P & H)].
      * apply framework_only_until_flatten in H; [discriminate H | exact Hfw].
      * cbn [fst snd] in H. apply bind_inl in H.
        destruct H as [H | (d & g2 & _ & H)]; [| discriminate H].
        unfold classifier_head in H.
        destruct (mode =? "categorical")%string eqn:E1;
          [apply framework_only_call in H; discriminate H |].
        destruct (mode =? "binary")%string eqn:E2;
          [apply framework_only_call in H; discriminate H |].
        apply String.eqb_neq in E1. apply String.eqb_neq in E2.
        inversion H; subst.
        apply build_until_flatten_inv in P.
        destruct P as (conv_shape & pool_shape & block & nf & g_stages & rows &
                       cols & pool2_shape & flat_shape & _ & _ & _ & _ & _ & _ &
                       -> & _).
        repeat (split; [assumption || reflexivity |]).
        do 3 eexists. split; reflexivity.
    + left. rewrite build_bad_shape in H by assumption. inversion H. auto.
Qed.

Lemma build_raises_witness :
  (length [Some 224; Some 224] <> 3%nat /\
   build th [Some 224; Some 224] 1000 (basic_block th) [2; 2; 2; 2]
     "categorical" [] =
   (inl (Exception "Input shape should be a tuple (nb_channels, nb_rows, nb_cols)"),
    [])) /\
  ((length [Some 3; Some 32; Some 32] = 3%nat /\
    "multilabel" <> "categorical" /\ "multilabel" <> "binary") /\
   exists e g_err,
     build th [Some 3; Some 32; Some 32] 10 (basic_block th) [1; 1]
       "multilabel" [] = (inl e, g_err)) /\
  (length [Some 3; Some 32; Some 32] = 3%nat /\
   "multilabel" <> "categorical" /\ "multilabel" <> "binary" /\
   exists g_stages pool2 flatten1,
     snd (build th [Some 3; Some 32; Some 32] 10 (basic_block th) [1; 1]
            "multilabel" []) = g_stages ++ [pool2; flatten1] /\
     node_layer flatten1 = Flatten).
Proof.
  assert (N : length [Some 224; Some 224] <> 3%nat) by discriminate.
  assert (N1 : "multilabel" <> "categorical") by discriminate.
  assert (N2 : "multilabel" <> "binary") by discriminate.
  pose proof (build_raises th [Some 224; Some 224] 1000 (basic_block th)
                [2; 2; 2; 2] "categorical" []) as [Hshape _].
  pose proof (build_raises th [Some 3; Some 32; Some 32] 10 (basic_block th)
                [1; 1] "multilabel" []) as (_ & Hmode & Hown).
  destruct (Hmode eq_refl N1 N2) as (Hraises & _ & _).
  split; [split; [exact N | exact (Hshape N)] |].
  split; [split; [repeat split; assumption | exact Hraises] |].
  destruct (build th [Some 3; Some 32; Some 32] 10 (basic_block th) [1; 1]
              "multilabel" []) as [[[msg | | | | |] | m] g'] eqn:E;
    try (vm_compute in E; discriminate E).
  destruct (Hown (or_introl eq_refl) msg g' eq_refl)
    as [(Hlen & _) | (Hlen & M1 & M2 & _ & Hgraph)].
  - exfalso. apply Hlen. reflexivity.
  - repeat (split; [assumption |]). exact Hgraph.
Defined.

(** C9 as stated fails: ResNet-18 on a 3 x 100 x 100 input has three
    entries in its shape and a valid mode, and [build] raises: the first
    strided block gets 25 rows, its residual path 13, and the sum of the
    two is rejected. *)
Lemma build_raises_on_valid_arguments_counterexample :
  length [Some 3; Some 100; Some 100] = 3%nat /\
  ("categorical" = "categorical" \/ "categorical" = "binary") /\
  fst (build th [Some 3; Some 100; Some 100] 1000 (basic_block th) [2; 2; 2; 2]
         "categorical" []) = inl (KerasShapeError "Merge").
Proof.
  split; [reflexivity |]. split; [now left |]. vm_compute. reflexivity.
Qed.

(** Unknown spatial sizes are another such case: the first block divides
    [None] by [None]. *)
Example build_raises_on_unknown_sizes :
  fst (build th [Some 3; None; None] 1000 (basic_block th) [2; 2; 2; 2]
         "categorical" []) = inl TypeError.
Proof. vm_compute. reflexivity. Qed.

(** C10. In "binary" mode the result of [build] does not depend on
    [num_outputs], and when a model is returned the last node is a dense
    layer of output dimension 1 with sigmoid activation, fed by the node
    before it; in "categorical" mode the last node is a dense layer of
    output dimension [num_outputs] with softmax activation.  In both
    modes the model's output is that node. *)
Theorem classifier_head_by_mode o input_shape num_outputs block_fn repetitions g :
  (forall num_outputs',
     build o input_shape num_outputs block_fn repetitions "binary" g =
     build o input_shape num_outputs' block_fn repetitions "binary" g) /\
  (forall m g',
     build o input_shape num_outputs block_fn repetitions "binary" g = (inr m, g') ->
     exists g_flat n,
       g' = g_flat ++ [mk_node (Dense 1 "he_normal" "sigmoid")
                         [(length g_flat - 1)%nat] [n; Some 1]] /\
       model_output m = mk_tensor (length g_flat) [n; Some 1]) /\
  (forall m g',
     build o input_shape num_outputs block_fn repetitions "categorical" g
       = (inr m, g') ->
     exists g_flat n,
       g' = g_flat ++ [mk_node (Dense num_outputs "he_normal" "softmax")
                         [(length g_flat - 1)%nat] [n; Some num_outputs]] /\
       model_output m = mk_tensor (length g_flat) [n; Some num_outputs]).
Proof.
  split; [reflexivity |].
  split; intros m g' H; apply build_inv in H;
    destruct H as (conv_shape & pool_shape & block & nf & g_stages & rows &
                   cols & pool2_shape & flat_shape & dense & units & n & _ & _ &
                   _ & _ & _ & _ & Hmode & -> & ->);
    destruct Hmode as [(Hm & -> & ->) | (Hm & -> & ->)]; try discriminate Hm;
    eexists (g_stages ++ [_; _]), n; unfold head_nodes;
    rewrite <- app_assoc, length_app; cbn [app length];
    (split; [| cbn [model_output new_Model]; reflexivity]);
    repeat f_equal; lia.
Qed.

Lemma classifier_head_by_mode_witness :
  exists m g',
    build th [Some 3; Some 32; Some 32] 10 (basic_block th) [1; 1] "binary" []
      = (inr m, g') /\
    exists g_flat n,
      g' = g_flat ++ [mk_node (Dense 1 "he_normal" "sigmoid")
                        [(length g_flat - 1)%nat] [n; Some 1]] /\
      model_output m = mk_tensor (length g_flat) [n; Some 1].
Proof.
  destruct (build th [Some 3; Some 32; Some 32] 10 (basic_block th) [1; 1]
              "binary" []) as [[e | m] g'] eqn:E.
  - vm_compute in E. discriminate E.
  - exists m, g'. split; [reflexivity |].
    exact (proj1 (proj2 (classifier_head_by_mode th [Some 3; Some 32; Some 32]
                           10 (basic_block th) [1; 1] [])) m g' E).
Defined.

(** * Further properties of the module *)

(** ** When [_shortcut] returns *)

Lemma ceil_floor_divides r r' :
  0 < r -> 0 < r' -> r / r' <> 0 ->
  (r + r / r' - 1) / (r / r') = r' -> (r' | r).
Proof.
  intros Hr Hr' Hq E.
  assert (Hq0 : 0 <= r / r') by (apply Z.div_pos; lia).
  pose proof (Z.div_mod r r' ltac:(lia)) as Hdm.
  pose proof (Z.mod_pos_bound r r' Hr') as Hm.
  pose proof (Z.mul_succ_div_gt (r + r / r' - 1) (r / r') ltac:(lia)) as Hgt.
  rewrite E in Hgt.
  exists (r / r'). nia.
Qed.

Lemma half_up_divides r :
  0 < r -> (((r + 2 - 1) / 2 | r) <-> r = 1 \/ (2 | r)).
Proof.
  intros Hr. split.
  - intros [k Hk].
    pose proof (Z.div_mod (r + 2 - 1) 2 ltac:(lia)) as Hdm.
    pose proof (Z.mod_pos_bound (r + 2 - 1) 2 ltac:(lia)) as Hm.
    set (h := (r + 2 - 1) / 2) in *.
    assert (Hh : 0 < h) by lia.
    destruct (Z.eq_dec ((r + 2 - 1) mod 2) 1) as [E1 | E1].
    + right. exists h. lia.
    + left. assert (E : r = 2 * h - 1) by lia.
      assert (Hone : h * (2 - k) = 1) by lia.
      apply Z.mul_eq_1 in Hone. lia.
  - intros [-> | [k ->]].
    + exists 1. reflexivity.
    + replace (k * 2 + 2 - 1) with (k * 2 + 1) by lia.
      rewrite Z.div_add_l by lia. rewrite Z.div_small by lia.
      exists 2. lia.
Qed.

Section ShortcutReturns.

Variable o : dim_ordering.

Lemma shape4_inj n c r w n' c' r' w' :
  shape4 o n c r w = shape4 o n' c' r' w' ->
  n = n' /\ c = c' /\ r = r' /\ w = w'.
Proof. destruct o; intros H; inversion H; auto. Qed.

Lemma conv_output_length_inv l k b s d :
  conv_output_length (Some l) (Some k) b s = inr d ->
  s <> 0 /\
  d = Some ((match b with same => l | valid => l - k + 1 end + s - 1) / s).
Proof.
  cbn [conv_output_length]. unfold floordiv.
  destruct (s =? 0) eqn:E; cbn [rbind]; [discriminate |].
  intros [= <-]. apply Z.eqb_neq in E. auto.
Qed.

(** A 1x1 convolution without padding returns only with non-zero
    strides, and then divides the sizes rounding up. *)
Lemma conv_valid_1x1_inv f s1 s2 init n c r w out :
  get_output_shape_for o (Convolution2D f 1 1 (s1, s2) init valid)
    [shape4 o n (Some c) (Some r) (Some w)] = inr out ->
  s1 <> 0 /\ s2 <> 0 /\
  exists k,
    f = Some k /\
    out = shape4 o n (Some k) (Some ((r + s1 - 1) / s1)) (Some ((w + s2 - 1) / s2)).
Proof.
  intros H. cbn [get_output_shape_for] in H.
  destruct o; cbn [window_output_shape shape4 fst snd] in H; rinv;
    repeat match goal with
    | H : conv_output_length _ _ _ _ = inr _ |- _ =>
        apply conv_output_length_inv in H; destruct H as [? ->]
    end;
    (split; [assumption |]; split; [assumption |]);
    eexists; (split; [reflexivity |]);
    replace (r - 1 + 1) with r by lia; replace (w - 1 + 1) with w by lia;
    reflexivity.
Qed.

Lemma _shortcut_returns_inv input residual g n c r w c' r' w' out g' :
  _keras_shape input = shape4 o n (Some c) (Some r) (Some w) ->
  _keras_shape residual = shape4 o n (Some c') (Some r') (Some w') ->
  0 < r -> 0 < w -> 0 < r' -> 0 < w' ->
  _shortcut o input residual g = (inr out, g') ->
  (r' | r) /\ (w' | w).
Proof.
  intros Hin Hres Hr Hw Hr' Hw' H. unfold _shortcut in H.
  rewrite Hin, Hres in H.
  rewrite !getitem_row, !getitem_col, !getitem_channel in H.
  repeat (first [rewrite bind_lift in H | rewrite floordiv_ok in H by lia];
          cbv beta in H; cbn [dim_floordiv] in H).
  apply bind_inr in H. destruct H as (shortcut & g1 & Hs & Hm).
  unfold merge in Hm. apply call_inr in Hm. destruct Hm as (s & Hm & _ & _).
  cbn [map] in Hm. apply merge_shape in Hm. destruct Hm as [_ Heq].
  rewrite Hres in Heq.
  destruct ((r / r' >? 1) || (w / w' >? 1) || negb (dim_eqb (Some c') (Some c))).
  - apply call_inr in Hs. destruct Hs as (s1 & Hs & -> & _).
    cbn [map] in Hs. rewrite Hin in Hs. apply conv_valid_1x1_inv in Hs.
    destruct Hs as (Q1 & Q2 & k & _ & ->). cbn [_keras_shape] in Heq.
    apply shape4_inj in Heq. destruct Heq as (_ & _ & E1 & E2).
    injection E1 as E1. injection E2 as E2.
    split; apply ceil_floor_divides; auto.
  - apply ret_inr in Hs. destruct Hs as [-> _]. rewrite Hin in Heq.
    apply shape4_inj in Heq. destruct Heq as (_ & _ & E1 & E2).
    injection E1 as <-. injection E2 as <-. split; apply Z.divide_refl.
Qed.

Lemma _shortcut_returns input residual g n c r w c' r' w' :
  _keras_shape input = shape4 o n (Some c) (Some r) (Some w) ->
  _keras_shape residual = shape4 o n (Some c') (Some r') (Some w') ->
  0 < r -> 0 < w -> 0 < r' -> 0 < w' -> 0 < c -> 0 < c' ->
  (exists out g', _shortcut o input residual g = (inr out, g')) <->
  (r' | r) /\ (w' | w).
Proof.
  intros Hin Hres Hr Hw Hr' Hw' Hc Hc'. split.
  - intros (out & g' & H).
    exact (_shortcut_returns_inv input residual g n c r w c' r' w' out g'
             Hin Hres Hr Hw Hr' Hw' H).
  - intros [[q Hq] [p Hp]].
    assert (0 < q) by nia. assert (0 < p) by nia.
    destruct (_shortcut_ok o input residual g n c r w c' r' w' q p Hin Hres)
      as (out & g' & E & _); try assumption.
    now exists out, g'.
Qed.

(** A block that strides by (2, 2) returns exactly when each size is 1
    or even. *)
Lemma strided_block_returns block_fn nb_filters input g n c r w :
  block_fn = basic_block o \/ block_fn = bottleneck o ->
  _keras_shape input = shape4 o n (Some c) (Some r) (Some w) ->
  0 < r -> 0 < w -> 0 < nb_filters -> 0 < c ->
  (exists out g', block_fn nb_filters (2, 2) input g = (inr out, g')) <->
  (r = 1 \/ (2 | r)) /\ (w = 1 \/ (2 | w)).
Proof.
  intros Hblock Hin Hr Hw Hf Hc.
  - rewrite <- (half_up_divides r Hr), <- (half_up_divides w Hw).
    pose proof (stem_step_pos r Hr) as Pr. pose proof (stem_step_pos w Hw) as Pw.
    destruct Hblock as [-> | ->].
    + unfold basic_block.
      destruct (_bn_relu_conv_ok o nb_filters 3 3 2 2 input g n c r w Hin)
        as (conv1 & g1 & E1 & S1); try lia.
      rewrite (bind_step _ _ _ _ _ E1).
      destruct (_bn_relu_conv_ok o nb_filters 3 3 1 1 conv1 g1 _ _ _ _ S1)
        as (residual & g2 & E2 & S2); try lia.
      rewrite (bind_step _ _ _ _ _ E2). rewrite !ceil_div_1 in S2.
      apply (_shortcut_returns input residual g2 n c r w _ _ _ Hin S2);
        assumption.
    + unfold bottleneck.
      destruct (_bn_relu_conv_ok o nb_filters 1 1 2 2 input g n c r w Hin)
        as (c1 & g1 & E1 & S1); try lia.
      rewrite (bind_step _ _ _ _ _ E1).
      destruct (_bn_relu_conv_ok o nb_filters 3 3 1 1 c1 g1 _ _ _ _ S1)
        as (c3 & g2 & E2 & S2); try lia.
      rewrite (bind_step _ _ _ _ _ E2). rewrite !ceil_div_1 in S2.
      destruct (_bn_relu_conv_ok o (nb_filters * 4) 1 1 1 1 c3 g2 _ _ _ _ S2)
        as (residual & g3 & E3 & S3); try lia.
      rewrite (bind_step _ _ _ _ _ E3). rewrite !ceil_div_1 in S3.
      apply (_shortcut_returns input residual g3 n c r w _ _ _ Hin S3);
        assumption || lia.
Qed.

End ShortcutReturns.

(** X1. On fully known shapes with positive sizes, positive channel
    counts and the same batch entry, [_shortcut] returns exactly when the
    residual's row size divides the input's row size and the residual's
    column size divides the input's: this is when the floor ratios of the
    sizes are the strides that the projection needs. *)
Theorem shortcut_returns_iff o input residual g n c r w c' r' w' :
  _keras_shape input = shape4 o n (Some c) (Some r) (Some w) ->
  _keras_shape residual = shape4 o n (Some c') (Some r') (Some w') ->
  0 < r -> 0 < w -> 0 < r' -> 0 < w' -> 0 < c -> 0 < c' ->
  (exists out g', _shortcut o input residual g = (inr out, g')) <->
  (r' | r) /\ (w' | w).
Proof.
  intros Hin Hres Hr Hw Hr' Hw' Hc Hc'. split.
  - intros (out & g' & H).
    exact (_shortcut_returns_inv o input residual g n c r w c' r' w' out g'
             Hin Hres Hr Hw Hr' Hw' H).
  - intros [[q Hq] [p Hp]].
    assert (0 < q) by nia. assert (0 < p) by nia.
    destruct (_shortcut_ok o input residual g n c r w c' r' w' q p Hin Hres)
      as (out & g' & E & _); try assumption.
    now exists out, g'.
Qed.

Lemma shortcut_returns_iff_witness :
  let input := mk_tensor 4 (shape4 th None (Some 64) (Some 56) (Some 56)) in
  let residual := mk_tensor 10 (shape4 th None (Some 128) (Some 28) (Some 28)) in
  (0 < 56 /\ 0 < 28 /\ 0 < 64 /\ 0 < 128) /\
  ((exists out g', _shortcut th input residual [] = (inr out, g')) <->
   (28 | 56) /\ (28 | 56)).
Proof.
  intros input residual. split; [lia |].
  exact (shortcut_returns_iff th input residual [] None 64 56 56 128 28 28
           eq_refl eq_refl ltac:(lia) ltac:(lia) ltac:(lia) ltac:(lia)
           ltac:(lia) ltac:(lia)).
Defined.

(** X2. [_shortcut] reads the row entries of both shapes before anything
    else: a shape too short for the row axis raises [IndexError], an
    unknown row size raises [TypeError], and a residual row size of 0
    raises [ZeroDivisionError]; in each case no node is added. *)
Theorem shortcut_raises o input residual g :
  ((length (_keras_shape input) <= ROW_AXIS o)%nat ->
   _shortcut o input residual g = (inl IndexError, g)) /\
  (forall a,
     getitem (_keras_shape input) (ROW_AXIS o) = inr a ->
     ((length (_keras_shape residual) <= ROW_AXIS o)%nat ->
      _shortcut o input residual g = (inl IndexError, g)) /\
     (forall b,
        getitem (_keras_shape residual) (ROW_AXIS o) = inr b ->
        (a = None \/ b = None ->
         _shortcut o input residual g = (inl TypeError, g)) /\
        (a <> None -> b = Some 0 ->
         _shortcut o input residual g = (inl ZeroDivisionError, g)))).
Proof.
  split.
  - intros Hlen. apply nth_error_None in Hlen.
    unfold _shortcut, getitem. now rewrite Hlen.
  - intros a Ha. split.
    + intros Hlen. apply nth_error_None in Hlen.
      unfold _shortcut. rewrite Ha, bind_lift.
      unfold getitem. now rewrite Hlen.
    + intros b Hb. unfold _shortcut. rewrite Ha, Hb, !bind_lift. split.
      * intros [-> | ->]; [reflexivity | now destruct a].
      * intros Hna ->. destruct a as [x |]; [reflexivity | congruence].
Qed.

Lemma shortcut_raises_witness :
  let input := mk_tensor 4 (shape4 th None (Some 64) None None) in
  let residual := mk_tensor 10 (shape4 th None (Some 64) None None) in
  let flat := mk_tensor 2 [None; Some 10] in
  ((length (_keras_shape flat) <= ROW_AXIS th)%nat /\
   _shortcut th flat residual [] = (inl IndexError, [])) /\
  _shortcut th input residual [] = (inl TypeError, []).
Proof.
  intros input residual flat. split.
  - assert (L : (length (_keras_shape flat) <= ROW_AXIS th)%nat)
      by (cbn; lia).
    split; [exact L |].
    exact (proj1 (shortcut_raises th flat residual []) L).
  - pose proof (shortcut_raises th input residual []) as [_ H].
    destruct (H None eq_refl) as [_ H'].
    destruct (H' None eq_refl) as [HT _].
    exact (HT (or_introl eq_refl)).
Defined.

(** X3. With [basic_block] or [bottleneck], a positive filter count and
    a fully known input with positive sizes and a positive channel
    count, a block that strides by (2, 2) returns exactly when each of
    the row and column sizes is 1 or even; a block with unit strides
    always returns. *)
Theorem strided_block_returns_iff o block_fn nb_filters input g n c r w :
  block_fn = basic_block o \/ block_fn = bottleneck o ->
  _keras_shape input = shape4 o n (Some c) (Some r) (Some w) ->
  0 < r -> 0 < w -> 0 < nb_filters -> 0 < c ->
  ((exists out g', block_fn nb_filters (2, 2) input g = (inr out, g')) <->
   (r = 1 \/ (2 | r)) /\ (w = 1 \/ (2 | w))) /\
  (exists out g', block_fn nb_filters (1, 1) input g = (inr out, g')).
Proof.
  intros Hblock Hin Hr Hw Hf Hc. split.
  - exact (strided_block_returns o block_fn nb_filters input g n c r w
             Hblock Hin Hr Hw Hf Hc).
  - destruct Hblock as [-> | ->].
    + destruct (basic_block_well_shaped o nb_filters 1 1 input g n c r w Hin)
        as (out & g' & E & _); try lia; try apply Z.divide_1_l.
      now exists out, g'.
    + destruct (bottleneck_well_shaped o nb_filters 1 1 input g n c r w Hin)
        as (out & g' & E & _); try lia; try apply Z.divide_1_l.
      now exists out, g'.
Qed.

Lemma strided_block_returns_iff_witness :
  let input := mk_tensor 4 (shape4 th None (Some 64) (Some 25) (Some 25)) in
  (0 < 25 /\ 0 < 128 /\ 0 < 64) /\
  ~ (exists out g', basic_block th 128 (2, 2) input [] = (inr out, g')).
Proof.
  intros input. split; [lia |].
  pose proof (strided_block_returns_iff th (basic_block th) 128 input [] None
                64 25 25 (or_introl eq_refl) eq_refl ltac:(lia) ltac:(lia)
                ltac:(lia) ltac:(lia))
    as [Hiff _].
  intros Hret. apply Hiff in Hret. destruct Hret as [[H1 | [k Hk]] _]; lia.
Defined.

(** ** The two layer chains *)

Section Chains.

Variable o : dim_ordering.

Lemma conv_same_zero_stride f kr kc s1 s2 init n c r w :
  0 < f -> 0 < c -> 0 < kr -> 0 < kc ->
  s1 = 0 \/ s2 = 0 ->
  get_output_shape_for o (Convolution2D (Some f) kr kc (s1, s2) init same)
    [shape4 o n (Some c) (Some r) (Some w)] = inl ZeroDivisionError.
Proof.
  intros Hf Hc Hkr Hkc H.
  destruct (Z.eq_dec s1 0) as [E1 | E1].
  - subst s1.
    destruct o;
      cbn [get_output_shape_for window_output_shape shape4 rbind defined
           fst snd conv_output_length];
      rewrite weights_ok by (repeat constructor; assumption); reflexivity.
  - destruct H as [H | ->]; [contradiction |]. apply Z.eqb_neq in E1.
    destruct o;
      cbn [get_output_shape_for window_output_shape shape4 rbind defined
           fst snd conv_output_length];
      rewrite weights_ok by (repeat constructor; assumption); cbn [rbind];
      unfold floordiv; rewrite E1; reflexivity.
Qed.

End Chains.

(** X4. With a positive filter count, positive kernel sizes and
    positive strides, on a fully known 4D input with a positive channel
    count, both chains return and add exactly three nodes:
    [_bn_relu_conv] adds batch normalization, relu and the convolution,
    [_conv_bn_relu] adds the convolution, batch normalization and relu.
    Both outputs have [nb_filter] channels and the input's sizes divided
    by the strides, rounded up, whatever the kernel size. *)
Theorem chains_return o nb_filter nb_row nb_col s1 s2 input g n c r w :
  _keras_shape input = shape4 o n (Some c) (Some r) (Some w) ->
  0 < nb_filter -> 0 < nb_row -> 0 < nb_col -> 0 < c ->
  0 < s1 -> 0 < s2 ->
  let out :=
    shape4 o n (Some nb_filter) (Some ((r + s1 - 1) / s1))
      (Some ((w + s2 - 1) / s2)) in
  _bn_relu_conv o nb_filter nb_row nb_col (s1, s2) input g =
    (inr (mk_tensor (length g + 2) out),
     g ++ bn_relu_conv_nodes o (length g) input nb_filter nb_row nb_col
            (s1, s2) out) /\
  _conv_bn_relu o nb_filter nb_row nb_col (s1, s2) input g =
    (inr (mk_tensor (length g + 2) out),
     g ++ [ mk_node (Convolution2D (Some nb_filter) nb_row nb_col (s1, s2)
                       "he_normal" same) [_keras_history input] out;
            mk_node (BatchNormalization 0 (CHANNEL_AXIS o)) [length g] out;
            mk_node (Activation "relu") [S (length g)] out ]).
Proof.
  intros Hin Hf Hkr Hkc Hc H1 H2 out. split.
  - unfold _bn_relu_conv.
    erewrite bind_step
      by (apply call_ok; cbn [map]; rewrite Hin; apply bn_shape4; lia).
    erewrite bind_step by (apply call_ok; reflexivity).
    erewrite call_ok
      by (cbn [map _keras_shape]; apply conv_same_shape4; lia).
    norm_graph. unfold bn_relu_conv_nodes. rewrite Hin.
    repeat f_equal; lia.
  - unfold _conv_bn_relu.
    erewrite bind_step
      by (apply call_ok; cbn [map]; rewrite Hin; apply conv_same_shape4; lia).
    erewrite bind_step
      by (apply call_ok; cbn [map _keras_shape]; apply bn_shape4; lia).
    erewrite call_ok by reflexivity.
    norm_graph. repeat f_equal; lia.
Qed.

Lemma chains_return_witness :
  let input := mk_tensor 0 (shape4 th None (Some 3) (Some 224) (Some 224)) in
  let g := [mk_node (Input [Some 3; Some 224; Some 224]) [] (_keras_shape input)] in
  (0 < 64 /\ 0 < 7 /\ 0 < 3 /\ 0 < 2) /\
  _conv_bn_relu th 64 7 7 (2, 2) input g =
    (inr (mk_tensor 3 [None; Some 64; Some 112; Some 112]),
     g ++
     [ mk_node (Convolution2D (Some 64) 7 7 (2, 2) "he_normal" same) [0%nat]
         [None; Some 64; Some 112; Some 112];
       mk_node (BatchNormalization 0 1) [1%nat]
         [None; Some 64; Some 112; Some 112];
       mk_node (Activation "relu") [2%nat] [None; Some 64; Some 112; Some 112] ]).
Proof.
  intros input g. split; [lia |].
  exact (proj2 (chains_return th 64 7 7 2 2 input g None 3 224 224 eq_refl
                  ltac:(lia) ltac:(lia) ltac:(lia) ltac:(lia) ltac:(lia)
                  ltac:(lia))).
Defined.

(** X5. With a positive filter count and positive kernel sizes, on a
    fully known 4D input with a positive channel count, a zero stride
    (the other stride not negative) makes both chains raise
    [ZeroDivisionError], but they leave different graphs behind:
    [_conv_bn_relu] fails on its first layer and adds nothing, while
    [_bn_relu_conv] has already added its batch normalization and relu
    nodes when the convolution fails. *)
Theorem chains_zero_stride o nb_filter nb_row nb_col s1 s2 input g n c r w :
  _keras_shape input = shape4 o n (Some c) (Some r) (Some w) ->
  0 < nb_filter -> 0 < nb_row -> 0 < nb_col -> 0 < c ->
  0 <= s1 -> 0 <= s2 -> s1 = 0 \/ s2 = 0 ->
  _conv_bn_relu o nb_filter nb_row nb_col (s1, s2) input g =
    (inl ZeroDivisionError, g) /\
  _bn_relu_conv o nb_filter nb_row nb_col (s1, s2) input g =
    (inl ZeroDivisionError,
     g ++ [ mk_node (BatchNormalization 0 (CHANNEL_AXIS o))
              [_keras_history input] (_keras_shape input);
            mk_node (Activation "relu") [length g] (_keras_shape input) ]).
Proof.
  intros Hin Hf Hkr Hkc Hc _ _ Hz. split.
  - unfold _conv_bn_relu, bind at 1, call at 1. cbn [map]. rewrite Hin.
    now rewrite conv_same_zero_stride.
  - unfold _bn_relu_conv.
    erewrite bind_step
      by (apply call_ok; cbn [map]; rewrite Hin; apply bn_shape4; lia).
    erewrite bind_step by (apply call_ok; reflexivity).
    unfold call. cbn [map _keras_shape]. rewrite conv_same_zero_stride by assumption.
    norm_graph. rewrite Hin. reflexivity.
Qed.

Lemma chains_zero_stride_witness :
  let input := mk_tensor 0 (shape4 th None (Some 3) (Some 8) (Some 8)) in
  let g := [mk_node (Input [Some 3; Some 8; Some 8]) [] (_keras_shape input)] in
  (0 < 64 /\ 0 < 3 /\ 0 <= 1 /\ (0 = 0 \/ 1 = 0)) /\
  _conv_bn_relu th 64 3 3 (0, 1) input g = (inl ZeroDivisionError, g) /\
  snd (_bn_relu_conv th 64 3 3 (0, 1) input g) =
    g ++
    [ mk_node (BatchNormalization 0 1) [0%nat] [None; Some 3; Some 8; Some 8];
      mk_node (Activation "relu") [1%nat] [None; Some 3; Some 8; Some 8] ].
Proof.
  intros input g.
  pose proof (chains_zero_stride th 64 3 3 0 1 input g None 3 8 8 eq_refl
                ltac:(lia) ltac:(lia) ltac:(lia) ltac:(lia) ltac:(lia)
                ltac:(lia) (or_introl eq_refl)) as [H1 H2].
  split; [repeat split; try lia; now left |]. split; [exact H1 |].
  rewrite H2. reflexivity.
Defined.

(** ** The graph stays in creation order *)

Lemma tensor_in_app g new t : tensor_in g t -> tensor_in (g ++ new) t.
Proof.
  intros (nd & Hn & Hs). exists nd. split; [| exact Hs].
  rewrite nth_error_app1; [exact Hn |].
  apply nth_error_Some. congruence.
Qed.

Lemma tensor_in_lt g t : tensor_in g t -> (_keras_history t < length g)%nat.
Proof. intros (nd & Hn & _). apply nth_error_Some. congruence. Qed.

Lemma sound_weaken {A : Type} (ts ts' : list tensor) (m : M A) outs :
  sound ts m outs -> (forall t, In t ts -> In t ts') -> sound ts' m outs.
Proof.
  intros Hm Hincl g r g' Hwf Hts H. apply (Hm g r g' Hwf); [| exact H].
  apply Forall_forall. intros t Ht. rewrite Forall_forall in Hts. auto.
Qed.

Lemma sound_bind {A B : Type} (ts : list tensor) (m : M A) (k : A -> M B)
    outs1 outs2 :
  sound ts m outs1 ->
  (forall a, sound (outs1 a ++ ts) (k a) outs2) ->
  sound ts (bind m k) outs2.
Proof.
  intros Hm Hk g r g' Hwf Hts H. unfold bind in H.
  destruct (m g) as [[e | a] g1] eqn:E.
  - destruct (Hm g (inl e) g1 Hwf Hts E) as (Hext & Hwf1 & _).
    inversion H; subst. split; [exact Hext |]. split; [exact Hwf1 |].
    intros a Ha. discriminate Ha.
  - destruct (Hm g (inr a) g1 Hwf Hts E) as ((new1 & ->) & Hwf1 & Hout).
    assert (Hts1 : Forall (tensor_in (g ++ new1)) (outs1 a ++ ts)).
    { apply Forall_app. split; [now apply Hout |].
      eapply Forall_impl; [| exact Hts]. intros t. apply tensor_in_app. }
    destruct (Hk a (g ++ new1) r g' Hwf1 Hts1 H) as ((new2 & ->) & Hwf2 & Hout2).
    split; [exists (new1 ++ new2); now rewrite app_assoc |]. now split.
Qed.

Lemma sound_ret {A : Type} (ts : list tensor) (a : A) outs :
  (forall t, In t (outs a) -> In t ts) -> sound ts (ret a) outs.
Proof.
  intros Hincl g r g' Hwf Hts H. inversion H; subst.
  split; [exists []; now rewrite app_nil_r |]. split; [exact Hwf |].
  intros a' Ha. inversion Ha; subst.
  apply Forall_forall. intros t Ht. rewrite Forall_forall in Hts. auto.
Qed.

Lemma sound_raise {A : Type} (ts : list tensor) (e : exn) (outs : A -> list tensor) :
  sound ts (raise e) outs.
Proof.
  intros g r g' Hwf Hts H. inversion H; subst.
  split; [exists []; now rewrite app_nil_r |]. split; [exact Hwf |].
  intros a Ha. discriminate Ha.
Qed.

Lemma sound_lift {A : Type} (ts : list tensor) (x : result A) :
  sound ts (lift x) (fun _ => []).
Proof.
  intros g r g' Hwf Hts H. inversion H; subst.
  split; [exists []; now rewrite app_nil_r |]. split; [exact Hwf |].
  intros a Ha. constructor.
Qed.

Lemma sound_call o l ins : sound ins (call o l ins) (fun t => [t]).
Proof.
  intros g r g' Hwf Hts H. unfold call in H.
  destruct (get_output_shape_for o l (map _keras_shape ins)) as [e | s];
    inversion H; subst.
  - split; [exists []; now rewrite app_nil_r |]. split; [exact Hwf |].
    intros a Ha. discriminate Ha.
  - split; [now eexists |]. split.
    + intros i nd Hi.
      destruct (Nat.lt_ge_cases i (length g)) as [Hlt | Hge].
      * rewrite nth_error_app1 in Hi by assumption. now apply (Hwf i).
      * rewrite nth_error_app2 in Hi by assumption.
        destruct (i - length g)%nat as [| j] eqn:Ej;
          [| destruct j; discriminate Hi].
        inversion Hi; subst. cbn [inbound].
        apply Forall_forall. intros j Hj. apply in_map_iff in Hj.
        destruct Hj as (t & <- & Ht). rewrite Forall_forall in Hts.
        pose proof (tensor_in_lt g t (Hts t Ht)). lia.
    + intros a Ha. inversion Ha; subst. constructor; [| constructor].
      exists (mk_node l (map _keras_history ins) s).
      split; [| reflexivity]. cbn [_keras_history].
      rewrite nth_error_app2 by lia. now rewrite Nat.sub_diag.
Qed.

Lemma sound_for {S X : Type} (xs : list X) (body : S -> X -> M S) outs :
  (forall s x, sound (outs s) (body s x) outs) ->
  forall s, sound (outs s) (for_ xs s body) outs.
Proof.
  intros Hbody. induction xs as [| x xs IH]; intros s; cbn [for_].
  - now apply sound_ret.
  - apply (sound_bind _ _ _ outs); [apply Hbody |].
    intros s'. apply (sound_weaken (outs s')); [apply IH |].
    intros t Ht. apply in_or_app. now left.
Qed.

(** One step on tensors that are at hand: a layer call followed by the
    rest of the computation. *)
Ltac sound_step :=
  match goal with
  | |- sound _ (bind (call _ _ _) _) _ =>
      apply (sound_bind _ _ _ (fun t => [t]));
      [ eapply sound_weaken; [apply sound_call | cbn; intuition] | intros ? ]
  | |- sound _ (bind (lift _) _) _ =>
      apply (sound_bind _ _ _ (fun _ => []));
      [ apply sound_lift | intros ? ]
  | |- sound _ (call _ _ _) _ =>
      eapply sound_weaken; [apply sound_call | cbn; intuition]
  end.

Section Soundness.

Variable o : dim_ordering.

Lemma sound_bn_relu_conv f kr kc sub x :
  sound [x] (_bn_relu_conv o f kr kc sub x) (fun t => [t]).
Proof. unfold _bn_relu_conv. repeat sound_step. Qed.

Lemma sound_conv_bn_relu f kr kc sub x :
  sound [x] (_conv_bn_relu o f kr kc sub x) (fun t => [t]).
Proof. unfold _conv_bn_relu. repeat sound_step. Qed.

Lemma sound_shortcut x residual :
  sound [x; residual] (_shortcut o x residual) (fun t => [t]).
Proof.
  unfold _shortcut, merge. repeat sound_step.
  apply (sound_bind _ _ _ (fun t => [t])).
  - destruct (_ || _ || _).
    + sound_step.
    + apply sound_ret. cbn. intuition.
  - intros shortcut. sound_step.
Qed.

Lemma sound_basic_block f sub x : sound [x] (basic_block o f sub x) (fun t => [t]).
Proof.
  unfold basic_block.
  apply (sound_bind _ _ _ (fun t => [t])); [apply sound_bn_relu_conv |].
  intros conv1. apply (sound_bind _ _ _ (fun t => [t])).
  - eapply sound_weaken; [apply sound_bn_relu_conv | cbn; intuition].
  - intros residual.
    eapply sound_weaken; [apply sound_shortcut | cbn; intuition].
Qed.

Lemma sound_bottleneck f sub x : sound [x] (bottleneck o f sub x) (fun t => [t]).
Proof.
  unfold bottleneck.
  apply (sound_bind _ _ _ (fun t => [t])); [apply sound_bn_relu_conv |].
  intros c1. apply (sound_bind _ _ _ (fun t => [t])).
  { eapply sound_weaken; [apply sound_bn_relu_conv | cbn; intuition]. }
  intros c3. apply (sound_bind _ _ _ (fun t => [t])).
  { eapply sound_weaken; [apply sound_bn_relu_conv | cbn; intuition]. }
  intros residual.
  eapply sound_weaken; [apply sound_shortcut | cbn; intuition].
Qed.

Lemma sound_build_stages block_fn repetitions pool1 :
  (forall f sub x, sound [x] (block_fn f sub x) (fun t => [t])) ->
  sound [pool1] (build_stages block_fn repetitions pool1) (fun s => [fst s]).
Proof.
  intros Hblock. unfold build_stages.
  refine (sound_for _ _ (fun s : tensor * Z => [fst s]) _ (pool1, 64)).
  intros [block nf] [i r]. cbn [fst].
  apply (sound_bind _ _ _ (fun t => [t])).
  - unfold _residual_block.
    refine (sound_for _ _ (fun t : tensor => [t]) _ block).
    intros x j. apply Hblock.
  - intros block'. apply sound_ret. cbn. intuition.
Qed.

Lemma sound_build input_shape num_outputs block_fn repetitions mode :
  (forall f sub x, sound [x] (block_fn f sub x) (fun t => [t])) ->
  sound [] (build o input_shape num_outputs block_fn repetitions mode)
    (fun m => [model_input m; model_output m]).
Proof.
  intros Hblock. unfold build.
  destruct (negb (length input_shape =? 3)%nat); [apply sound_raise |].
  sound_step. apply (sound_bind _ _ _ (fun t => [t])).
  { eapply sound_weaken; [apply sound_conv_bn_relu | cbn; intuition]. }
  intros conv1. sound_step.
  apply (sound_bind _ _ _ (fun s => [fst s])).
  { eapply sound_weaken; [apply sound_build_stages; exact Hblock | cbn; intuition]. }
  intros [block nf]. cbn [fst]. repeat sound_step.
  apply (sound_bind _ _ _ (fun t => [t])).
  - destruct (mode =? "categorical")%string; [sound_step |].
    destruct (mode =? "binary")%string; [sound_step | apply sound_raise].
  - intros dense. apply sound_ret. cbn [new_Model model_input model_output].
    cbn. intuition.
Qed.

End Soundness.

Lemma wf_graph_nil : wf_graph [].
Proof. intros i nd H. destruct i; discriminate H. Qed.

(** X6. Starting from a graph in creation order, [build] with
    [basic_block] or [bottleneck] only adds nodes at the end of the graph
    and keeps it in creation order, so that no node consumes its own
    output or a later one, whether [build] returns or raises; when it
    returns, the input and the output of the model are tensors of the
    graph. *)
Theorem build_keeps_creation_order o input_shape num_outputs block_fn
    repetitions mode g r g' :
  block_fn = basic_block o \/ block_fn = bottleneck o ->
  wf_graph g ->
  build o input_shape num_outputs block_fn repetitions mode g = (r, g') ->
  (exists new, g' = g ++ new) /\ wf_graph g' /\
  forall m, r = inr m -> tensor_in g' (model_input m) /\ tensor_in g' (model_output m).
Proof.
  intros Hblock Hwf H.
  assert (Hs : forall f sub x, sound [x] (block_fn f sub x) (fun t => [t])).
  { destruct Hblock as [-> | ->]; intros f sub x;
      [apply sound_basic_block | apply sound_bottleneck]. }
  destruct (sound_build o input_shape num_outputs block_fn repetitions mode Hs
              g r g' Hwf (Forall_nil _) H) as (Hext & Hwf' & Hout).
  split; [exact Hext |]. split; [exact Hwf' |].
  intros m Hm. specialize (Hout m Hm).
  inversion Hout as [| ? ? H1 Hrest]; subst.
  inversion Hrest; subst. now split.
Qed.

Lemma build_keeps_creation_order_witness :
  wf_graph [] /\
  exists r g',
    build th [Some 3; Some 100; Some 100] 1000 (basic_block th) [2; 2; 2; 2]
      "categorical" [] = (r, g') /\
    (exists new, g' = [] ++ new) /\ wf_graph g'.
Proof.
  split; [exact wf_graph_nil |].
  destruct (build th [Some 3; Some 100; Some 100] 1000 (basic_block th)
              [2; 2; 2; 2] "categorical" []) as [r g'] eqn:E.
  exists r, g'. split; [reflexivity |].
  destruct (build_keeps_creation_order th [Some 3; Some 100; Some 100] 1000
              (basic_block th) [2; 2; 2; 2] "categorical" [] r g'
              (or_introl eq_refl) wf_graph_nil E) as (Hext & Hwf & _).
  now split.
Defined.

(** ** Counting layers *)

Lemma count_app p (a b : graph) : count p (a ++ b) = (count p a + count p b)%nat.
Proof. unfold count. now rewrite filter_app, length_app. Qed.

Lemma length_stage_calls_nat i r : length (stage_calls i r) = Z.to_nat r.
Proof.
  unfold stage_calls. destruct (Z.to_nat r) as [| k]; [reflexivity |].
  cbn [length]. now rewrite repeat_length.
Qed.

Lemma length_network_concat repetitions :
  forall i0, length (concat (network_calls i0 repetitions)) = total_blocks repetitions.
Proof.
  induction repetitions as [| r reps IH]; intros i0; [reflexivity |].
  cbn [network_calls concat total_blocks fold_right].
  rewrite length_app, length_stage_calls_nat. f_equal. apply IH.
Qed.

Section BlockCounts.

Variable o : dim_ordering.
Variable block_fn : block_fn_type.
Variable k : nat.

(** Each returning call of the block function adds [k] convolutions of
    the main path, one sum and at most one projection. *)
Hypothesis block_counts :
  forall f sub x g y g',
    block_fn f sub x g = (inr y, g') ->
    exists new,
      g' = g ++ new /\
      count is_main_path_conv new = k /\ count is_sum new = 1%nat /\
      (count is_projection new <= 1)%nat /\ count is_dense new = 0%nat.

Lemma run_calls_counts calls :
  forall x g y g',
    run_calls block_fn calls x g = (inr y, g') ->
    exists new,
      g' = g ++ new /\
      count is_main_path_conv new = (k * length calls)%nat /\
      count is_sum new = length calls /\
      (count is_projection new <= length calls)%nat /\
      count is_dense new = 0%nat.
Proof.
  unfold run_calls. induction calls as [| [f sub] calls IH]; intros x g y g' H.
  - cbn [for_] in H. apply ret_inr in H. destruct H as [_ ->].
    exists []. rewrite app_nil_r. cbn. repeat split; lia.
  - cbn [for_] in H. apply bind_inr in H.
    destruct H as (x1 & g1 & H1 & H2).
    apply block_counts in H1.
    destruct H1 as (new1 & -> & M1 & S1 & P1 & D1).
    apply IH in H2. destruct H2 as (new2 & -> & M2 & S2 & P2 & D2).
    exists (new1 ++ new2). rewrite app_assoc, !count_app. cbn [length].
    repeat split; lia.
Qed.

Lemma build_counts input_shape num_outputs repetitions mode g m g' :
  build o input_shape num_outputs block_fn repetitions mode g = (inr m, g') ->
  exists new,
    g' = g ++ new /\
    count is_main_path_conv new = (1 + k * total_blocks repetitions)%nat /\
    count is_dense new = 1%nat /\
    count is_sum new = total_blocks repetitions /\
    (count is_projection new <= total_blocks repetitions)%nat.
Proof.
  intros H. apply build_inv in H.
  destruct H as (conv_shape & pool_shape & block & nf & g_stages & rows &
                 cols & pool2_shape & flat_shape & dense & units & n & _ &
                 Hst & _ & _ & _ & _ & Hmode & -> & _).
  rewrite build_stages_calls in Hst. apply bind_inr in Hst.
  destruct Hst as (y & g1 & Hrun & Hret). apply ret_inr in Hret.
  destruct Hret as [_ ->].
  apply run_calls_counts in Hrun.
  destruct Hrun as (new & -> & M & S & P & D).
  rewrite length_network_concat in M, S, P.
  exists (stem_nodes o (length g) input_shape conv_shape pool_shape ++ new ++
          head_nodes (length (g ++ stem_nodes o (length g) input_shape conv_shape
                                     pool_shape ++ new))
            block rows cols pool2_shape flat_shape dense [n; Some units]).
  split; [now rewrite <- !app_assoc |].
  rewrite !count_app, M, S, D.
  assert (Hd : count is_dense
                 (head_nodes (length (g ++ stem_nodes o (length g) input_shape
                                            conv_shape pool_shape ++ new))
                    block rows cols pool2_shape flat_shape dense [n; Some units])
               = 1%nat /\
               count is_main_path_conv
                 (head_nodes (length (g ++ stem_nodes o (length g) input_shape
                                            conv_shape pool_shape ++ new))
                    block rows cols pool2_shape flat_shape dense [n; Some units])
               = 0%nat /\
               count is_sum
                 (head_nodes (length (g ++ stem_nodes o (length g) input_shape
                                            conv_shape pool_shape ++ new))
                    block rows cols pool2_shape flat_shape dense [n; Some units])
               = 0%nat /\
               count is_projection
                 (head_nodes (length (g ++ stem_nodes o (length g) input_shape
                                            conv_shape pool_shape ++ new))
                    block rows cols pool2_shape flat_shape dense [n; Some units])
               = 0%nat).
  { destruct Hmode as [(_ & -> & _) | (_ & -> & _)]; repeat split. }
  destruct Hd as (-> & -> & -> & ->).
  change (count is_main_path_conv
            (stem_nodes o (length g) input_shape conv_shape pool_shape)) with 1%nat.
  change (count is_dense
            (stem_nodes o (length g) input_shape conv_shape pool_shape)) with 0%nat.
  change (count is_sum
            (stem_nodes o (length g) input_shape conv_shape pool_shape)) with 0%nat.
  change (count is_projection
            (stem_nodes o (length g) input_shape conv_shape pool_shape)) with 0%nat.
  repeat split; lia.
Qed.

End BlockCounts.

Lemma sum_nodes_counts at_ x residual projection :
  projection = None \/ (exists l, projection = Some l /\ is_projection_1x1 l) ->
  count is_main_path_conv (sum_nodes at_ x residual projection) = 0%nat /\
  count is_sum (sum_nodes at_ x residual projection) = 1%nat /\
  (count is_projection (sum_nodes at_ x residual projection) <= 1)%nat /\
  count is_dense (sum_nodes at_ x residual projection) = 0%nat.
Proof.
  intros [-> | (l & -> & f & sub & ->)]; cbn; repeat split; lia.
Qed.

Lemma basic_block_counts o f sub x g y g' :
  basic_block o f sub x g = (inr y, g') ->
  exists new,
    g' = g ++ new /\
    count is_main_path_conv new = 2%nat /\ count is_sum new = 1%nat /\
    (count is_projection new <= 1)%nat /\ count is_dense new = 0%nat.
Proof.
  intros H. apply basic_block_inv in H.
  destruct H as (s1 & s2 & p & -> & Hp & _).
  eexists. split; [reflexivity |]. rewrite !count_app.
  destruct (sum_nodes_counts (length g + 6) x (mk_tensor (length g + 5) s2) p Hp)
    as (-> & -> & P & ->).
  change (count is_main_path_conv (basic_block_path o (length g) x f sub s1 s2))
    with 2%nat.
  change (count is_sum (basic_block_path o (length g) x f sub s1 s2)) with 0%nat.
  change (count is_projection (basic_block_path o (length g) x f sub s1 s2))
    with 0%nat.
  change (count is_dense (basic_block_path o (length g) x f sub s1 s2)) with 0%nat.
  repeat split; lia.
Qed.

Lemma bottleneck_counts o f sub x g y g' :
  bottleneck o f sub x g = (inr y, g') ->
  exists new,
    g' = g ++ new /\
    count is_main_path_conv new = 3%nat /\ count is_sum new = 1%nat /\
    (count is_projection new <= 1)%nat /\ count is_dense new = 0%nat.
Proof.
  intros H. apply bottleneck_inv in H.
  destruct H as (s1 & s2 & s3 & p & -> & Hp & _).
  eexists. split; [reflexivity |]. rewrite !count_app.
  destruct (sum_nodes_counts (length g + 9) x (mk_tensor (length g + 8) s3) p Hp)
    as (-> & -> & P & ->).
  change (count is_main_path_conv (bottleneck_path o (length g) x f sub s1 s2 s3))
    with 3%nat.
  change (count is_sum (bottleneck_path o (length g) x f sub s1 s2 s3)) with 0%nat.
  change (count is_projection (bottleneck_path o (length g) x f sub s1 s2 s3))
    with 0%nat.
  change (count is_dense (bottleneck_path o (length g) x f sub s1 s2 s3)) with 0%nat.
  repeat split; lia.
Qed.

Lemma variant_returns (plot_model_cwd : Model -> string -> string -> result unit)
    (visual_path file : string) (b : M Model) g m g' :
  (model <- b ;;
   _ <- lift (plot_model_cwd model visual_path file) ;;
   ret model) g = (inr m, g') ->
  b g = (inr m, g').
Proof. intros H. minv. assumption. Qed.

(** X7. Every run of [build] that returns adds, besides the stem
    convolution and the dense layer, two convolutions of the main path
    per block with [basic_block] and three with [bottleneck]; projections
    are not counted.  So every run of a named constructor that returns
    has added as many such layers as its name says: 18, 34, 34, 50, 101
    and 152. *)
Theorem resnet_depth o plot_model_cwd visual_path input_shape num_outputs g m g' :
  (forall repetitions mode,
     build o input_shape num_outputs (basic_block o) repetitions mode g
       = (inr m, g') ->
     exists new,
       g' = g ++ new /\
       weighted_layers new = (2 + 2 * total_blocks repetitions)%nat) /\
  (forall repetitions mode,
     build o input_shape num_outputs (bottleneck o) repetitions mode g
       = (inr m, g') ->
     exists new,
       g' = g ++ new /\
       weighted_layers new = (2 + 3 * total_blocks repetitions)%nat) /\
  (build_resnet_18 o plot_model_cwd visual_path input_shape num_outputs g
     = (inr m, g') ->
   exists new, g' = g ++ new /\ weighted_layers new = 18%nat) /\
  (build_resnet_34 o plot_model_cwd visual_path input_shape num_outputs g
     = (inr m, g') ->
   exists new, g' = g ++ new /\ weighted_layers new = 34%nat) /\
  (build_resnet_34_binary o plot_model_cwd visual_path input_shape g
     = (inr m, g') ->
   exists new, g' = g ++ new /\ weighted_layers new = 34%nat) /\
  (build_resnet_50 o plot_model_cwd visual_path input_shape num_outputs g
     = (inr m, g') ->
   exists new, g' = g ++ new /\ weighted_layers new = 50%nat) /\
  (build_resnet_101 o plot_model_cwd visual_path input_shape num_outputs g
     = (inr m, g') ->
   exists new, g' = g ++ new /\ weighted_layers new = 101%nat) /\
  (build_resnet_152 o plot_model_cwd visual_path input_shape num_outputs g
     = (inr m, g') ->
   exists new, g' = g ++ new /\ weighted_layers new = 152%nat).
Proof.
  assert (Hbasic : forall n repetitions mode,
            build o input_shape n (basic_block o) repetitions mode g
              = (inr m, g') ->
            exists new,
              g' = g ++ new /\
              weighted_layers new = (2 + 2 * total_blocks repetitions)%nat).
  { intros n repetitions mode H.
    apply (build_counts o (basic_block o) 2 (basic_block_counts o)) in H.
    destruct H as (new & -> & M & D & _).
    exists new. split; [reflexivity |]. unfold weighted_layers. lia. }
  assert (Hbottle : forall repetitions mode,
            build o input_shape num_outputs (bottleneck o) repetitions mode g
              = (inr m, g') ->
            exists new,
              g' = g ++ new /\
              weighted_layers new = (2 + 3 * total_blocks repetitions)%nat).
  { intros repetitions mode H.
    apply (build_counts o (bottleneck o) 3 (bottleneck_counts o)) in H.
    destruct H as (new & -> & M & D & _).
    exists new. split; [reflexivity |]. unfold weighted_layers. lia. }
  split; [exact (Hbasic num_outputs) |]. split; [exact Hbottle |].
  repeat split; intros H; apply variant_returns in H.
  - exact (Hbasic _ _ _ H).
  - exact (Hbasic _ _ _ H).
  - exact (Hbasic _ _ _ H).
  - exact (Hbottle _ _ H).
  - exact (Hbottle _ _ H).
  - exact (Hbottle _ _ H).
Qed.

Lemma resnet_depth_witness :
  let plot := fun (_ : Model) (_ _ : string) => inr tt : result unit in
  exists m g',
    build_resnet_101 th plot "visual" [Some 3; Some 224; Some 224] 1000 []
      = (inr m, g') /\
    exists new, g' = [] ++ new /\ weighted_layers new = 101%nat.
Proof.
  intros plot.
  destruct (build_resnet_101 th plot "visual" [Some 3; Some 224; Some 224]
              1000 []) as [[e | m] g'] eqn:E.
  - vm_compute in E. discriminate E.
  - exists m, g'. split; [reflexivity |].
    pose proof (resnet_depth th plot "visual" [Some 3; Some 224; Some 224]
                  1000 [] m g') as (_ & _ & _ & _ & _ & _ & H & _).
    exact (H E).
Defined.

(** X8. Every run of [build] with [basic_block] or [bottleneck] that
    returns adds exactly one sum per block, that is as many as the
    positive entries of the repetitions list add up to, and at most one
    projection per block. *)
Theorem one_sum_per_block o input_shape num_outputs block_fn repetitions mode
    g m g' :
  block_fn = basic_block o \/ block_fn = bottleneck o ->
  build o input_shape num_outputs block_fn repetitions mode g = (inr m, g') ->
  exists new,
    g' = g ++ new /\
    count is_sum new = total_blocks repetitions /\
    (count is_projection new <= total_blocks repetitions)%nat.
Proof.
  intros [-> | ->] H.
  - apply (build_counts o (basic_block o) 2 (basic_block_counts o)) in H.
    destruct H as (new & -> & _ & _ & S & P). now exists new.
  - apply (build_counts o (bottleneck o) 3 (bottleneck_counts o)) in H.
    destruct H as (new & -> & _ & _ & S & P). now exists new.
Qed.

Lemma one_sum_per_block_witness :
  exists m g',
    build th [Some 3; Some 224; Some 224] 1000 (basic_block th) [2; 2; 2; 2]
      "categorical" [] = (inr m, g') /\
    exists new,
      g' = [] ++ new /\
      count is_sum new = total_blocks [2; 2; 2; 2] /\
      (count is_projection new <= total_blocks [2; 2; 2; 2]%Z)%nat.
Proof.
  destruct (build th [Some 3; Some 224; Some 224] 1000 (basic_block th)
              [2; 2; 2; 2] "categorical" []) as [[e | m] g'] eqn:E.
  - vm_compute in E. discriminate E.
  - exists m, g'. split; [reflexivity |].
    exact (one_sum_per_block th [Some 3; Some 224; Some 224] 1000
             (basic_block th) [2; 2; 2; 2] "categorical" [] m g'
             (or_introl eq_refl) E).
Defined.

(** ** Stages without blocks, and stages in two parts *)

Lemma range_nonpositive r : r <= 0 -> range r = [].
Proof. intros H. unfold range. now replace (Z.to_nat r) with 0%nat by lia. Qed.

Lemma network_calls_skipped repetitions :
  Forall (fun r => r <= 0) repetitions ->
  forall i0, concat (network_calls i0 repetitions) = [].
Proof.
  induction 1 as [| r reps Hr _ IH]; intros i0; [reflexivity |].
  cbn [network_calls concat]. rewrite IH. unfold stage_calls.
  now replace (Z.to_nat r) with 0%nat by lia.
Qed.

(** X9. An entry of the repetitions list that is not positive gives a
    stage without blocks: [_residual_block] returns its input and adds
    nothing.  When no entry is positive (the empty list included) the
    stage loop returns the output of the stem, the block function is
    never called, and [build] is what it is on the empty list, whatever
    the block function. *)
Theorem nonpositive_repetitions_skipped repetitions :
  Forall (fun r => r <= 0) repetitions ->
  (forall block_fn nb_filters r is_first_layer x g,
     r <= 0 ->
     _residual_block block_fn nb_filters r is_first_layer x g = (inr x, g)) /\
  (forall block_fn pool1 g,
     build_stages block_fn repetitions pool1 g =
     (inr (pool1, 64 * 2 ^ Z.of_nat (length repetitions)), g)) /\
  (forall o input_shape num_outputs block_fn block_fn' mode g,
     build o input_shape num_outputs block_fn repetitions mode g =
     build o input_shape num_outputs block_fn' [] mode g).
Proof.
  intros Hreps.
  assert (Hst : forall block_fn pool1 g,
            build_stages block_fn repetitions pool1 g =
            (inr (pool1, 64 * 2 ^ Z.of_nat (length repetitions)), g)).
  { intros block_fn pool1 g. rewrite build_stages_calls.
    now rewrite network_calls_skipped. }
  split; [| split; [exact Hst |]].
  - intros block_fn nb_filters r is_first_layer x g Hr.
    unfold _residual_block. now rewrite range_nonpositive.
  - intros o input_shape num_outputs block_fn block_fn' mode g. unfold build.
    destruct (negb (length input_shape =? 3)%nat); [reflexivity |].
    do 3 (apply bind_cong; intros).
    unfold bind at 1 3. now rewrite Hst.
Qed.

Lemma nonpositive_repetitions_skipped_witness :
  Forall (fun r => r <= 0) [0; -2] /\
  build th [Some 3; Some 32; Some 32] 10 (bottleneck th) [0; -2] "binary" [] =
  build th [Some 3; Some 32; Some 32] 10 (basic_block th) [] "binary" [].
Proof.
  assert (F : Forall (fun r => r <= 0) [0; -2]) by (repeat constructor; lia).
  split; [exact F |].
  pose proof (nonpositive_repetitions_skipped [0; -2] F) as (_ & _ & H).
  exact (H th [Some 3; Some 32; Some 32] 10 (bottleneck th) (basic_block th)
           "binary" []).
Defined.

Section StageSplits.

Variable block_fn : block_fn_type.

Lemma first_layer_calls nb_filters k :
  forall j0 x g,
    for_ (map Z.of_nat (seq j0 k)) x (fun input i =>
      let init_subsample :=
        if (i =? 0) && negb true then (2, 2) else (1, 1) in
      block_fn nb_filters init_subsample input) g =
    run_calls block_fn (repeat (nb_filters, (1, 1)) k) x g.
Proof.
  unfold run_calls. induction k as [| k IH]; intros j0 x g.
  - reflexivity.
  - cbn [seq map repeat for_]. cbv zeta. cbn [negb]. rewrite andb_false_r.
    apply bind_cong. intros x' g1. apply IH.
Qed.

End StageSplits.

(** X10. A stage of [a + b] blocks is a stage of [a] blocks followed by
    [b] more blocks that do not stride, as long as the first part has a
    block or the stage is the first one: only the first block of a stage
    can stride. *)
Theorem residual_block_splits block_fn nb_filters a b is_first_layer x g :
  0 <= a -> 0 <= b -> (1 <= a \/ is_first_layer = true) ->
  _residual_block block_fn nb_filters (a + b) is_first_layer x g =
  (y <- _residual_block block_fn nb_filters a is_first_layer x ;;
   _residual_block block_fn nb_filters b true y) g.
Proof.
  intros Ha Hb Hfirst. unfold _residual_block, range.
  rewrite Z2Nat.inj_add by assumption.
  rewrite seq_app, map_app, for__app.
  apply bind_cong. intros y g1.
  transitivity
    (run_calls block_fn (repeat (nb_filters, (1, 1)) (Z.to_nat b)) y g1).
  - destruct Hfirst as [H1 | ->].
    + apply unit_stride_calls. lia.
    + apply first_layer_calls.
  - symmetry. apply (first_layer_calls block_fn nb_filters (Z.to_nat b) 0).
Qed.

Lemma residual_block_splits_witness :
  let x := mk_tensor 4 (shape4 th None (Some 64) (Some 56) (Some 56)) in
  (0 <= 1 /\ 0 <= 3) /\
  _residual_block (basic_block th) 128 (1 + 3) false x [] =
  (y <- _residual_block (basic_block th) 128 1 false x ;;
   _residual_block (basic_block th) 128 3 true y) [].
Proof.
  intros x. split; [lia |].
  apply (residual_block_splits (basic_block th) 128 1 3 false x []);
    [lia | lia | left; lia].
Defined.

(** ** The width and the resolution of the last stage *)

Lemma pow2_succ k x : x * 2 * 2 ^ Z.of_nat k = x * 2 ^ Z.of_nat (S k).
Proof. rewrite Nat2Z.inj_succ, Z.pow_succ_r by lia. ring. Qed.

Lemma div_pow2_succ k x : x / 2 / 2 ^ Z.of_nat k = x / 2 ^ Z.of_nat (S k).
Proof.
  assert (Hp : 0 < 2 ^ Z.of_nat k) by (apply Z.pow_pos_nonneg; lia).
  rewrite Nat2Z.inj_succ, Z.pow_succ_r by lia. apply Z.div_div; lia.
Qed.

Lemma one_or_even s : (s =? 1) || Z.even s = true <-> s = 1 \/ (2 | s).
Proof.
  rewrite orb_true_iff, Z.eqb_eq, Z.even_spec. split.
  - intros [H | [q Hq]]; [now left | right; exists q; lia].
  - intros [H | [q Hq]]; [now left | right; exists q; lia].
Qed.

Lemma half_up_pos s : 0 < s -> 0 < half_up s.
Proof. apply stem_step_pos. Qed.

Lemma half_up_even s : (2 | s) -> half_up s = s / 2.
Proof. intros H. unfold half_up. apply ceil_div_exact; [lia | exact H]. Qed.

Lemma half_up_le s : 0 < s -> half_up s <= s.
Proof. intros H. unfold half_up. apply Z.div_le_upper_bound; lia. Qed.

Lemma halvings_le k : forall s, 0 < s -> 0 < halvings k s <= s.
Proof.
  induction k as [| k IH]; intros s Hs; cbn [halvings]; [lia |].
  pose proof (half_up_pos s Hs) as P. pose proof (half_up_le s Hs) as L.
  specialize (IH (half_up s) P). lia.
Qed.

(** Sizes that [2^k] divides can be halved [k] times. *)
Lemma divides_halvable k :
  forall s, 0 < s -> (2 ^ Z.of_nat k | s) ->
    halvable k s = true /\ halvings k s = s / 2 ^ Z.of_nat k.
Proof.
  induction k as [| k IH]; intros s Hs D.
  - cbn [halvable halvings]. change (2 ^ Z.of_nat 0) with 1.
    now rewrite Z.div_1_r.
  - destruct (pow2_step _ _ Hs D) as (E2 & _ & D2 & P2).
    cbn [halvable halvings]. rewrite (half_up_even s E2).
    destruct (IH (s / 2) P2 D2) as [H1 H2].
    rewrite H1, H2, div_pow2_succ, andb_true_r.
    split; [| reflexivity]. apply one_or_even. now right.
Qed.

(** So can the powers of two: they reach 1, and 1 stays 1. *)
Lemma pow2_halvable k : forall j, 0 <= j -> halvable k (2 ^ j) = true.
Proof.
  induction k as [| k IH]; intros j Hj; [reflexivity |].
  cbn [halvable]. apply andb_true_iff.
  destruct (Z.eq_dec j 0) as [-> | Hj0].
  - split; [reflexivity |]. exact (IH 0 ltac:(lia)).
  - assert (E : 2 ^ j = 2 ^ (j - 1) * 2).
    { replace j with (j - 1 + 1) at 1 by lia.
      rewrite Z.pow_add_r by lia. reflexivity. }
    split.
    + apply one_or_even. right. exists (2 ^ (j - 1)). exact E.
    + rewrite half_up_even by (exists (2 ^ (j - 1)); exact E).
      rewrite E, Z.div_mul by lia. apply IH. lia.
Qed.

Lemma halvable_inv k :
  forall s, 0 < s -> halvable k s = true ->
    (2 ^ Z.of_nat k | s) \/ exists j, 0 <= j /\ s = 2 ^ j.
Proof.
  induction k as [| k IH]; intros s Hs H.
  - left. apply Z.divide_1_l.
  - cbn [halvable] in H. apply andb_true_iff in H. destruct H as [H1 H2].
    apply one_or_even in H1. destruct H1 as [-> | [q Hq]].
    + right. exists 0. split; [lia | reflexivity].
    + rewrite half_up_even in H2 by (exists q; exact Hq).
      subst s. rewrite Z.div_mul in H2 by lia.
      destruct (IH q ltac:(lia) H2) as [[p Hp] | (j & Hj & E)].
      * left. exists p. rewrite <- pow2_succ. lia.
      * right. exists (j + 1). split; [lia |].
        rewrite Z.pow_add_r by lia. rewrite E. reflexivity.
Qed.

Section StageShapes.

Variable o : dim_ordering.
Variable block_fn : block_fn_type.
Variable expansion : Z.
Hypothesis expansion_pos : 0 < expansion.
Hypothesis block_ok : well_shaped_block o block_fn expansion.
Hypothesis block_half :
  forall nb_filters input g n c r w,
    _keras_shape input = shape4 o n (Some c) (Some r) (Some w) ->
    0 < nb_filters -> 0 < c ->
    0 < r -> 0 < w -> r = 1 \/ (2 | r) -> w = 1 \/ (2 | w) ->
    exists out g',
      block_fn nb_filters (2, 2) input g = (inr out, g') /\
      _keras_shape out =
        shape4 o n (Some (nb_filters * expansion))
          (Some (half_up r)) (Some (half_up w)).
Hypothesis block_strided_inv :
  forall nb_filters input g n c r w out g',
    _keras_shape input = shape4 o n (Some c) (Some r) (Some w) ->
    0 < nb_filters -> 0 < c -> 0 < r -> 0 < w ->
    block_fn nb_filters (2, 2) input g = (inr out, g') ->
    (r = 1 \/ (2 | r)) /\ (w = 1 \/ (2 | w)).

Lemma unit_stride_blocks_shape nb_filters is_first_layer n r w :
  0 < nb_filters -> 0 < r -> 0 < w ->
  forall js : list Z,
    (forall j, In j js -> (j =? 0) && negb is_first_layer = false) ->
    forall input g c,
      _keras_shape input = shape4 o n (Some c) (Some r) (Some w) -> 0 < c ->
      exists out g',
        for_ js input (fun input i =>
          let init_subsample :=
            if (i =? 0) && negb is_first_layer then (2, 2) else (1, 1) in
          block_fn nb_filters init_subsample input) g = (inr out, g') /\
        _keras_shape out =
          shape4 o n
            (Some (match js with [] => c | _ => nb_filters * expansion end))
            (Some r) (Some w).
Proof.
  intros Hf Hr Hw. induction js as [| j js IH]; intros Hjs input g c Hin Hc.
  - exists input, g. now split.
  - cbn [for_]. cbv zeta. rewrite (Hjs j) by now left.
    destruct (block_ok nb_filters 1 1 input g n c r w Hin)
      as (out & g1 & E & Sh); try lia; try apply Z.divide_1_l.
    rewrite (bind_step _ _ _ _ _ E). rewrite !Z.div_1_r in Sh.
    destruct (IH (fun j' Hj' => Hjs j' (or_intror Hj')) out g1 _ Sh
                ltac:(nia))
      as (out' & g' & E' & Sh').
    exists out', g'. split; [exact E' |]. rewrite Sh'. now destruct js.
Qed.

(** A stage with at least one block: its output has
    [nb_filters * expansion] channels, and the rows and columns halved
    (rounding up) unless it is the first stage. *)
Lemma _residual_block_shape nb_filters repetitions is_first_layer input g n c r w :
  1 <= repetitions -> 0 < nb_filters ->
  _keras_shape input = shape4 o n (Some c) (Some r) (Some w) ->
  0 < c -> 0 < r -> 0 < w ->
  (is_first_layer = false -> (r = 1 \/ (2 | r)) /\ (w = 1 \/ (2 | w))) ->
  exists out g',
    _residual_block block_fn nb_filters repetitions is_first_layer input g
      = (inr out, g') /\
    _keras_shape out =
      shape4 o n (Some (nb_filters * expansion))
        (Some (if is_first_layer then r else half_up r))
        (Some (if is_first_layer then w else half_up w)).
Proof.
  intros Hrep Hf Hin Hc Hr Hw Heven. unfold _residual_block, range.
  destruct (Z.to_nat repetitions) as [| k] eqn:Ek; [lia |].
  cbn [seq map for_]. cbv zeta. change (Z.of_nat 0 =? 0) with true.
  assert (Hrest : forall j, In j (map Z.of_nat (seq 1 k)) ->
                            (j =? 0) && negb is_first_layer = false).
  { intros j Hj. apply in_map_iff in Hj. destruct Hj as (i & <- & Hi).
    apply in_seq in Hi. replace (Z.of_nat i =? 0) with false; [reflexivity |].
    symmetry. apply Z.eqb_neq. lia. }
  destruct is_first_layer; cbn [negb andb].
  - destruct (block_ok nb_filters 1 1 input g n c r w Hin)
      as (out & g1 & E & Sh); try lia; try apply Z.divide_1_l.
    rewrite (bind_step _ _ _ _ _ E). rewrite !Z.div_1_r in Sh.
    destruct (unit_stride_blocks_shape nb_filters true n r w Hf Hr Hw _ Hrest
                out g1 _ Sh ltac:(nia)) as (out' & g' & E' & Sh').
    exists out', g'. split; [exact E' |]. rewrite Sh'.
    now destruct (map Z.of_nat (seq 1 k)).
  - destruct (Heven eq_refl) as [D1 D2].
    destruct (block_half nb_filters input g n c r w Hin Hf Hc Hr Hw D1 D2)
      as (out & g1 & E & Sh).
    rewrite (bind_step _ _ _ _ _ E).
    destruct (unit_stride_blocks_shape nb_filters false n _ _ Hf
                (half_up_pos r Hr) (half_up_pos w Hw) _ Hrest out g1 _ Sh
                ltac:(nia))
      as (out' & g' & E' & Sh').
    exists out', g'. split; [exact E' |]. rewrite Sh'.
    now destruct (map Z.of_nat (seq 1 k)).
Qed.

Lemma later_stages_shape n (repetitions : list Z) :
  Forall (fun r => 1 <= r) repetitions ->
  forall (i0 : nat) block nb_filters g c r w,
    (1 <= i0)%nat -> 0 < nb_filters ->
    _keras_shape block = shape4 o n (Some c) (Some r) (Some w) ->
    0 < c -> 0 < r -> 0 < w ->
    halvable (length repetitions) r = true ->
    halvable (length repetitions) w = true ->
    exists out g',
      for_ (combine (map Z.of_nat (seq i0 (length repetitions))) repetitions)
        (block, nb_filters)
        (fun '(block, nb_filters) '(i, r) =>
           block' <- _residual_block block_fn nb_filters r (i =? 0) block ;;
           ret (block', nb_filters * 2)) g =
        (inr (out, nb_filters * 2 ^ Z.of_nat (length repetitions)), g') /\
      _keras_shape out =
        shape4 o n
          (Some (match repetitions with
                 | [] => c
                 | _ => nb_filters * 2 ^ Z.of_nat (length repetitions - 1)
                        * expansion
                 end))
          (Some (halvings (length repetitions) r))
          (Some (halvings (length repetitions) w)).
Proof.
  induction 1 as [| rep reps Hrep _ IH];
    intros i0 block nb_filters g c r w Hi Hf Hin Hc Hr Hw Dr Dw.
  - exists block, g. cbn [length combine map seq for_ Nat.sub halvings].
    change (2 ^ Z.of_nat 0) with 1. rewrite Z.mul_1_r. now split.
  - cbn [length seq map combine for_]. cbv beta iota.
    cbn [length halvable] in Dr, Dw.
    apply andb_true_iff in Dr. destruct Dr as [Er Dr2].
    apply andb_true_iff in Dw. destruct Dw as [Ew Dw2].
    apply one_or_even in Er. apply one_or_even in Ew.
    assert (Hfirst : (Z.of_nat i0 =? 0) = false) by (apply Z.eqb_neq; lia).
    rewrite Hfirst.
    destruct (_residual_block_shape nb_filters rep false block g n c r w
                Hrep Hf Hin Hc Hr Hw (fun _ => conj Er Ew))
      as (out & g1 & E & Sh).
    rewrite (bind_step _ _ _ _ _ (stage_step _ _ _ _ _ _ _ _ E)).
    destruct (IH (S i0) out (nb_filters * 2) g1 _ _ _ ltac:(lia) ltac:(lia)
                Sh ltac:(nia) (half_up_pos r Hr) (half_up_pos w Hw) Dr2 Dw2)
      as (out' & g' & E' & Sh').
    exists out', g'. split.
    + rewrite E', pow2_succ. reflexivity.
    + rewrite Sh'. cbn [halvings Nat.sub]. rewrite Nat.sub_0_r.
      destruct reps as [| rep' reps'].
      * cbn [length]. change (2 ^ Z.of_nat 0) with 1. now rewrite Z.mul_1_r.
      * cbn [length Nat.sub]. rewrite Nat.sub_0_r, pow2_succ. reflexivity.
Qed.

Lemma build_stages_shape (repetitions : list Z) pool1 g n c r w :
  repetitions <> [] -> Forall (fun r => 1 <= r) repetitions ->
  _keras_shape pool1 = shape4 o n (Some c) (Some r) (Some w) ->
  0 < c -> 0 < r -> 0 < w ->
  halvable (length repetitions - 1) r = true ->
  halvable (length repetitions - 1) w = true ->
  exists out g',
    build_stages block_fn repetitions pool1 g =
      (inr (out, 64 * 2 ^ Z.of_nat (length repetitions)), g') /\
    _keras_shape out =
      shape4 o n
        (Some (64 * 2 ^ Z.of_nat (length repetitions - 1) * expansion))
        (Some (halvings (length repetitions - 1) r))
        (Some (halvings (length repetitions - 1) w)).
Proof.
  intros Hne Hall Hin Hc Hr Hw Dr Dw.
  destruct repetitions as [| rep reps]; [congruence |].
  inversion Hall as [| ? ? Hrep Hreps]; subst.
  unfold build_stages, enumerate.
  cbn [length seq map combine for_]. cbv beta iota.
  change (Z.of_nat 0 =? 0) with true.
  cbn [length Nat.sub] in Dr, Dw |- *. rewrite Nat.sub_0_r in Dr, Dw |- *.
  destruct (_residual_block_shape 64 rep true pool1 g n c r w Hrep
              ltac:(lia) Hin Hc Hr Hw)
    as (out & g1 & E & Sh); [discriminate |].
  rewrite (bind_step _ _ _ _ _ (stage_step _ _ _ _ _ _ _ _ E)).
  destruct (later_stages_shape n reps Hreps 1 out (64 * 2) g1 _ r w
              ltac:(lia) ltac:(lia) Sh ltac:(lia) Hr Hw Dr Dw)
    as (out' & g' & E' & Sh').
  exists out', g'. split.
  - rewrite E', pow2_succ. reflexivity.
  - rewrite Sh'. destruct reps as [| rep' reps'].
    + cbn [length]. change (2 ^ Z.of_nat 0) with 1. now rewrite Z.mul_1_r.
    + cbn [length Nat.sub]. rewrite Nat.sub_0_r, pow2_succ. reflexivity.
Qed.

Lemma stem_returns c r w g :
  0 < c -> 0 < r -> 0 < w ->
  exists pool1 g2,
    (input <- call o (Input (shape3 o (Some c) (Some r) (Some w))) [] ;;
     conv1 <- _conv_bn_relu o 64 7 7 (2, 2) input ;;
     pool1 <- call o (MaxPooling2D (3, 3) (2, 2) same) [conv1] ;;
     ret (input, pool1)) g =
      (inr (mk_tensor (length g) (None :: shape3 o (Some c) (Some r) (Some w)),
            pool1), g2) /\
    _keras_shape pool1 =
      shape4 o None (Some 64) (Some (stem_size r)) (Some (stem_size w)) /\
    0 < stem_size r /\ 0 < stem_size w.
Proof.
  intros Hc Hr Hw.
  erewrite bind_step by (apply call_ok; reflexivity).
  rewrite input_shape4.
  destruct (_conv_bn_relu_ok o 64 7 7 2 2
              (mk_tensor (length g) (shape4 o None (Some c) (Some r) (Some w)))
              (g ++ [mk_node (Input (shape3 o (Some c) (Some r) (Some w)))
                       (map _keras_history [])
                       (shape4 o None (Some c) (Some r) (Some w))])
              None c r w eq_refl)
    as (conv1 & g1 & E1 & S1); try lia.
  rewrite (bind_step _ _ _ _ _ E1).
  erewrite bind_step
    by (apply call_ok; cbn [map]; rewrite S1; apply max_pool_shape4; lia).
  do 2 eexists. split; [reflexivity |]. split; [reflexivity |].
  pose proof (stem_step_pos r Hr) as Pr1. pose proof (stem_step_pos w Hw) as Pw1.
  split; apply stem_step_pos; assumption.
Qed.

Lemma build_after_stem input_shape num_outputs repetitions mode g input pool1 g2 :
  length input_shape = 3%nat ->
  (input <- call o (Input input_shape) [] ;;
   conv1 <- _conv_bn_relu o 64 7 7 (2, 2) input ;;
   pool1 <- call o (MaxPooling2D (3, 3) (2, 2) same) [conv1] ;;
   ret (input, pool1)) g = (inr (input, pool1), g2) ->
  build o input_shape num_outputs block_fn repetitions mode g =
  ('(block, _) <- build_stages block_fn repetitions pool1 ;;
   rows <- lift (getitem (_keras_shape block) (ROW_AXIS o)) ;;
   cols <- lift (getitem (_keras_shape block) (COL_AXIS o)) ;;
   pool2 <- call o (AveragePooling2D (rows, cols) (1, 1) valid) [block] ;;
   flatten1 <- call o Flatten [pool2] ;;
   dense <- classifier_head o mode num_outputs flatten1 ;;
   ret (new_Model input dense)) g2.
Proof.
  intros Hlen H. unfold build. rewrite Hlen. cbn [Nat.eqb negb].
  apply bind_inr in H. destruct H as (input' & g0 & E0 & H).
  apply bind_inr in H. destruct H as (conv1 & g1 & E1 & H).
  apply bind_inr in H. destruct H as (pool1' & g2' & E2 & H).
  apply ret_inr in H. destruct H as [H ->]. injection H as <- <-.
  rewrite (bind_step _ _ _ _ _ E0), (bind_step _ _ _ _ _ E1),
    (bind_step _ _ _ _ _ E2).
  reflexivity.
Qed.

Lemma build_features c r w num_outputs repetitions mode g :
  repetitions <> [] -> Forall (fun r => 1 <= r) repetitions ->
  0 < c -> 0 < r -> 0 < w ->
  halvable (length repetitions - 1) (stem_size r) = true ->
  halvable (length repetitions - 1) (stem_size w) = true ->
  halvings (length repetitions - 1) (stem_size r) < 2 ^ 63 ->
  halvings (length repetitions - 1) (stem_size w) < 2 ^ 63 ->
  mode = "categorical" /\ 0 < num_outputs \/ mode = "binary" ->
  let features := 64 * 2 ^ Z.of_nat (length repetitions - 1) * expansion in
  let rows := halvings (length repetitions - 1) (stem_size r) in
  let cols := halvings (length repetitions - 1) (stem_size w) in
  exists m g_stages block,
    build o (shape3 o (Some c) (Some r) (Some w)) num_outputs block_fn
      repetitions mode g =
      (inr m,
       g_stages ++
       head_nodes (length g_stages) block (Some rows) (Some cols)
         (shape4 o None (Some features) (Some 1) (Some 1))
         [None; Some features]
         (if (mode =? "binary")%string
          then Dense 1 "he_normal" "sigmoid"
          else Dense num_outputs "he_normal" "softmax")
         [None; Some (if (mode =? "binary")%string then 1 else num_outputs)]) /\
    _keras_shape block = shape4 o None (Some features) (Some rows) (Some cols).
Proof.
  intros Hne Hall Hc Hr Hw Dr Dw Br Bw Hmode. cbv zeta.
  destruct (stem_returns c r w g Hc Hr Hw)
    as (pool1 & g2 & Estem & Spool & Pr & Pw).
  rewrite (build_after_stem _ num_outputs repetitions mode _ _ _ _
             (length_shape3 o _ _ _) Estem).
  destruct (build_stages_shape repetitions pool1 g2 None 64
              (stem_size r) (stem_size w) Hne Hall Spool ltac:(lia) Pr Pw
              Dr Dw)
    as (block & g3 & E3 & S3).
  rewrite (bind_step _ _ _ _ _ E3). cbv beta iota.
  rewrite S3, getitem_row, getitem_col. rewrite !bind_lift.
  pose proof (halvings_le (length repetitions - 1) _ Pr) as Lr.
  pose proof (halvings_le (length repetitions - 1) _ Pw) as Lw.
  erewrite bind_step
    by (apply call_ok; cbn [map]; rewrite S3; apply global_pool_shape4; lia).
  assert (Hp : 0 < 2 ^ Z.of_nat (length repetitions - 1))
    by (apply Z.pow_pos_nonneg; lia).
  erewrite bind_step
    by (apply call_ok; cbn [map _keras_shape]; apply flatten_shape4; nia).
  unfold classifier_head.
  destruct Hmode as [[-> Hout] | ->].
  - change ("categorical" =? "categorical")%string with true.
    change ("categorical" =? "binary")%string with false. cbv iota.
    erewrite bind_step
      by (apply call_ok; cbn [map _keras_shape];
          apply (dense_shape _ _ _ _ _ _ _ eq_refl); nia).
    eexists. exists g3, block. split; [| exact S3].
    unfold ret, head_nodes. norm_graph. reflexivity.
  - change ("binary" =? "categorical")%string with false.
    change ("binary" =? "binary")%string with true. cbv iota.
    erewrite bind_step
      by (apply call_ok; cbn [map _keras_shape];
          apply (dense_shape _ _ _ _ _ _ _ eq_refl); nia).
    eexists. exists g3, block. split; [| exact S3].
    unfold ret, head_nodes. norm_graph. reflexivity.
Qed.

(** The converse: stages that were built had sizes that can be halved. *)
Lemma _residual_block_first_call nb_filters repetitions input g out g' :
  1 <= repetitions ->
  _residual_block block_fn nb_filters repetitions false input g = (inr out, g') ->
  exists b g1, block_fn nb_filters (2, 2) input g = (inr b, g1).
Proof.
  intros Hrep H. unfold _residual_block, range in H.
  destruct (Z.to_nat repetitions) as [| k] eqn:Ek; [lia |].
  cbn [seq map for_] in H. cbv zeta in H.
  change (Z.of_nat 0 =? 0) with true in H. cbn [negb andb] in H.
  apply bind_inr in H. destruct H as (b & g1 & Hcall & _).
  now exists b, g1.
Qed.

Lemma later_stages_halvable n (repetitions : list Z) :
  Forall (fun r => 1 <= r) repetitions ->
  forall (i0 : nat) block nb_filters g c r w res g',
    (1 <= i0)%nat -> 0 < nb_filters ->
    _keras_shape block = shape4 o n (Some c) (Some r) (Some w) ->
    0 < c -> 0 < r -> 0 < w ->
    for_ (combine (map Z.of_nat (seq i0 (length repetitions))) repetitions)
      (block, nb_filters)
      (fun '(block, nb_filters) '(i, r) =>
         block' <- _residual_block block_fn nb_filters r (i =? 0) block ;;
         ret (block', nb_filters * 2)) g = (inr res, g') ->
    halvable (length repetitions) r = true /\
    halvable (length repetitions) w = true.
Proof.
  induction 1 as [| rep reps Hrep _ IH];
    intros i0 block nb_filters g c r w res g' Hi Hf Hin Hc Hr Hw H.
  - now split.
  - cbn [length seq map combine for_] in H. cbv beta iota in H.
    assert (Hfirst : (Z.of_nat i0 =? 0) = false) by (apply Z.eqb_neq; lia).
    rewrite Hfirst in H.
    apply bind_inr in H. destruct H as (s1 & g1 & Hs & Hrest).
    apply bind_inr in Hs. destruct Hs as (b & g1' & Hrb & Hret).
    apply ret_inr in Hret. destruct Hret as [-> ->].
    destruct (_residual_block_first_call _ _ _ _ _ _ Hrep Hrb)
      as (y & gy & Hcall).
    destruct (block_strided_inv _ _ _ _ _ _ _ _ _ Hin Hf Hc Hr Hw Hcall)
      as [Er Ew].
    destruct (_residual_block_shape nb_filters rep false block g n c r w
                Hrep Hf Hin Hc Hr Hw (fun _ => conj Er Ew))
      as (out & g2 & E & Sh).
    rewrite E in Hrb. injection Hrb as <- <-.
    destruct (IH (S i0) out (nb_filters * 2) g2 _ _ _ res g' ltac:(lia)
                ltac:(lia) Sh ltac:(nia) (half_up_pos r Hr) (half_up_pos w Hw)
                Hrest) as [Dr Dw].
    cbn [length halvable]. rewrite Dr, Dw, !andb_true_r.
    split; apply one_or_even; assumption.
Qed.

Lemma build_returns_halvable c r w num_outputs repetitions mode g m g' :
  repetitions <> [] -> Forall (fun r => 1 <= r) repetitions ->
  0 < c -> 0 < r -> 0 < w ->
  build o (shape3 o (Some c) (Some r) (Some w)) num_outputs block_fn
    repetitions mode g = (inr m, g') ->
  halvable (length repetitions - 1) (stem_size r) = true /\
  halvable (length repetitions - 1) (stem_size w) = true.
Proof.
  intros Hne Hall Hc Hr Hw H.
  destruct (stem_returns c r w g Hc Hr Hw)
    as (pool1 & g2 & Estem & Spool & Pr & Pw).
  rewrite (build_after_stem _ num_outputs repetitions mode _ _ _ _
             (length_shape3 o _ _ _) Estem) in H.
  apply bind_inr in H. destruct H as ([block nf] & g3 & Hst & _).
  destruct repetitions as [| rep reps]; [congruence |].
  inversion Hall as [| ? ? Hrep Hreps]; subst.
  unfold build_stages, enumerate in Hst.
  cbn [length seq map combine for_] in Hst. cbv beta iota in Hst.
  change (Z.of_nat 0 =? 0) with true in Hst.
  cbn [length Nat.sub]. rewrite Nat.sub_0_r.
  destruct (_residual_block_shape 64 rep true pool1 g2 None 64 _ _ Hrep
              ltac:(lia) Spool ltac:(lia) Pr Pw)
    as (out & g1 & E & Sh); [discriminate |].
  rewrite (bind_step _ _ _ _ _ (stage_step _ _ _ _ _ _ _ _ E)) in Hst.
  exact (later_stages_halvable None reps Hreps 1 out (64 * 2) g1 _ _ _ _ _
           ltac:(lia) ltac:(lia) Sh ltac:(lia) Pr Pw Hst).
Qed.

End StageShapes.

(** The two block functions halve sizes that are 1 or even. *)
Lemma basic_block_half o nb_filters input g n c r w :
  _keras_shape input = shape4 o n (Some c) (Some r) (Some w) ->
  0 < nb_filters -> 0 < c ->
  0 < r -> 0 < w -> r = 1 \/ (2 | r) -> w = 1 \/ (2 | w) ->
  exists out g',
    basic_block o nb_filters (2, 2) input g = (inr out, g') /\
    _keras_shape out =
      shape4 o n (Some (nb_filters * 1)) (Some (half_up r)) (Some (half_up w)).
Proof.
  intros Hin Hf Hc Hr Hw Er Ew. unfold basic_block.
  destruct (_bn_relu_conv_ok o nb_filters 3 3 2 2 input g n c r w Hin)
    as (conv1 & g1 & E1 & S1); try lia.
  rewrite (bind_step _ _ _ _ _ E1).
  destruct (_bn_relu_conv_ok o nb_filters 3 3 1 1 conv1 g1 _ _ _ _ S1)
    as (residual & g2 & E2 & S2); try lia.
  rewrite (bind_step _ _ _ _ _ E2). rewrite !ceil_div_1 in S2.
  destruct (proj2 (half_up_divides r Hr) Er) as [kr Ekr].
  destruct (proj2 (half_up_divides w Hw) Ew) as [kw Ekw].
  pose proof (stem_step_pos r Hr) as Pr. pose proof (stem_step_pos w Hw) as Pw.
  destruct (_shortcut_ok o input residual g2 _ _ _ _ _ _ _ kr kw Hin S2)
    as (out & g3 & E3 & S3); try assumption; try nia.
  exists out, g3. split; [exact E3 |].
  rewrite S3, S2. now rewrite Z.mul_1_r.
Qed.

Lemma bottleneck_half o nb_filters input g n c r w :
  _keras_shape input = shape4 o n (Some c) (Some r) (Some w) ->
  0 < nb_filters -> 0 < c ->
  0 < r -> 0 < w -> r = 1 \/ (2 | r) -> w = 1 \/ (2 | w) ->
  exists out g',
    bottleneck o nb_filters (2, 2) input g = (inr out, g') /\
    _keras_shape out =
      shape4 o n (Some (nb_filters * 4)) (Some (half_up r)) (Some (half_up w)).
Proof.
  intros Hin Hf Hc Hr Hw Er Ew. unfold bottleneck.
  destruct (_bn_relu_conv_ok o nb_filters 1 1 2 2 input g n c r w Hin)
    as (c1 & g1 & E1 & S1); try lia.
  rewrite (bind_step _ _ _ _ _ E1).
  destruct (_bn_relu_conv_ok o nb_filters 3 3 1 1 c1 g1 _ _ _ _ S1)
    as (c3 & g2 & E2 & S2); try lia.
  rewrite (bind_step _ _ _ _ _ E2). rewrite !ceil_div_1 in S2.
  destruct (_bn_relu_conv_ok o (nb_filters * 4) 1 1 1 1 c3 g2 _ _ _ _ S2)
    as (residual & g3 & E3 & S3); try lia.
  rewrite (bind_step _ _ _ _ _ E3). rewrite !ceil_div_1 in S3.
  destruct (proj2 (half_up_divides r Hr) Er) as [kr Ekr].
  destruct (proj2 (half_up_divides w Hw) Ew) as [kw Ekw].
  pose proof (stem_step_pos r Hr) as Pr. pose proof (stem_step_pos w Hw) as Pw.
  destruct (_shortcut_ok o input residual g3 _ _ _ _ _ _ _ kr kw Hin S3)
    as (out & g4 & E4 & S4); try assumption; try nia.
  exists out, g4. split; [exact E4 |].
  now rewrite S4, S3.
Qed.

Lemma strided_block_inv o block_fn :
  block_fn = basic_block o \/ block_fn = bottleneck o ->
  forall nb_filters input g n c r w out g',
    _keras_shape input = shape4 o n (Some c) (Some r) (Some w) ->
    0 < nb_filters -> 0 < c -> 0 < r -> 0 < w ->
    block_fn nb_filters (2, 2) input g = (inr out, g') ->
    (r = 1 \/ (2 | r)) /\ (w = 1 \/ (2 | w)).
Proof.
  intros Hb nb_filters input g n c r w out g' Hin Hf Hc Hr Hw H.
  apply (proj1 (strided_block_returns o block_fn nb_filters input g n c r w
                  Hb Hin Hr Hw Hf Hc)).
  now exists out, g'.
Qed.


(** ** Unknown sizes *)

Lemma length3_shape3 o (input_shape : list dim) :
  length input_shape = 3%nat -> exists c r w, input_shape = shape3 o c r w.
Proof.
  destruct input_shape as [| a [| b [| c [| d l]]]]; try discriminate.
  intros _. destruct o; [exists c, a, b | exists a, b, c]; reflexivity.
Qed.

Lemma conv_output_length_unknown k b s d :
  conv_output_length None k b s = inr d -> d = None.
Proof. cbn. now intros [= <-]. Qed.

Section UnknownSizes.

Variable o : dim_ordering.

(** A window layer cannot make an unknown size known. *)
Lemma window_keeps_unknown who n c r w channels size b strides out :
  window_output_shape o who (shape4 o n c r w) channels size b strides = inr out ->
  exists c' r' w',
    out = shape4 o n c' r' w' /\ channels c = inr c' /\
    (r = None -> r' = None) /\ (w = None -> w' = None).
Proof.
  intros H.
  destruct o; cbn [window_output_shape shape4] in H;
    destruct (channels c) as [e | c'] eqn:Ec; try discriminate H;
    cbn [rbind] in H;
    destruct (conv_output_length r (fst size) b (fst strides)) as [e | r'] eqn:Er;
    try discriminate H; cbn [rbind] in H;
    destruct (conv_output_length w (snd size) b (snd strides)) as [e | w'] eqn:Ew;
    try discriminate H; cbn [rbind] in H;
    injection H as <-; exists c', r', w';
    (split; [reflexivity |]; split; [reflexivity |]; split; intros ->;
     eapply conv_output_length_unknown; eassumption).
Qed.

(** When the stem returns, the channel count of the input is known and
    positive, and an unknown row or column size is handed on to the
    stages. *)
Lemma stem_keeps_unknown c r w g input pool1 g2 :
  (input <- call o (Input (shape3 o c r w)) [] ;;
   conv1 <- _conv_bn_relu o 64 7 7 (2, 2) input ;;
   pool1 <- call o (MaxPooling2D (3, 3) (2, 2) same) [conv1] ;;
   ret (input, pool1)) g = (inr (input, pool1), g2) ->
  (exists c', c = Some c' /\ 0 < c') /\
  exists c2 r2 w2,
    _keras_shape pool1 = shape4 o None c2 r2 w2 /\
    (r = None -> r2 = None) /\ (w = None -> w2 = None).
Proof.
  intros H.
  apply bind_inr in H. destruct H as (input' & g0 & E0 & H).
  apply bind_inr in H. destruct H as (conv1 & g1 & E1 & H).
  apply bind_inr in H. destruct H as (pool1' & g2' & E2 & H).
  apply ret_inr in H. destruct H as [H _]. injection H as <- <-.
  apply call_inr in E0. destruct E0 as (s0 & E0 & -> & ->).
  cbn [map get_output_shape_for] in E0. injection E0 as <-.
  rewrite input_shape4 in E1.
  unfold _conv_bn_relu in E1.
  apply bind_inr in E1. destruct E1 as (conv & ga & Ea & E1).
  apply bind_inr in E1. destruct E1 as (norm & gb & Eb & E1).
  apply call_inr in Ea. destruct Ea as (sa & Ea & -> & ->).
  apply call_inr in Eb. destruct Eb as (sb & Eb & -> & ->).
  apply call_inr in E1. destruct E1 as (sc & Ec & -> & ->).
  apply call_inr in E2. destruct E2 as (sd & Ed & -> & _).
  cbn [map _keras_shape] in Ea, Eb, Ec, Ed.
  cbn [get_output_shape_for] in Ea, Ec, Ed.
  injection Ec as <-.
  apply bn_shape in Eb. subst sb.
  apply window_keeps_unknown in Ea.
  destruct Ea as (c1 & r1 & w1 & -> & Hc & Hr1 & Hw1).
  apply window_keeps_unknown in Ed.
  destruct Ed as (c2 & r2 & w2 & -> & _ & Hr2 & Hw2).
  split.
  - cbv beta in Hc. rinv.
    match goal with
    | H : Forall _ [_; ?z; _; _] |- _ =>
        exists z; split; [reflexivity | exact (Forall_inv (Forall_inv_tail H))]
    end.
  - exists c2, r2, w2. cbn [_keras_shape]. auto.
Qed.

Lemma build_stem_inv input_shape num_outputs block_fn repetitions mode g m g' :
  build o input_shape num_outputs block_fn repetitions mode g = (inr m, g') ->
  length input_shape = 3%nat /\
  exists input pool1 g2,
    (input <- call o (Input input_shape) [] ;;
     conv1 <- _conv_bn_relu o 64 7 7 (2, 2) input ;;
     pool1 <- call o (MaxPooling2D (3, 3) (2, 2) same) [conv1] ;;
     ret (input, pool1)) g = (inr (input, pool1), g2).
Proof.
  intros H. unfold build in H.
  destruct (length input_shape =? 3)%nat eqn:L; [| discriminate H].
  cbn [negb] in H. apply Nat.eqb_eq in L. split; [exact L |].
  apply bind_inr in H. destruct H as (input & g0 & E0 & H).
  apply bind_inr in H. destruct H as (conv1 & g1 & E1 & H).
  apply bind_inr in H. destruct H as (pool1 & g2 & E2 & _).
  exists input, pool1, g2.
  rewrite (bind_step _ _ _ _ _ E0), (bind_step _ _ _ _ _ E1),
    (bind_step _ _ _ _ _ E2).
  reflexivity.
Qed.

(** With unknown rows the stem still returns, and its shapes have
    unknown rows. *)
Lemma stem_unknown_rows c w g :
  0 < c ->
  let input_shape := shape3 o (Some c) None w in
  let conv_shape := shape4 o None (Some 64) None (option_map half_up w) in
  let pool_shape := shape4 o None (Some 64) None (option_map stem_size w) in
  (input <- call o (Input input_shape) [] ;;
   conv1 <- _conv_bn_relu o 64 7 7 (2, 2) input ;;
   pool1 <- call o (MaxPooling2D (3, 3) (2, 2) same) [conv1] ;;
   ret (input, pool1)) g =
    (inr (mk_tensor (length g) (None :: input_shape),
          mk_tensor (length g + 4) pool_shape),
     g ++ stem_nodes o (length g) input_shape conv_shape pool_shape).
Proof.
  intros Hc input_shape conv_shape pool_shape.
  assert (Econv : get_output_shape_for o
                    (Convolution2D (Some 64) 7 7 (2, 2) "he_normal" same)
                    [None :: input_shape] = inr conv_shape).
  { subst input_shape conv_shape.
    destruct o, w as [x |];
      cbn [get_output_shape_for window_output_shape shape3 shape4 rbind
           defined fst snd conv_output_length option_map];
      rewrite weights_ok by (repeat constructor; lia); cbn [rbind];
      rewrite ?floordiv_ok by lia; reflexivity. }
  assert (Ebn : get_output_shape_for o (BatchNormalization 0 (CHANNEL_AXIS o))
                  [conv_shape] = inr conv_shape)
    by (apply bn_shape4; lia).
  assert (Epool : get_output_shape_for o (MaxPooling2D (3, 3) (2, 2) same)
                    [conv_shape] = inr pool_shape).
  { subst conv_shape pool_shape.
    destruct o, w as [x |];
      cbn [get_output_shape_for window_output_shape shape4 rbind
           fst snd conv_output_length option_map];
      rewrite ?floordiv_ok by lia; reflexivity. }
  erewrite bind_step by (apply call_ok; reflexivity).
  unfold _conv_bn_relu.
  erewrite bind_step
    by (erewrite bind_step by (apply call_ok; exact Econv);
        erewrite bind_step by (apply call_ok; exact Ebn);
        apply call_ok; reflexivity).
  erewrite bind_step by (apply call_ok; exact Epool).
  unfold ret, stem_nodes. norm_graph.
  replace (length g + 4)%nat with (S (S (S (S (length g))))) by lia.
  reflexivity.
Qed.

(** A block that returns has read known row and column sizes in
    [_shortcut]. *)
Lemma block_needs_known block_fn nb_filters init_subsample input g out g' :
  block_fn = basic_block o \/ block_fn = bottleneck o ->
  block_fn nb_filters init_subsample input g = (inr out, g') ->
  exists a b,
    getitem (_keras_shape input) (ROW_AXIS o) = inr (Some a) /\
    getitem (_keras_shape input) (COL_AXIS o) = inr (Some b).
Proof.
  intros [-> | ->] H.
  - unfold basic_block in H.
    apply bind_inr in H. destruct H as (conv1 & g1 & _ & H).
    apply bind_inr in H. destruct H as (residual & g2 & _ & H).
    apply _shortcut_inv in H.
    destruct H as (a & _ & b & _ & _ & _ & Ha & _ & Hb & _). eauto.
  - unfold bottleneck in H.
    apply bind_inr in H. destruct H as (c1 & g1 & _ & H).
    apply bind_inr in H. destruct H as (c3 & g2 & _ & H).
    apply bind_inr in H. destruct H as (residual & g3 & _ & H).
    apply _shortcut_inv in H.
    destruct H as (a & _ & b & _ & _ & _ & Ha & _ & Hb & _). eauto.
Qed.

(** On an unknown size no block is built. *)
Lemma stages_on_unknown block_fn repetitions pool1 g out nf g' :
  block_fn = basic_block o \/ block_fn = bottleneck o ->
  getitem (_keras_shape pool1) (ROW_AXIS o) = inr None \/
  getitem (_keras_shape pool1) (COL_AXIS o) = inr None ->
  build_stages block_fn repetitions pool1 g = (inr (out, nf), g') ->
  out = pool1.
Proof.
  intros Hb Hunknown H. rewrite build_stages_calls in H.
  destruct (concat (network_calls 0 repetitions)) as [| [f s] calls].
  - apply bind_inr in H. destruct H as (x & g1 & Hx & H).
    apply ret_inr in Hx. destruct Hx as [-> _].
    apply ret_inr in H. destruct H as [H _]. now injection H as <- _.
  - exfalso. apply bind_inr in H. destruct H as (x & g1 & Hx & _).
    unfold run_calls in Hx. cbn [for_] in Hx.
    apply bind_inr in Hx. destruct Hx as (y & gy & Hy & _).
    destruct (block_needs_known _ _ _ _ _ _ _ Hb Hy) as (a & b & Ha & Hb').
    destruct Hunknown as [Hu | Hu]; congruence.
Qed.

(** The pooling over the whole extent needs a known extent. *)
Lemma pool_on_unknown n c r w pool_shape :
  r = None \/ w = None ->
  get_output_shape_for o (AveragePooling2D (r, w) (1, 1) valid)
    [shape4 o n c r w] <> inr pool_shape.
Proof.
  intros Hunknown Hp. cbn [get_output_shape_for] in Hp.
  apply window_keeps_unknown in Hp.
  destruct Hp as (c' & r' & w' & _ & Hch & _).
  cbv beta in Hch. cbn [fst snd] in Hch. rinv.
  destruct Hunknown; discriminate.
Qed.

Lemma pool_on_unknown_rows n c w :
  get_output_shape_for o (AveragePooling2D (None, w) (1, 1) valid)
    [shape4 o n c None w] = inl TypeError.
Proof. destruct o; reflexivity. Qed.

End UnknownSizes.

(** ** The last stage, and the sizes that can be built *)

(** X11. With [basic_block] (expansion 1) or [bottleneck] (expansion 4),
    [k >= 1] stages of at least one block each, a positive channel count,
    positive sizes below [2^63] that leave stem sizes that [2^(k-1)]
    divides, and a valid mode (with a positive number of outputs when it
    is "categorical"), [build] returns, and the graph ends with the three
    nodes of the head on a last stage output of
    [64 * 2^(k-1) * expansion] channels and [stem_size / 2^(k-1)] rows
    and columns: the pooling covers exactly these rows and columns, and
    the dense layer is fed [64 * 2^(k-1) * expansion] features. *)
Theorem last_stage_shape o block_fn expansion c r w num_outputs repetitions
    mode g :
  block_fn = basic_block o /\ expansion = 1 \/
  block_fn = bottleneck o /\ expansion = 4 ->
  repetitions <> [] -> Forall (fun r => 1 <= r) repetitions ->
  0 < c -> 0 < r < 2 ^ 63 -> 0 < w < 2 ^ 63 ->
  (2 ^ Z.of_nat (length repetitions - 1) | stem_size r) ->
  (2 ^ Z.of_nat (length repetitions - 1) | stem_size w) ->
  mode = "categorical" /\ 0 < num_outputs \/ mode = "binary" ->
  let factor := 2 ^ Z.of_nat (length repetitions - 1) in
  let features := 64 * factor * expansion in
  let rows := stem_size r / factor in
  let cols := stem_size w / factor in
  exists m g_stages block,
    build o (shape3 o (Some c) (Some r) (Some w)) num_outputs block_fn
      repetitions mode g =
      (inr m,
       g_stages ++
       head_nodes (length g_stages) block (Some rows) (Some cols)
         (shape4 o None (Some features) (Some 1) (Some 1))
         [None; Some features]
         (if (mode =? "binary")%string
          then Dense 1 "he_normal" "sigmoid"
          else Dense num_outputs "he_normal" "softmax")
         [None; Some (if (mode =? "binary")%string then 1 else num_outputs)]) /\
    _keras_shape block = shape4 o None (Some features) (Some rows) (Some cols).
Proof.
  intros Hb Hne Hall Hc Hr Hw Dr Dw Hmode. cbv zeta.
  pose proof (stem_size_le r ltac:(lia)) as Pr.
  pose proof (stem_size_le w ltac:(lia)) as Pw.
  destruct (divides_halvable _ _ (proj1 Pr) Dr) as [Hr1 Hr2].
  destruct (divides_halvable _ _ (proj1 Pw) Dw) as [Hw1 Hw2].
  pose proof (halvings_le (length repetitions - 1) _ (proj1 Pr)) as Lr.
  pose proof (halvings_le (length repetitions - 1) _ (proj1 Pw)) as Lw.
  rewrite <- Hr2, <- Hw2.
  destruct Hb as [[-> ->] | [-> ->]].
  - apply (build_features o (basic_block o) 1 ltac:(lia)
             (basic_block_well_shaped o) (basic_block_half o));
      try assumption; lia.
  - apply (build_features o (bottleneck o) 4 ltac:(lia)
             (bottleneck_well_shaped o) (bottleneck_half o));
      try assumption; lia.
Qed.

Lemma last_stage_shape_witness :
  (0 < 3 /\ 0 < 224 < 2 ^ 63 /\ 0 < 1000) /\
  exists m g_stages block,
    build th (shape3 th (Some 3) (Some 224) (Some 224)) 1000 (bottleneck th)
      [3; 4; 6; 3] "categorical" [] =
      (inr m,
       g_stages ++
       head_nodes (length g_stages) block (Some 7) (Some 7)
         [None; Some 2048; Some 1; Some 1] [None; Some 2048]
         (Dense 1000 "he_normal" "softmax") [None; Some 1000]) /\
    _keras_shape block = [None; Some 2048; Some 7; Some 7].
Proof.
  assert (F : Forall (fun r => 1 <= r) [3; 4; 6; 3])
    by (repeat constructor; lia).
  assert (D : (2 ^ Z.of_nat (length [3; 4; 6; 3] - 1) | stem_size 224))
    by (exists 7; reflexivity).
  assert (B : 0 < 224 < 2 ^ 63) by (split; reflexivity).
  split; [repeat split; try lia; reflexivity |].
  assert (M : "categorical"%string = "categorical"%string /\ 0 < 1000 \/
              "categorical"%string = "binary"%string)
    by (left; split; [reflexivity | lia]).
  assert (C : 0 < 3) by lia.
  exact (last_stage_shape th (bottleneck th) 4 3 224 224 1000 [3; 4; 6; 3]
           "categorical" [] (or_intror (conj eq_refl eq_refl))
           ltac:(discriminate) F C B B D D M).
Defined.

(** X12. With [basic_block] or [bottleneck] and a second stage of at
    least one block, [build] returns a model only if both sizes after the
    stem are 1 or even: the first block of the second stage strides by
    (2, 2), and on an odd size above 1 its shortcut cannot be summed with
    its residual. *)
Theorem build_needs_even_stem o block_fn c r w num_outputs r0 r1 rest mode g
    m g' :
  block_fn = basic_block o \/ block_fn = bottleneck o ->
  0 < r -> 0 < w -> 1 <= r1 ->
  build o (shape3 o (Some c) (Some r) (Some w)) num_outputs block_fn
    (r0 :: r1 :: rest) mode g = (inr m, g') ->
  (stem_size r = 1 \/ (2 | stem_size r)) /\
  (stem_size w = 1 \/ (2 | stem_size w)).
Proof.
  intros Hb Hr Hw Hr1 H.
  assert (Hws : exists e, 0 < e /\ well_shaped_block o block_fn e).
  { destruct Hb as [-> | ->].
    - exists 1. split; [lia | apply basic_block_well_shaped].
    - exists 4. split; [lia | apply bottleneck_well_shaped]. }
  destruct Hws as (e & He & Hws).
  destruct (build_stem_inv o _ _ _ _ _ _ _ _ H)
    as (L & input & pool1 & g2 & Estem).
  destruct (stem_keeps_unknown o _ _ _ _ _ _ _ Estem)
    as ((c' & Ec & Hc) & _).
  injection Ec as <-.
  destruct (stem_returns o c r w g Hc Hr Hw)
    as (pool1' & g2' & Estem' & Spool & Pr & Pw).
  rewrite Estem' in Estem. injection Estem as <- <- <-.
  rewrite (build_after_stem o block_fn _ num_outputs (r0 :: r1 :: rest) mode
             _ _ _ _ L Estem') in H.
  apply bind_inr in H. destruct H as ([block nf] & g3 & Hst & _).
  unfold build_stages, enumerate in Hst.
  cbn [length seq map combine for_] in Hst. cbv beta iota in Hst.
  change (Z.of_nat 0 =? 0) with true in Hst.
  change (Z.of_nat 1 =? 0) with false in Hst.
  destruct (_residual_block_ok o block_fn e He Hws 64 r0 true pool1' g2' None
              64 (stem_size r) (stem_size w) ltac:(lia) Spool ltac:(lia)
              Pr Pw)
    as (out0 & g4 & c0 & r' & w' & E0 & S0 & Hc0 & Hr' & Hw');
    [discriminate |].
  destruct Hr' as [-> | [? _]]; [| discriminate].
  destruct Hw' as [-> | [? _]]; [| discriminate].
  rewrite (bind_step _ _ _ _ _ (stage_step _ _ _ _ _ _ _ _ E0)) in Hst.
  apply bind_inr in Hst. destruct Hst as (s1 & g5 & Hs1 & _).
  apply bind_inr in Hs1. destruct Hs1 as (b1 & g6 & Hrb & _).
  unfold _residual_block, range in Hrb.
  destruct (Z.to_nat r1) as [| k] eqn:Ek; [lia |].
  cbn [seq map for_] in Hrb. cbv zeta in Hrb.
  change (Z.of_nat 0 =? 0) with true in Hrb. cbn [negb andb] in Hrb.
  apply bind_inr in Hrb. destruct Hrb as (b & g7 & Hcall & _).
  apply (proj1 (strided_block_returns o block_fn (64 * 2) out0 g4 None c0
                  (stem_size r) (stem_size w) Hb S0 Pr Pw ltac:(lia) Hc0)).
  now exists b, g7.
Qed.

Lemma build_needs_even_stem_witness :
  (0 < 100 /\ 1 <= 4) /\
  forall m g',
    build th (shape3 th (Some 3) (Some 100) (Some 100)) 10 (bottleneck th)
      [3; 4; 6; 3] "categorical" [] <> (inr m, g').
Proof.
  split; [lia |]. intros m g' H.
  apply (build_needs_even_stem th (bottleneck th) 3 100 100 10 3 4 [6; 3]
           "categorical" [] m g' (or_intror eq_refl)) in H; try lia.
  change (stem_size 100) with 25 in H.
  destruct H as [[H | [k H]] _]; lia.
Defined.

(** X13. With a positive filter count, on a fully known input with a
    positive channel count whose sizes the strides divide, [basic_block]
    returns a tensor of [nb_filters] channels and [bottleneck] one of
    [nb_filters * 4] channels, with the rows and columns divided by the
    strides; the batch entry is kept. *)
Theorem block_output_shape o block_fn expansion nb_filters s1 s2 input g
    n c r w :
  block_fn = basic_block o /\ expansion = 1 \/
  block_fn = bottleneck o /\ expansion = 4 ->
  _keras_shape input = shape4 o n (Some c) (Some r) (Some w) ->
  0 < nb_filters -> 0 < c ->
  0 < r -> 0 < w -> 0 < s1 -> 0 < s2 -> (s1 | r) -> (s2 | w) ->
  exists out g',
    block_fn nb_filters (s1, s2) input g = (inr out, g') /\
    _keras_shape out =
      shape4 o n (Some (nb_filters * expansion)) (Some (r / s1)) (Some (w / s2)).
Proof.
  intros [[-> ->] | [-> ->]].
  - apply basic_block_well_shaped.
  - apply bottleneck_well_shaped.
Qed.

Lemma block_output_shape_witness :
  let input := mk_tensor 4 (shape4 tf None (Some 256) (Some 56) (Some 56)) in
  (0 < 128 /\ 0 < 256 /\ 0 < 56 /\ 0 < 2) /\
  exists out g',
    bottleneck tf 128 (2, 2) input [] = (inr out, g') /\
    _keras_shape out = [None; Some 28; Some 28; Some 512].
Proof.
  intros input. split; [lia |].
  exact (block_output_shape tf (bottleneck tf) 4 128 2 2 input [] None 256 56 56
           (or_intror (conj eq_refl eq_refl)) eq_refl
           ltac:(lia) ltac:(lia) ltac:(lia) ltac:(lia) ltac:(lia) ltac:(lia)
           (ex_intro _ 28 eq_refl) (ex_intro _ 28 eq_refl)).
Defined.

(** X14. With [basic_block] or [bottleneck], [k >= 1] stages of at least
    one block each, a valid mode (with a positive number of outputs when
    it is "categorical") and a fully known input shape with a positive
    channel count and positive row and column sizes below [2^63],
    [build] returns a model exactly when each of the two sizes after the
    stem is a multiple of [2^(k-1)] or a power of two: every later stage
    must halve a size that is even, or keep a size that has reached 1. *)
Theorem build_returns_iff o block_fn c r w num_outputs repetitions mode g :
  block_fn = basic_block o \/ block_fn = bottleneck o ->
  repetitions <> [] -> Forall (fun r => 1 <= r) repetitions ->
  0 < c -> 0 < r < 2 ^ 63 -> 0 < w < 2 ^ 63 ->
  mode = "categorical" /\ 0 < num_outputs \/ mode = "binary" ->
  let k := Z.of_nat (length repetitions - 1) in
  (exists m g',
     build o (shape3 o (Some c) (Some r) (Some w)) num_outputs block_fn
       repetitions mode g = (inr m, g')) <->
  ((2 ^ k | stem_size r) \/ exists j, 0 <= j /\ stem_size r = 2 ^ j) /\
  ((2 ^ k | stem_size w) \/ exists j, 0 <= j /\ stem_size w = 2 ^ j).
Proof.
  intros Hb Hne Hall Hc Hr Hw Hmode. cbv zeta.
  pose proof (stem_size_le r ltac:(lia)) as Pr.
  pose proof (stem_size_le w ltac:(lia)) as Pw.
  pose proof (strided_block_inv o block_fn Hb) as Hinv.
  split.
  - intros (m & g' & H).
    assert (D : halvable (length repetitions - 1) (stem_size r) = true /\
                halvable (length repetitions - 1) (stem_size w) = true).
    { destruct Hb as [-> | ->].
      - exact (build_returns_halvable o (basic_block o) 1 ltac:(lia)
                 (basic_block_well_shaped o) (basic_block_half o) Hinv
                 c r w num_outputs repetitions mode g m g' Hne Hall Hc
                 ltac:(lia) ltac:(lia) H).
      - exact (build_returns_halvable o (bottleneck o) 4 ltac:(lia)
                 (bottleneck_well_shaped o) (bottleneck_half o) Hinv
                 c r w num_outputs repetitions mode g m g' Hne Hall Hc
                 ltac:(lia) ltac:(lia) H). }
    destruct D as [Dr Dw]. split; apply halvable_inv; tauto.
  - intros [Hr' Hw'].
    assert (Dr : halvable (length repetitions - 1) (stem_size r) = true).
    { destruct Hr' as [D | (j & Hj & E)].
      - now apply divides_halvable.
      - rewrite E. now apply pow2_halvable. }
    assert (Dw : halvable (length repetitions - 1) (stem_size w) = true).
    { destruct Hw' as [D | (j & Hj & E)].
      - now apply divides_halvable.
      - rewrite E. now apply pow2_halvable. }
    pose proof (halvings_le (length repetitions - 1) _ (proj1 Pr)) as Lr.
    pose proof (halvings_le (length repetitions - 1) _ (proj1 Pw)) as Lw.
    destruct Hb as [-> | ->].
    + destruct (build_features o (basic_block o) 1 ltac:(lia)
                  (basic_block_well_shaped o) (basic_block_half o)
                  c r w num_outputs repetitions mode g
                  Hne Hall Hc ltac:(lia) ltac:(lia) Dr Dw ltac:(lia)
                  ltac:(lia) Hmode)
        as (m & gs & block & E & _).
      exists m. eexists. exact E.
    + destruct (build_features o (bottleneck o) 4 ltac:(lia)
                  (bottleneck_well_shaped o) (bottleneck_half o)
                  c r w num_outputs repetitions mode g
                  Hne Hall Hc ltac:(lia) ltac:(lia) Dr Dw ltac:(lia)
                  ltac:(lia) Hmode)
        as (m & gs & block & E & _).
      exists m. eexists. exact E.
Qed.

Lemma build_returns_iff_witness :
  (0 < 3 /\ 0 < 16 < 2 ^ 63 /\ 0 < 10 /\
   Forall (fun r => 1 <= r) [2; 2; 2; 2]) /\
  exists m g',
    build th (shape3 th (Some 3) (Some 16) (Some 16)) 10 (basic_block th)
      [2; 2; 2; 2] "categorical" [] = (inr m, g').
Proof.
  assert (F : Forall (fun r => 1 <= r) [2; 2; 2; 2])
    by (repeat constructor; lia).
  assert (B : 0 < 16 < 2 ^ 63) by (split; reflexivity).
  split; [repeat split; try lia; try exact F; reflexivity |].
  assert (M : "categorical"%string = "categorical"%string /\ 0 < 10 \/
              "categorical"%string = "binary"%string)
    by (left; split; [reflexivity | lia]).
  assert (C : 0 < 3) by lia.
  pose proof (build_returns_iff th (basic_block th) 3 16 16 10 [2; 2; 2; 2]
                "categorical" [] (or_introl eq_refl) ltac:(discriminate) F
                C B B M) as H.
  apply H. split; right; exists 2; split; [lia | reflexivity | lia | reflexivity].
Defined.

(** ** [main] *)

(** X15. [main] returns nothing.  Started on the empty graph, its call of
    the builder returns under both dimension orderings, with a graph of
    67 nodes whose average pooling covers 7 x 7 under "th" and 1 x 7
    under "tf", where (3, 224, 224) is read as 3 rows, 224 columns and
    224 channels.  So [main] raises only what the plotting helper or
    [summary] raise, with the graph kept; [summary] is called on the
    model of the builder compiled with the categorical cross-entropy loss
    and the sgd optimizer. *)
Theorem main_returns o
    (plot_model_cwd : Model -> string -> string -> result unit) visual_path
    (summary : Model -> result unit) :
  let model :=
    new_Model (mk_tensor 0 [None; Some 3; Some 224; Some 224])
              (mk_tensor 66 [None; Some 1000]) in
  exists g',
    length g' = 67%nat /\
    nth_error g' 64 =
      Some (mk_node
              (AveragePooling2D
                 (match o with
                  | th => (Some 7, Some 7)
                  | tf => (Some 1, Some 7)
                  end) (1, 1) valid)
              [63%nat] (shape4 o None (Some 512) (Some 1) (Some 1))) /\
    main o plot_model_cwd visual_path summary [] =
      (rbind (plot_model_cwd model visual_path "resnet_18.png") (fun _ =>
       rbind (summary (compile model "categorical_crossentropy" "sgd")) (fun _ =>
       inr tt)), g').
Proof.
  intros model.
  set (b := build o [Some 3; Some 224; Some 224] 1000 (basic_block o)
              [2; 2; 2; 2] "categorical" []).
  assert (E : b = (inr model, snd b)) by (destruct o; vm_compute; reflexivity).
  exists (snd b). split; [| split].
  - destruct o; vm_compute; reflexivity.
  - destruct o; vm_compute; reflexivity.
  - unfold main, build_resnet_18. rewrite bind_assoc.
    fold b. rewrite (bind_step _ _ _ _ _ E). cbv zeta.
    unfold bind, lift, ret.
    destruct (plot_model_cwd model visual_path "resnet_18.png") as [e | []];
      cbn [rbind]; [reflexivity |].
    destruct (summary _) as [e | []]; reflexivity.
Qed.

(** ** Inputs with unknown sizes *)

(** X16. With [basic_block] or [bottleneck], [build] returns a model only
    if the channel, row and column entries of [input_shape] are all
    known, whatever the repetitions and the mode.  With a known, positive
    channel count, an unknown row size, a column size that is unknown or
    positive, and no block at all (no positive entry in [repetitions]),
    the run stops in the average pooling with a [TypeError]: the graph
    has grown by the five nodes of the stem and nothing else. *)
Theorem build_needs_known_sizes o input_shape num_outputs block_fn repetitions
    mode g :
  (block_fn = basic_block o \/ block_fn = bottleneck o ->
   forall m g',
     build o input_shape num_outputs block_fn repetitions mode g = (inr m, g') ->
     exists c r w, input_shape = shape3 o (Some c) (Some r) (Some w)) /\
  (forall c w,
     input_shape = shape3 o (Some c) None w -> 0 < c ->
     (forall cols, w = Some cols -> 0 < cols) ->
     Forall (fun r => r <= 0) repetitions ->
     build o input_shape num_outputs block_fn repetitions mode g =
     (inl TypeError,
      g ++ stem_nodes o (length g) input_shape
             (shape4 o None (Some 64) None (option_map half_up w))
             (shape4 o None (Some 64) None (option_map stem_size w)))).
Proof.
  split.
  - intros Hb m g' H.
    destruct (build_stem_inv o _ _ _ _ _ _ _ _ H)
      as (L & input & pool1 & g2 & Estem).
    destruct (length3_shape3 o input_shape L) as (c & r & w & ->).
    destruct (stem_keeps_unknown o _ _ _ _ _ _ _ Estem)
      as ((c' & -> & _) & c2 & r2 & w2 & Spool & Hr2 & Hw2).
    assert (Hcase : (exists r' w', r = Some r' /\ w = Some w') \/
                    (r2 = None \/ w2 = None)).
    { destruct r as [r' |], w as [w' |]; eauto 6. }
    destruct Hcase as [(r' & w' & -> & ->) | Hu]; [now exists c', r', w' |].
    exfalso.
    rewrite (build_after_stem o block_fn _ num_outputs repetitions mode
               _ _ _ _ L Estem) in H.
    apply bind_inr in H. destruct H as ([block nf] & g3 & Hst & H).
    assert (block = pool1).
    { apply (stages_on_unknown o block_fn repetitions pool1 g2 block nf g3 Hb);
        [| exact Hst].
      rewrite Spool, getitem_row, getitem_col.
      destruct Hu as [-> | ->]; auto. }
    subst block. cbv beta iota in H.
    rewrite Spool, getitem_row, getitem_col in H. rewrite !bind_lift in H.
    apply bind_inr in H. destruct H as (pool2 & g4 & Ep & _).
    apply call_inr in Ep. destruct Ep as (ps & Ep & _).
    cbn [map _keras_shape] in Ep. rewrite Spool in Ep.
    exact (pool_on_unknown o None c2 r2 w2 ps Hu Ep).
  - intros c w -> Hc _ Hreps.
    rewrite (build_after_stem o block_fn _ num_outputs repetitions mode
               _ _ _ _ (length_shape3 o _ _ _)
               (stem_unknown_rows o c w g Hc)).
    unfold bind at 1. rewrite build_stages_calls.
    rewrite network_calls_skipped by assumption.
    unfold run_calls. cbn [for_]. unfold bind at 1, ret at 1, ret at 1.
    cbn [_keras_shape]. rewrite getitem_row, getitem_col, !bind_lift.
    unfold bind at 1, call at 1. cbn [map _keras_shape].
    now rewrite pool_on_unknown_rows.
Qed.

Lemma build_needs_known_sizes_witness :
  (length [Some 3; None; None] = 3%nat /\ 0 < 3) /\
  ~ (exists m g',
       build th [Some 3; None; None] 1000 (bottleneck th) [3; 4; 6; 3]
         "categorical" [] = (inr m, g')) /\
  build th [Some 3; None; None] 1000 (bottleneck th) [] "categorical" [] =
    (inl TypeError,
     stem_nodes th 0 [Some 3; None; None] [None; Some 64; None; None]
       [None; Some 64; None; None]).
Proof.
  split; [split; [reflexivity | lia] |]. split.
  - intros (m & g' & H).
    pose proof (build_needs_known_sizes th [Some 3; None; None] 1000
                  (bottleneck th) [3; 4; 6; 3] "categorical" []) as [Hk _].
    destruct (Hk (or_intror eq_refl) m g' H) as (c & r & w & E).
    discriminate E.
  - pose proof (build_needs_known_sizes th [Some 3; None; None] 1000
                  (bottleneck th) [] "categorical" []) as [_ Hp].
    apply (Hp 3 None eq_refl); [lia | discriminate | constructor].
Defined.
